(** * Security layer of the Train Station Dashboard

    A shallow embedding of [src/lib/security/index.ts] and
    [src/lib/security/middleware.ts], and the properties of the
    input sanitizer, the CSRF token manager, the header generator, the
    file-upload validators and the session registry.

    Conventions of the embedding.
    - A JavaScript string is a sequence of UTF-16 code units.  The
      development works over [string], one [ascii] per code unit, which
      covers the code units 0..255; every pattern and literal of the source
      is ASCII.
    - A [Map] or a plain object used as a map is a [gmap] keyed by strings.
    - [Date.now()] and [crypto.getRandomValues] are inputs of the operation
      that reads them: a time stamp in milliseconds ([Z]) and the bytes
      drawn.
    - The module-level singletons ([defaultCSRFProtection],
      [defaultSessionSecurity]) are threaded explicitly: an operation takes
      the store and returns its result with the store it leaves. *)

From Stdlib Require Import ZArith NArith Ascii String List Bool Lia.
From Stdlib Require Import Strings.Byte Numbers.DecimalString.
From Stdlib Require Import Numbers.DecimalNat Numbers.DecimalFacts.
From stdpp Require Import gmap strings list fin_maps.

#[local] Set Warnings "-register-all".
#[local] Open Scope Z_scope.

(* ================================================================== *)
(** * Part I: the embedding                                            *)
(* ================================================================== *)

(** ** JavaScript strings and values *)

Module JS.

Definition code (c : ascii) : N := N_of_ascii c.

Definition in_range (lo hi : N) (c : ascii) : bool :=
  ((lo <=? code c) && (code c <=? hi))%N.

Definition is_upper (c : ascii) : bool := in_range 65 90 c.
Definition is_lower (c : ascii) : bool := in_range 97 122 c.
Definition is_digit (c : ascii) : bool := in_range 48 57 c.

(** The class [\w] of a pattern without the [u] flag: [[A-Za-z0-9_]]. *)
Definition is_word (c : ascii) : bool :=
  is_upper c || is_lower c || is_digit c || (code c =? 95)%N.

(** [String.prototype.toLowerCase] on one code unit below 256: the ASCII
    capitals and the Latin-1 capitals U+00C0..U+00DE (U+00D7, the
    multiplication sign, apart) move up by 32. *)
Definition lower_char (c : ascii) : ascii :=
  if is_upper c || (in_range 192 222 c && negb (code c =? 215)%N)
  then ascii_of_N (code c + 32)
  else c.

(** [toUpperCase] restricted to what canonicalisation under the [i] flag
    needs: a code unit of 128 or more is never identified with an ASCII
    one, so two code units match when they are equal or are the two cases
    of one ASCII letter. *)
Definition canon (c : ascii) : ascii :=
  if is_lower c then ascii_of_N (code c - 32) else c.

Definition eqb_ci (a b : ascii) : bool := Ascii.eqb (canon a) (canon b).

Fixpoint toLowerCase (s : string) : string :=
  match s with
  | EmptyString => EmptyString
  | String c r => String (lower_char c) (toLowerCase r)
  end.

(** [s.startsWith(p)]. *)
Fixpoint startsWith (s p : string) {struct p} : bool :=
  match p, s with
  | EmptyString, _ => true
  | String _ _, EmptyString => false
  | String a p', String b s' => Ascii.eqb a b && startsWith s' p'
  end.

(** [s.substring(n)] for [0 <= n]. *)
Fixpoint drop (n : nat) (s : string) : string :=
  match n, s with
  | O, _ => s
  | S _, EmptyString => EmptyString
  | S k, String _ r => drop k r
  end.

(** [s.substring(0, n)]. *)
Fixpoint take (n : nat) (s : string) : string :=
  match n, s with
  | O, _ => EmptyString
  | S _, EmptyString => EmptyString
  | S k, String c r => String c (take k r)
  end.

(** [s.endsWith(p)]: [p] is as long as the end of [s] it is compared
    with. *)
Definition endsWith (s p : string) : bool :=
  (String.length p <=? String.length s)%nat
  && String.eqb (drop (String.length s - String.length p) s) p.

(** [s.includes(p)]: [p] starts at some position of [s]. *)
Fixpoint includes (s p : string) : bool :=
  startsWith s p ||
  match s with
  | EmptyString => false
  | String _ r => includes r p
  end.

(** [xs.includes(x)] on an array of strings. *)
Definition array_includes (xs : list string) (x : string) : bool :=
  existsb (String.eqb x) xs.

(** [String(n)] of a non-negative integer, as in a template literal or
    in the keys of an array. *)
Definition show_nat (n : nat) : string :=
  NilZero.string_of_uint (Nat.to_uint n).

Definition show_Z (z : Z) : string :=
  NilZero.string_of_int (Z.to_int z).

(** A [File] as the validators read it: [name], [type] and [size]. *)
Record File := mkFile {
  file_name : string;
  file_type : string;
  file_size : Z
}.

(** Values that reach the sanitizers: the JSON values, [undefined], and
    the two host objects of form handling.  A number carries the 64 bits
    of its double, which no function here inspects.  [Obj props] is a
    plain object: the finite map of its own enumerable string-keyed
    properties, all of them writable data properties, with
    [Object.prototype] as its prototype.  [ObjWith proto props] is such an
    object after its prototype has been replaced by [proto], an object or
    [null].  A [FormData] is its list of entries, in order, repeated names
    allowed.  A value is a finite tree: an object that holds itself is not
    a value of the model. *)
Inductive value :=
| Undefined
| Null
| Bool (b : bool)
| Num (bits : Z)
| Str (s : string)
| Arr (items : list value)
| Obj (props : gmap string value)
| FileObj (f : File)
| FormData (entries : list (string * value))
| ObjWith (proto : value) (props : gmap string value).

(** [typeof v]. *)
Definition typeof (v : value) : string :=
  match v with
  | Undefined => "undefined"
  | Bool _ => "boolean"
  | Num _ => "number"
  | Str _ => "string"
  | Null | Arr _ | Obj _ | FileObj _ | FormData _ | ObjWith _ _ => "object"
  end.

(** [v instanceof FormData]: [FormData.prototype] is on the prototype
    chain of [v]. *)
Fixpoint instanceof_FormData (v : value) : bool :=
  match v with
  | FormData _ => true
  | ObjWith proto _ => instanceof_FormData proto
  | _ => false
  end.

(** What the assignment [o[k] = v] finds for the name [k] on the
    prototype chain of [o], when [o] has no own property [k]. *)
Inductive slot :=
| Plain     (* nothing, or a writable data property: [o] gets an own
               property *)
| ReadOnly  (* an accessor without a setter: the assignment fails *)
| Setter.   (* the accessor [__proto__] of [Object.prototype] *)

(** [Object.prototype]: the accessor [__proto__], and methods. *)
Definition object_prototype (k : string) : slot :=
  if String.eqb k "__proto__" then Setter else Plain.

(** The attributes of the File API, accessors without a setter: [size]
    and [type] on [Blob.prototype], [name] and [lastModified] on
    [File.prototype]. *)
Definition file_attributes : list string :=
  [ "size"; "type"; "name"; "lastModified" ].

(** The lookup of [k] from the prototype [proto] upwards.  The own
    properties of a plain object and of an array are writable data
    properties; a [File] and a [FormData] have no own property; the
    prototypes of arrays and of [FormData] hold methods only.  A chain
    that ends in [null] never reaches [Object.prototype]. *)
Fixpoint inherited (k : string) (proto : value) : slot :=
  match proto with
  | Obj props =>
      match props !! k with
      | Some _ => Plain
      | None => object_prototype k
      end
  | ObjWith above props =>
      match props !! k with
      | Some _ => Plain
      | None => inherited k above
      end
  | FileObj _ =>
      if array_includes file_attributes k then ReadOnly
      else object_prototype k
  | Arr _ | FormData _ => object_prototype k
  | Null | Undefined | Bool _ | Num _ | Str _ => Plain
  end.

(** An object under construction: its prototype, [None] for
    [Object.prototype], and its own properties. *)
Record object := mkObject {
  proto : option value;
  own : gmap string value
}.

(** The literal [{}]. *)
Definition literal : object := mkObject None ∅.

(** The object as a value. *)
Definition to_value (o : object) : value :=
  match proto o with
  | None => Obj (own o)
  | Some p => ObjWith p (own o)
  end.

(** What the setter of [__proto__] accepts as a prototype: an object or
    [null]; it ignores anything else. *)
Definition is_prototype (v : value) : bool :=
  match v with
  | Undefined | Bool _ | Num _ | Str _ => false
  | Null | Arr _ | Obj _ | FileObj _ | FormData _ | ObjWith _ _ => true
  end.

(** [o[k] = v] in strict code, on an object created by the literal [{}]
    and filled by such assignments only.  An own property is overwritten.
    Otherwise the name is looked up on the prototype chain: the assignment
    creates an own property, or throws a [TypeError] ([None]) on an
    accessor without a setter, or, on [__proto__] of [Object.prototype],
    replaces the prototype of [o] and creates no property. *)
Definition set_prop (k : string) (v : value) (o : object) : option object :=
  match own o !! k with
  | Some _ => Some (mkObject (proto o) (<[k := v]> (own o)))
  | None =>
      match
        match proto o with
        | None => object_prototype k
        | Some p => inherited k p
        end
      with
      | Plain => Some (mkObject (proto o) (<[k := v]> (own o)))
      | ReadOnly => None
      | Setter =>
          if is_prototype v then Some (mkObject (Some v) (own o)) else Some o
      end
  end.

(** [Object.entries(a)] of an array: the indices in order, as strings. *)
Definition array_entries (items : list value) : list (string * value) :=
  imap (fun i v => (show_nat i, v)) items.

End JS.

(** ** Patterns anchored at both ends *)

Module Regex.

(** The patterns of the source that are tested against a whole string
    ([^] at one end, [$] at the other, no flag): classes of code units,
    sequence, alternation and repetition. *)
Inductive re :=
| Void
| Eps
| Class (p : ascii -> bool)
| Seq (r1 r2 : re)
| Or (r1 r2 : re)
| Star (r : re).

(** [r+] *)
Definition Plus (r : re) : re := Seq r (Star r).

(** [r] matches the empty string. *)
Fixpoint nullable (r : re) : bool :=
  match r with
  | Void | Class _ => false
  | Eps | Star _ => true
  | Seq r1 r2 => nullable r1 && nullable r2
  | Or r1 r2 => nullable r1 || nullable r2
  end.

(** What is left of [r] to match once the code unit [c] has been read. *)
Fixpoint deriv (c : ascii) (r : re) : re :=
  match r with
  | Void | Eps => Void
  | Class p => if p c then Eps else Void
  | Seq r1 r2 =>
      if nullable r1 then Or (Seq (deriv c r1) r2) (deriv c r2)
      else Seq (deriv c r1) r2
  | Or r1 r2 => Or (deriv c r1) (deriv c r2)
  | Star r0 => Seq (deriv c r0) (Star r0)
  end.

(** [/^r$/.test(s)] *)
Fixpoint test (r : re) (s : string) : bool :=
  match s with
  | EmptyString => nullable r
  | String c s' => test (deriv c r) s'
  end.

End Regex.

(** ** [index.ts]: configuration and the input sanitizer *)

Module Sanitizer.

Record SecurityConfig := mkSecurityConfig {
  enableCSRF : bool;
  enableXSSProtection : bool;
  enableSQLInjectionProtection : bool;
  maxFileSize : Z;
  allowedFileTypes : list string
}.

Definition defaultSecurityConfig : SecurityConfig := {|
  enableCSRF := true;
  enableXSSProtection := true;
  enableSQLInjectionProtection := true;
  maxFileSize := 10 * 1024 * 1024;
  allowedFileTypes :=
    [ "image/jpeg"; "image/png"; "image/gif"; "image/webp";
      "application/pdf"; "text/plain"; "application/msword";
      "application/vnd.openxmlformats-officedocument.wordprocessingml.document" ]
|}.

(** [sanitizeText]; [purify] stands for the call
    [DOMPurify.sanitize(input, { ALLOWED_TAGS: [], ALLOWED_ATTR: [] })]
    of the third-party library. *)
Definition sanitizeText (purify : string -> string) (config : SecurityConfig)
    (input : string) : string :=
  if negb (enableXSSProtection config) then input else purify input.

(** *** [sanitizeEmail] *)

(** The class [\s], which is also what [trim] removes: below 256, the
    code units 9 to 13, the space and the no-break space. *)
Definition is_space (c : ascii) : bool :=
  JS.in_range 9 13 c || (JS.code c =? 32)%N || (JS.code c =? 160)%N.

Definition is_at (c : ascii) : bool := (JS.code c =? 64)%N.

Fixpoint trimStart (s : string) : string :=
  match s with
  | EmptyString => EmptyString
  | String c r => if is_space c then trimStart r else s
  end.

Fixpoint trimEnd (s : string) : string :=
  match s with
  | EmptyString => EmptyString
  | String c r =>
      match trimEnd r with
      | EmptyString => if is_space c then EmptyString else String c EmptyString
      | r' => String c r'
      end
  end.

(** [s.trim()] *)
Definition trim (s : string) : string := trimEnd (trimStart s).

(** The class [[^\s@]]. *)
Definition email_char (c : ascii) : bool := negb (is_space c || is_at c).

(** [emailRegex]: one or more [email_char], an at sign, one or more
    [email_char], a dot, one or more [email_char]. *)
Definition emailRegex : Regex.re :=
  Regex.Seq (Regex.Plus (Regex.Class email_char))
    (Regex.Seq (Regex.Class is_at)
       (Regex.Seq (Regex.Plus (Regex.Class email_char))
          (Regex.Seq (Regex.Class (fun c => (JS.code c =? 46)%N))
             (Regex.Plus (Regex.Class email_char))))).

(** [sanitizeEmail]; [None] is the error [Invalid email format]. *)
Definition sanitizeEmail (purify : string -> string) (config : SecurityConfig)
    (input : string) : option string :=
  let sanitized := sanitizeText purify config (trim (JS.toLowerCase input)) in
  if negb (Regex.test emailRegex sanitized) then None else Some sanitized.

(** *** [sanitizeFilename] *)

Definition is_dot (c : ascii) : bool := (JS.code c =? 46)%N.

(** The class [[a-zA-Z0-9\-_\.]]. *)
Definition filename_char (c : ascii) : bool :=
  JS.is_lower c || JS.is_upper c || JS.is_digit c
  || (JS.code c =? 45)%N || (JS.code c =? 95)%N || is_dot c.

(** [.replace(/[^a-zA-Z0-9\-_\.]/g, '_')] *)
Fixpoint replace_unsafe (s : string) : string :=
  match s with
  | EmptyString => EmptyString
  | String c r =>
      String (if filename_char c then c else "_"%char) (replace_unsafe r)
  end.

(** [.replace(/\.+/g, '.')]: [in_run] tells that the previous code unit
    was a dot, already replaced. *)
Fixpoint collapse_dots (in_run : bool) (s : string) : string :=
  match s with
  | EmptyString => EmptyString
  | String c r =>
      if is_dot c
      then if in_run then collapse_dots true r
           else String "."%char (collapse_dots true r)
      else String c (collapse_dots false r)
  end.

Fixpoint strip_leading_dots (s : string) : string :=
  match s with
  | EmptyString => EmptyString
  | String c r => if is_dot c then strip_leading_dots r else s
  end.

Fixpoint strip_trailing_dots (s : string) : string :=
  match s with
  | EmptyString => EmptyString
  | String c r =>
      match strip_trailing_dots r with
      | EmptyString => if is_dot c then EmptyString else String c EmptyString
      | r' => String c r'
      end
  end.

(** [.replace(/^\.+|\.+$/g, '')] *)
Definition trim_dots (s : string) : string :=
  strip_trailing_dots (strip_leading_dots s).

Definition sanitizeFilename (filename : string) : string :=
  JS.take 255 (trim_dots (collapse_dots false (replace_unsafe filename))).

(** *** [sanitizeSQLParameter] *)

Definition sql_keywords : list string :=
  [ "SELECT"; "INSERT"; "UPDATE"; "DELETE"; "DROP";
    "CREATE"; "ALTER"; "EXEC"; "UNION"; "SCRIPT" ].

(** [s] starts with [p], letter case ignored (the [i] flag). *)
Fixpoint startsWith_ci (s p : string) {struct p} : bool :=
  match p, s with
  | EmptyString, _ => true
  | String _ _, EmptyString => false
  | String a p', String b s' => JS.eqb_ci a b && startsWith_ci s' p'
  end.

(** The assertion [\b] after a keyword: the end of the input or a code
    unit outside [\w]. *)
Definition boundary_after (rest : string) : bool :=
  match rest with
  | EmptyString => true
  | String c _ => negb (JS.is_word c)
  end.

(** A match of [\b(SELECT|...|SCRIPT)\b] at the head of [s], where
    [prev_word] tells whether the code unit before [s] is in [\w]; the
    result is the length of the keyword matched.  The alternatives are
    tried in the order of the pattern. *)
Definition keyword_at (prev_word : bool) (s : string) : option nat :=
  if prev_word then None
  else
    String.length <$>
      List.find
        (fun k => startsWith_ci s k && boundary_after (JS.drop (String.length k) s))
        sql_keywords.

(** [.replace(/(\b(SELECT|...)\b)/gi, '')]: the input is scanned from the
    left; at a match the keyword is dropped and the scan goes on after
    it, otherwise the code unit is kept.  [skip] counts the code units of
    a match still to drop. *)
Fixpoint strip_keywords_from (prev_word : bool) (skip : nat) (s : string)
  : string :=
  match s with
  | EmptyString => EmptyString
  | String c r =>
      match skip with
      | S k => strip_keywords_from (JS.is_word c) k r
      | O =>
          match keyword_at prev_word s with
          | Some n => strip_keywords_from (JS.is_word c) (Nat.pred n) r
          | None => String c (strip_keywords_from (JS.is_word c) O r)
          end
      end
  end.

Definition strip_keywords (s : string) : string :=
  strip_keywords_from false O s.

(** The second pattern of [dangerous], an alternation of single code
    units: quote, double quote, semicolon, percent, underscore, star,
    question mark, angle brackets and bar.  Its alternative of two quotes
    never applies: the single quote before it matches first. *)
Definition sql_metachar (c : ascii) : bool :=
  existsb (N.eqb (JS.code c)) [39; 34; 59; 37; 95; 42; 63; 60; 62; 124]%N.

Fixpoint strip_metachars (s : string) : string :=
  match s with
  | EmptyString => EmptyString
  | String c r =>
      if sql_metachar c then strip_metachars r
      else String c (strip_metachars r)
  end.

(** The third pattern of [dangerous]: two dashes, star slash, or slash
    star. *)
Definition comment_marker (a b : ascii) : bool :=
  let x := JS.code a in
  let y := JS.code b in
  ((x =? 45) && (y =? 45) || (x =? 42) && (y =? 47)
   || (x =? 47) && (y =? 42))%N.

Fixpoint strip_comment_markers (s : string) : string :=
  match s with
  | EmptyString => EmptyString
  | String a r =>
      match r with
      | EmptyString => s
      | String b r' =>
          if comment_marker a b then strip_comment_markers r'
          else String a (strip_comment_markers r)
      end
  end.

(** The array [dangerous], each pattern with its [replace(pattern, '')]. *)
Definition dangerous : list (string -> string) :=
  [ strip_keywords; strip_metachars; strip_comment_markers ].

Definition sanitizeSQLString (input : string) : string :=
  fold_left (fun sanitized replace => replace sanitized) dangerous input.

Definition sanitizeSQLParameter (config : SecurityConfig) (input : JS.value)
  : JS.value :=
  if negb (enableSQLInjectionProtection config) then input
  else match input with
       | JS.Str s => JS.Str (sanitizeSQLString s)
       | _ => input
       end.

End Sanitizer.

(** ** [index.ts]: random identifiers *)

Module Random.

(** One digit of [byte.toString(16)]. *)
Definition hex_digit (n : N) : ascii :=
  (if n <? 10 then ascii_of_N (48 + n) else ascii_of_N (87 + n))%N.

(** [byte.toString(16).padStart(2, '0')] *)
Definition hex_byte (b : byte) : string :=
  let n := Byte.to_N b in
  String (hex_digit (n / 16)) (String (hex_digit (n mod 16)) EmptyString).

(** [generateSecureToken] and [generateSecureSessionId]:
    [Array.from(array, ...).join('')] over the bytes that
    [crypto.getRandomValues] wrote into the 32-byte array. *)
Definition hex_string (random : list byte) : string :=
  String.concat EmptyString (hex_byte <$> random).

End Random.

(** ** [index.ts]: [CSRFProtection] *)

Module CSRF.

Record tokenData := mkTokenData {
  token : string;
  expires : Z;
  used : bool
}.

(** The private field [tokens]. *)
Abbreviation tokens := (gmap string tokenData).

Definition tokenExpiry : Z := 60 * 60 * 1000.

Definition generateSecureToken (random : list byte) : string :=
  Random.hex_string random.

Definition generateToken (random : list byte) (now : Z) (sessionId : string)
    (t : tokens) : string * tokens :=
  let token := generateSecureToken random in
  let expires := now + tokenExpiry in
  (token, <[sessionId := mkTokenData token expires false]> t).

Definition validateToken (now : Z) (sessionId providedToken : string)
    (t : tokens) : bool * tokens :=
  match t !! sessionId with
  | None => (false, t)
  | Some tokenData =>
      if used tokenData then (false, t)
      else if now >? expires tokenData then (false, delete sessionId t)
      else if negb (String.eqb (token tokenData) providedToken) then (false, t)
      else
        (true,
         <[sessionId := mkTokenData (token tokenData) (expires tokenData) true]> t)
  end.

(** The test of the sweep: [now > tokenData.expires || tokenData.used]. *)
Definition stale (now : Z) (tokenData : tokenData) : bool :=
  (now >? expires tokenData) || used tokenData.

(** [cleanup]: deleting the entry under the cursor does not disturb the
    iteration of a [Map], so every entry is tested once. *)
Definition cleanup (now : Z) (t : tokens) : tokens :=
  filter (fun entry => stale now entry.2 = false) t.

(** A call on the token manager, with what it reads from its
    environment. *)
Inductive call :=
| Generate (random : list byte) (now : Z) (sessionId : string)
| Validate (now : Z) (sessionId providedToken : string)
| Cleanup (now : Z).

Definition step (t : tokens) (c : call) : tokens :=
  match c with
  | Generate random now sessionId => (generateToken random now sessionId t).2
  | Validate now sessionId providedToken =>
      (validateToken now sessionId providedToken t).2
  | Cleanup now => cleanup now t
  end.

(** The store after a sequence of calls on a new [CSRFProtection]. *)
Definition run (calls : list call) : tokens := fold_left step calls ∅.

(** The tokens handed out during a sequence of calls. *)
Fixpoint issued (calls : list call) : list string :=
  match calls with
  | [] => []
  | Generate random _ _ :: rest => generateSecureToken random :: issued rest
  | _ :: rest => issued rest
  end.

End CSRF.

(** ** [index.ts]: [SecurityHeaders] *)

Module Headers.

Abbreviation headers := (gmap string string).

(** An object literal made of spreads: a later object overrides an
    earlier one on a shared key. *)
Definition spread (objects : list headers) : headers :=
  fold_left (fun acc o => o ∪ acc) objects ∅.

Definition getXSSHeaders : headers :=
  <["X-Content-Type-Options" := "nosniff"]>
    (<["X-XSS-Protection" := "1; mode=block"]> ∅).

Definition getFrameHeaders : headers :=
  <["X-Frame-Options" := "DENY"]> ∅.

Definition getContentTypeHeaders : headers :=
  <["X-Content-Type-Options" := "nosniff"]> ∅.

Definition getHSTSHeaders : headers :=
  <["Strict-Transport-Security" :=
      "max-age=31536000; includeSubDomains; preload"]> ∅.

Definition getReferrerHeaders : headers :=
  <["Referrer-Policy" := "strict-origin-when-cross-origin"]> ∅.

Definition getPermissionHeaders : headers :=
  <["Permissions-Policy" :=
      "camera=(), microphone=(), geolocation=(), payment=()"]> ∅.

(** [getHeaders]: neither it nor its helpers read the configuration. *)
Definition getHeaders : headers :=
  spread [ getXSSHeaders; getFrameHeaders; getContentTypeHeaders;
           getHSTSHeaders; getReferrerHeaders; getPermissionHeaders ].

End Headers.

(** ** [index.ts]: [FileUploadSecurity] *)

Module FileUpload.

Import Sanitizer.

(** The argument of [validateFile]; [content] is the optional
    [ArrayBuffer], read through a [Uint8Array]. *)
Record upload := mkUpload {
  name : string;
  type : string;
  size : Z;
  content : option (list byte)
}.

Record result := mkResult {
  valid : bool;
  errors : list string;
  sanitizedName : option string
}.

Definition dangerousExtensions : list string :=
  [ ".exe"; ".bat"; ".cmd"; ".scr"; ".com"; ".pif"; ".vbs"; ".js"; ".jar" ].

Definition signatures : list (list N) :=
  [ [0x4D; 0x5A];
    [0x7F; 0x45; 0x4C; 0x46];
    [0xCA; 0xFE; 0xBA; 0xBE];
    [0xFE; 0xED; 0xFA; 0xCE] ]%N.

(** The loop of [matchesSignature] from index [i] on; the guard on the
    lengths keeps [bytes[i]] defined. *)
Fixpoint matches_from (bytes : list byte) (signature : list N) (i : nat)
    (remaining : nat) : bool :=
  match remaining with
  | O => true
  | S k =>
      match bytes !! i, signature !! i with
      | Some b, Some s =>
          if negb (Byte.to_N b =? s)%N then false
          else matches_from bytes signature (S i) k
      | _, _ => false
      end
  end.

Definition matchesSignature (bytes : list byte) (signature : list N) : bool :=
  if (length bytes <? length signature)%nat then false
  else matches_from bytes signature 0 (length signature).

(** [scanFileContent]: one error at the first signature that matches. *)
Definition scanFileContent (content : list byte) : list string :=
  if existsb (matchesSignature content) signatures
  then [ "File contains executable code" ]
  else [].

(** [xs.forEach(x => xs.push(x))]: [forEach] visits the indices below the
    length the array had when the loop started, so the array ends up
    holding each of its elements twice. *)
Definition forEach_push_self (xs : list string) : list string :=
  fold_left (fun acc x => acc ++ [x]) xs xs.

Section validate.

(** The text of the Number [a / b] in a template literal when the
    quotient is not an integer that a double holds exactly: formatting a
    fraction, or a number so large that it is rounded or printed with an
    exponent, is floating-point work, left to this parameter. *)
Variable fraction_text : Z -> Z -> string.

(** An integer of absolute value up to [2^53] is printed as its decimal
    numeral. *)
Definition quotient_text (a b : Z) : string :=
  if ((a mod b =? 0) && (Z.abs (a / b) <=? 2 ^ 53))%Z
  then JS.show_Z (a / b)
  else fraction_text a b.

(** [validateFile].  Inside the branch on [file.content] the declaration
    [const errors = this.scanFileContent(...)] opens a new binding of the
    name [errors]: the [forEach] that follows pushes the scan's messages
    onto the scan's own array, [scan_errors] here, and the function-level
    array is the one returned. *)
Definition validateFile (config : SecurityConfig) (file : upload) : result :=
  let errors := [] in
  let errors :=
    if size file >? maxFileSize config
    then errors ++
         [ "File size exceeds maximum limit of "
           +:+ quotient_text (maxFileSize config) (1024 * 1024) +:+ "MB" ]
    else errors in
  let errors :=
    if negb (JS.array_includes (allowedFileTypes config) (type file))
    then errors ++ [ "File type " +:+ type file +:+ " is not allowed" ]
    else errors in
  let sanitizedName := sanitizeFilename (name file) in
  let hasExtension :=
    existsb (fun ext => JS.endsWith (JS.toLowerCase sanitizedName) ext)
            dangerousExtensions in
  let errors :=
    if hasExtension then errors ++ [ "File extension is not allowed" ]
    else errors in
  let errors :=
    match content file with
    | Some buffer =>
        let scan_errors := scanFileContent buffer in
        let scan_errors := forEach_push_self scan_errors in
        errors
    | None => errors
    end in
  {| valid := (length errors =? 0)%nat;
     errors := errors;
     sanitizedName :=
       if (length errors =? 0)%nat then Some sanitizedName else None |}.

End validate.

End FileUpload.

(** ** [index.ts]: [SessionSecurity] *)

Module Session.

Record session := mkSession {
  userId : string;
  created : Z;
  lastActivity : Z;
  ipAddress : string;
  userAgent : string
}.

Abbreviation sessions := (gmap string session).

Definition maxSessionAge : Z := 24 * 60 * 60 * 1000.
Definition maxIdleTime : Z := 2 * 60 * 60 * 1000.

(** The object returned by [validateSession]; an absent field is
    [None]. *)
Record validation := mkValidation {
  valid : bool;
  validUserId : option string;
  reason : option string
}.

Definition generateSecureSessionId (random : list byte) : string :=
  Random.hex_string random.

Definition createSession (random : list byte) (now : Z)
    (userId ipAddress userAgent : string) (s : sessions)
  : string * sessions :=
  let sessionId := generateSecureSessionId random in
  (sessionId, <[sessionId := mkSession userId now now ipAddress userAgent]> s).

Definition validateSession (now : Z) (sessionId ip agent : string)
    (s : sessions) : validation * sessions :=
  match s !! sessionId with
  | None => (mkValidation false None (Some "Session not found"), s)
  | Some session =>
      if now - created session >? maxSessionAge
      then (mkValidation false None (Some "Session expired"),
            delete sessionId s)
      else if now - lastActivity session >? maxIdleTime
      then (mkValidation false None (Some "Session idle timeout"),
            delete sessionId s)
      else if negb (String.eqb (ipAddress session) ip)
      then (mkValidation false None (Some "IP address mismatch"),
            delete sessionId s)
      else
        (mkValidation true (Some (userId session)) None,
         <[sessionId := mkSession (userId session) (created session) now
                                  (ipAddress session) (userAgent session)]> s)
  end.

Definition destroySession (sessionId : string) (s : sessions) : sessions :=
  delete sessionId s.

Definition cleanup (now : Z) (s : sessions) : sessions :=
  filter
    (fun entry =>
       (now - created entry.2 >? maxSessionAge)
       || (now - lastActivity entry.2 >? maxIdleTime) = false)
    s.

End Session.

(** ** [middleware.ts]: [SecurityMiddleware] *)

Module Middleware.

Record SecurityMiddlewareConfig := mkConfig {
  enableCSRF : bool;
  enableSecurityHeaders : bool;
  enableInputSanitization : bool;
  rateLimitBypass : list string
}.

(** The argument of the constructor, a [Partial<SecurityMiddlewareConfig>]:
    a field left out is [None]. *)
Record PartialConfig := mkPartial {
  givenCSRF : option bool;
  givenSecurityHeaders : option bool;
  givenInputSanitization : option bool;
  givenRateLimitBypass : option (list string)
}.

(** The constructor: the defaults, overridden by the fields given. *)
Definition construct (config : PartialConfig) : SecurityMiddlewareConfig := {|
  enableCSRF := default true (givenCSRF config);
  enableSecurityHeaders := default true (givenSecurityHeaders config);
  enableInputSanitization := default true (givenInputSanitization config);
  rateLimitBypass := default [] (givenRateLimitBypass config)
|}.

(** The exported singleton [securityMiddleware]. *)
Definition securityMiddleware : SecurityMiddlewareConfig :=
  construct (mkPartial None None None None).

Definition applySecurityHeaders (config : SecurityMiddlewareConfig)
  : Headers.headers :=
  if negb (enableSecurityHeaders config) then ∅ else Headers.getHeaders.

Definition generateCSRFToken (config : SecurityMiddlewareConfig)
    (random : list byte) (now : Z) (sessionId : string) (t : CSRF.tokens)
  : string * CSRF.tokens :=
  if negb (enableCSRF config) then (EmptyString, t)
  else CSRF.generateToken random now sessionId t.

Definition validateCSRFToken (config : SecurityMiddlewareConfig)
    (now : Z) (sessionId token : string) (t : CSRF.tokens)
  : bool * CSRF.tokens :=
  if negb (enableCSRF config) then (true, t)
  else CSRF.validateToken now sessionId token t.

Section sanitize.

(** The markup stripper behind [defaultSanitizer.sanitizeText]. *)
Variable purify : string -> string.

(** [defaultSanitizer.sanitizeText]: the sanitizer built on
    [defaultSecurityConfig]. *)
Definition sanitizeText : string -> string :=
  Sanitizer.sanitizeText purify Sanitizer.defaultSecurityConfig.

(** The body of the loop over a [FormData]. *)
Definition sanitize_field (value : JS.value) : JS.value :=
  match value with
  | JS.Str s => JS.Str (sanitizeText s)
  | _ => value
  end.

(** [Object.entries(s)] of a string: its code units under their
    indices. *)
Fixpoint string_entries (i : nat) (s : string) : list (string * JS.value) :=
  match s with
  | EmptyString => []
  | String c r =>
      (JS.show_nat i, JS.Str (String c EmptyString)) :: string_entries (S i) r
  end.

(** One turn of a loop of [sanitizeFormData]: the right-hand side is
    evaluated, then assigned; either can throw. *)
Definition assign (acc : option JS.object) (key : string)
    (value : option JS.value) : option JS.object :=
  match acc, value with
  | Some o, Some v => JS.set_prop key v o
  | _, _ => None
  end.

(** The object [sanitized] at the end of [sanitizeFormData], input
    sanitization enabled; [None] when an exception is thrown on the way.
    [visit] is the right-hand side in the loop over
    [Object.entries(formData)]: a string is sanitized, an object other
    than [null] is sanitized recursively, anything else is kept.  The
    entries of an array are its elements under their indices; a number, a
    boolean or a [File] has no entries.  An object that has a [FormData]
    on its prototype chain without being one passes the [instanceof]
    test, and the call of [entries] on it throws a [TypeError].  The
    entries of a plain object are taken in the order of the map, the order
    of creation of the properties being no part of a value; the outcome
    depends on that order only if the value under an own name [__proto__]
    brings a [File] onto the prototype chain. *)
Fixpoint sanitized (formData : JS.value) : option JS.object :=
  let visit (value : JS.value) : option JS.value :=
    match value with
    | JS.Str s => Some (JS.Str (sanitizeText s))
    | JS.Arr _ | JS.Obj _ | JS.ObjWith _ _ | JS.FileObj _ | JS.FormData _ =>
        match sanitized value with
        | Some o => Some (JS.to_value o)
        | None => None
        end
    | JS.Undefined | JS.Null | JS.Bool _ | JS.Num _ => Some value
    end in
  match formData with
  | JS.FormData entries =>
      fold_left (fun acc entry =>
                   assign acc entry.1 (Some (sanitize_field entry.2)))
                entries (Some JS.literal)
  | JS.Obj props =>
      map_fold (fun key value acc => assign acc key (visit value))
               (Some JS.literal) props
  | JS.ObjWith proto props =>
      if JS.instanceof_FormData proto then None
      else map_fold (fun key value acc => assign acc key (visit value))
                    (Some JS.literal) props
  | JS.Arr items =>
      (fix loop (i : nat) (rest : list JS.value) (acc : option JS.object) :=
         match rest with
         | [] => acc
         | value :: rest' =>
             loop (S i) rest' (assign acc (JS.show_nat i) (visit value))
         end) O items (Some JS.literal)
  | JS.Str s =>
      fold_left (fun acc entry =>
                   assign acc entry.1 (Some (sanitize_field entry.2)))
                (string_entries 0 s) (Some JS.literal)
  | JS.Undefined | JS.Null | JS.Bool _ | JS.Num _ | JS.FileObj _ =>
      Some JS.literal
  end.

(** The two loops of [sanitized] under names of their own, for the
    statements of Part II: the right-hand side in the loop over the
    entries of a plain object or an array, and the loop over an array from
    index [i] on. *)
Definition visit (value : JS.value) : option JS.value :=
  match value with
  | JS.Str s => Some (JS.Str (sanitizeText s))
  | JS.Arr _ | JS.Obj _ | JS.ObjWith _ _ | JS.FileObj _ | JS.FormData _ =>
      match sanitized value with
      | Some o => Some (JS.to_value o)
      | None => None
      end
  | JS.Undefined | JS.Null | JS.Bool _ | JS.Num _ => Some value
  end.

Fixpoint array_loop (i : nat) (rest : list JS.value)
    (acc : option JS.object) : option JS.object :=
  match rest with
  | [] => acc
  | value :: rest' =>
      array_loop (S i) rest' (assign acc (JS.show_nat i) (visit value))
  end.

(** [sanitizeFormData]; [None] is a [TypeError]: the one that
    [Object.entries] throws on [null] and [undefined], or one thrown
    while the object is built. *)
Definition sanitizeFormData (config : SecurityMiddlewareConfig)
    (formData : JS.value) : option JS.value :=
  if negb (enableInputSanitization config) then Some formData
  else match formData with
       | JS.Undefined | JS.Null => None
       | _ =>
           match sanitized formData with
           | Some o => Some (JS.to_value o)
           | None => None
           end
       end.

End sanitize.

(** *** [getSessionId] *)

(** [window] tells whether the code runs in a browser; [uuid] is what
    [crypto.randomUUID()] returns if it is called; the storage is
    [localStorage].  A stored identifier counts when it is a non-empty
    string. *)
Definition getSessionId (window : bool) (uuid : string)
    (localStorage : gmap string string) : string * gmap string string :=
  if negb window then (EmptyString, localStorage)
  else
    match localStorage !! "session-id" with
    | Some (String c r) => (String c r, localStorage)
    | _ => (uuid, <["session-id" := uuid]> localStorage)
    end.

(** *** [validateFileUpload] *)

Record result := mkResult {
  valid : bool;
  errors : list string
}.

Definition allowedTypes : list string :=
  [ "image/jpeg"; "image/png"; "image/gif"; "image/webp";
    "application/pdf"; "text/plain"; "application/msword";
    "application/vnd.openxmlformats-officedocument.wordprocessingml.document" ].

Definition maxSize : Z := 10 * 1024 * 1024.

Definition dangerousExtensions : list string :=
  [ ".exe"; ".bat"; ".cmd"; ".scr"; ".com"; ".pif"; ".vbs"; ".js"; ".jar" ].

(** [maxSize / (1024 * 1024)] is the integer 10, so its text in the
    template literal is its decimal numeral. *)
Definition validateFileUpload (file : JS.File) : result :=
  let errors := [] in
  let errors :=
    if negb (JS.array_includes allowedTypes (JS.file_type file))
    then errors ++ [ "File type " +:+ JS.file_type file +:+ " is not allowed" ]
    else errors in
  let errors :=
    if JS.file_size file >? maxSize
    then errors ++
         [ "File size exceeds maximum limit of "
           +:+ JS.show_Z (maxSize / (1024 * 1024)) +:+ "MB" ]
    else errors in
  let hasExtension :=
    existsb (fun ext => JS.endsWith (JS.toLowerCase (JS.file_name file)) ext)
            dangerousExtensions in
  let errors :=
    if hasExtension
    then errors ++ [ "File extension is not allowed for security reasons" ]
    else errors in
  {| valid := (length errors =? 0)%nat; errors := errors |}.

End Middleware.

(** ** [index.ts]: [createSecurityMiddleware] *)

Module Pipeline.

(** What [processRequest] reads of the [Request]: the method, the
    outcome of [await request.json()] ([None] when the promise is
    rejected) and [request.headers.get('X-Session-ID')]. *)
Record request := mkRequest {
  method : string;
  json : option JS.value;
  sessionHeader : option string
}.

(** The object [processRequest] resolves to; an [undefined] field is
    [None]. *)
Record outcome := mkOutcome {
  sanitizedBody : option JS.value;
  securityHeaders : Headers.headers;
  csrfToken : option string;
  errors : list string
}.

(** [processRequest], on the token store of the [CSRFProtection] that
    [createSecurityMiddleware] made.  The session id counts when it is a
    non-empty string. *)
Definition processRequest (config : Sanitizer.SecurityConfig)
    (random : list byte) (now : Z) (request : request) (t : CSRF.tokens)
  : outcome * CSRF.tokens :=
  let headers := Headers.getHeaders in
  if negb (String.eqb (method request) "GET")
     && negb (String.eqb (method request) "HEAD")
  then
    match json request with
    | Some body =>
        let sanitizedBody := Sanitizer.sanitizeSQLParameter config body in
        match sessionHeader request with
        | Some (String c r) =>
            if Sanitizer.enableCSRF config
            then
              let issued := CSRF.generateToken random now (String c r) t in
              (mkOutcome (Some sanitizedBody) headers (Some issued.1) [],
               issued.2)
            else (mkOutcome (Some sanitizedBody) headers None [], t)
        | _ => (mkOutcome (Some sanitizedBody) headers None [], t)
        end
    | None => (mkOutcome None headers None [ "Invalid request body" ], t)
    end
  else (mkOutcome None headers None [], t).

End Pipeline.

(** ** Vocabulary of the statements *)

Section vocabulary.

Import Sanitizer.

(** The two messages of [validateFileUpload] that C5 is about. *)
Definition extension_error : string :=
  "File extension is not allowed for security reasons".

Definition size_error : string := "File size exceeds maximum limit of 10MB".

(** A two-byte file that starts with the PE magic number [4D 5A],
    declared as a PDF. *)
Definition pe_as_pdf : FileUpload.upload :=
  FileUpload.mkUpload "report.pdf" "application/pdf" 2 (Some [x4d; x5a]).

(** A failed validation of a session, with its reason. *)
Definition refusal (why : string) : Session.validation :=
  Session.mkValidation false None (Some why).

(** The session record after a successful validation at [now]. *)
Definition touched (now : Z) (sn : Session.session) : Session.session :=
  Session.mkSession (Session.userId sn) (Session.created sn) now
                    (Session.ipAddress sn) (Session.userAgent sn).

(** The invariant that C7 states: no record of the store has been
    used. *)
Definition no_used_record (t : CSRF.tokens) : Prop :=
  forall key td, t !! key = Some td -> CSRF.used td = false.

(** A comment form with a list of tags, and the configuration with
    every feature switched off. *)
Definition comment_form : gmap string JS.value :=
  <["comment" := JS.Str "nice event"]>
    (<["stars" := JS.Num 5]>
       (<["tags" := JS.Arr [JS.Str "music"; JS.Null]]> ∅)).

Definition all_off : Middleware.SecurityMiddlewareConfig :=
  Middleware.construct
    (Middleware.mkPartial (Some false) (Some false) (Some false) None).

(** A keyword of the first pattern stands as a whole word somewhere in
    [s]; [prev_word] tells whether the code unit before [s] is in the
    class of word characters. *)
Fixpoint keyword_word_in (prev_word : bool) (s : string) : bool :=
  match s with
  | EmptyString => false
  | String c r =>
      match keyword_at prev_word s with
      | Some _ => true
      | None => keyword_word_in (JS.is_word c) r
      end
  end.

(** No code unit of [s] satisfies [p]. *)
Fixpoint free_of (p : ascii -> bool) (s : string) : bool :=
  match s with
  | EmptyString => true
  | String c r => negb (p c) && free_of p r
  end.

Definition is_dash (c : ascii) : bool := Ascii.eqb "-" c.
Definition is_star (c : ascii) : bool := Ascii.eqb "*" c.

Definition starts_with_dash (s : string) : bool :=
  match s with
  | EmptyString => false
  | String c _ => is_dash c
  end.

(** The 256 code units of the model. *)
Definition all_ascii : list ascii := ascii_of_nat <$> seq 0 256.

End vocabulary.

(** ** Vocabulary of Part III *)

Section shapes.

(** Every code unit of [s] satisfies [p]. *)
Definition only (p : ascii -> bool) (s : string) : bool :=
  free_of (fun c => negb (p c)) s.

(** The first, and the last, code unit of [s] satisfies [p]. *)
Definition head_is (p : ascii -> bool) (s : string) : bool :=
  match s with
  | EmptyString => false
  | String c _ => p c
  end.

Fixpoint last_is (p : ascii -> bool) (s : string) : bool :=
  match s with
  | EmptyString => false
  | String c EmptyString => p c
  | String _ r => last_is p r
  end.

(** Two code units side by side in [s] satisfy [p]. *)
Fixpoint has_pair (p : ascii -> bool) (s : string) : bool :=
  match s with
  | EmptyString => false
  | String a r => (p a && head_is p r) || has_pair p r
  end.

End shapes.

Section histories.

(** A lower-case hexadecimal digit. *)
Definition is_hex_lower (c : ascii) : bool :=
  JS.is_digit c || JS.in_range 97 102 c.

(** The 256 bytes. *)
Definition all_bytes : list byte :=
  (fun n => default x00 (Byte.of_N (N.of_nat n))) <$> seq 0 256.

(** The call hands out a new token for [sessionId]. *)
Definition reissues (sessionId : string) (c : CSRF.call) : bool :=
  match c with
  | CSRF.Generate _ _ sid => String.eqb sid sessionId
  | _ => false
  end.

(** The session has no token left to present: no record, or a used
    one. *)
Definition spent_in (sessionId : string) (t : CSRF.tokens) : Prop :=
  forall td, t !! sessionId = Some td -> CSRF.used td = true.

(** A call on the session registry, with what it reads from its
    environment. *)
Inductive session_call :=
| Create (random : list byte) (now : Z) (userId ip agent : string)
| Verify (now : Z) (sessionId ip agent : string)
| Destroy (sessionId : string)
| Sweep (now : Z).

Definition session_step (s : Session.sessions) (c : session_call)
  : Session.sessions :=
  match c with
  | Create random now userId ip agent =>
      (Session.createSession random now userId ip agent s).2
  | Verify now sessionId ip agent =>
      (Session.validateSession now sessionId ip agent s).2
  | Destroy sessionId => Session.destroySession sessionId s
  | Sweep now => Session.cleanup now s
  end.

(** The registry after a sequence of calls on a new [SessionSecurity]. *)
Definition session_run (calls : list session_call) : Session.sessions :=
  fold_left session_step calls ∅.

(** The reading of the clock by a call, if it reads it. *)
Definition call_time (c : session_call) : option Z :=
  match c with
  | Create _ now _ _ _ | Verify now _ _ _ | Sweep now => Some now
  | Destroy _ => None
  end.

(** The clock never runs backwards along [calls], starting from [t0]. *)
Fixpoint chronological (t0 : Z) (calls : list session_call) : bool :=
  match calls with
  | [] => true
  | c :: rest =>
      match call_time c with
      | Some t => (t0 <=? t) && chronological t rest
      | None => chronological t0 rest
      end
  end.

End histories.

Section form_fields.

(** The default configuration with XSS protection switched off. *)
Definition xss_off : Sanitizer.SecurityConfig :=
  Sanitizer.mkSecurityConfig true false true (10 * 1024 * 1024)
    (Sanitizer.allowedFileTypes Sanitizer.defaultSecurityConfig).

(** The value given last under [key] in the entries of a [FormData]. *)
Definition last_value (key : string) (entries : list (string * JS.value))
  : option JS.value :=
  fold_left (fun found entry =>
               if String.eqb entry.1 key then Some entry.2 else found)
            entries None.

End form_fields.

Section languages.

(** The strings a pattern matches as a whole. *)
Inductive lang : Regex.re -> string -> Prop :=
| lang_eps : lang Regex.Eps EmptyString
| lang_class p c : p c = true -> lang (Regex.Class p) (String c EmptyString)
| lang_seq r1 r2 s1 s2 :
    lang r1 s1 -> lang r2 s2 -> lang (Regex.Seq r1 r2) (s1 +:+ s2)
| lang_or_l r1 r2 s : lang r1 s -> lang (Regex.Or r1 r2) s
| lang_or_r r1 r2 s : lang r2 s -> lang (Regex.Or r1 r2) s
| lang_star_nil r : lang (Regex.Star r) EmptyString
| lang_star_cons r s1 s2 :
    lang r s1 -> lang (Regex.Star r) s2 -> lang (Regex.Star r) (s1 +:+ s2).

End languages.

Section tree_values.

(** A value made of JSON values, [undefined] and files: what
    [JSON.parse] or an object literal of data gives.  The name
    [__proto__] is allowed among the keys of an object. *)
Inductive plain_data : JS.value -> Prop :=
| pd_undefined : plain_data JS.Undefined
| pd_null : plain_data JS.Null
| pd_bool b : plain_data (JS.Bool b)
| pd_num n : plain_data (JS.Num n)
| pd_str s : plain_data (JS.Str s)
| pd_file f : plain_data (JS.FileObj f)
| pd_arr items :
    (forall x, In x items -> plain_data x) -> plain_data (JS.Arr items)
| pd_obj props :
    (forall key x, props !! key = Some x -> plain_data x) ->
    plain_data (JS.Obj props).

(** No assignment fails for what it finds from [p] upwards: the chain
    holds no accessor without a setter. *)
Definition harmless (p : JS.value) : Prop :=
  forall k, JS.inherited k p <> JS.ReadOnly.

(** The same of the prototype of an object under construction. *)
Definition sound (o : JS.object) : Prop :=
  forall p, JS.proto o = Some p -> harmless p.

(** A JSON text with a member named [__proto__], parsed. *)
Definition polluted_form : gmap string JS.value :=
  <["__proto__" := JS.Obj (<["role" := JS.Str "admin"]> ∅)]>
    (<["comment" := JS.Str "nice event"]> ∅).

End tree_values.

Section sanitised_values.

Variable purify : string -> string.

(** A value as a form or a parsed JSON text can give it: in a
    [FormData] the values are strings and files. *)
Inductive well_formed : JS.value -> Prop :=
| wf_undefined : well_formed JS.Undefined
| wf_null : well_formed JS.Null
| wf_bool b : well_formed (JS.Bool b)
| wf_num n : well_formed (JS.Num n)
| wf_str s : well_formed (JS.Str s)
| wf_file f : well_formed (JS.FileObj f)
| wf_arr items :
    (forall x, In x items -> well_formed x) -> well_formed (JS.Arr items)
| wf_obj props :
    (forall key x, props !! key = Some x -> well_formed x) ->
    well_formed (JS.Obj props)
| wf_form entries :
    (forall key x, In (key, x) entries ->
       (exists s, x = JS.Str s) \/ (exists f, x = JS.FileObj f)) ->
    well_formed (JS.FormData entries).

(** A value in which every string, at any depth, is an output of the
    text sanitizer, and which holds no array and no [FormData]; a
    prototype that has replaced [Object.prototype] is part of the
    value. *)
Inductive sanitised : JS.value -> Prop :=
| san_undefined : sanitised JS.Undefined
| san_null : sanitised JS.Null
| san_bool b : sanitised (JS.Bool b)
| san_num n : sanitised (JS.Num n)
| san_file f : sanitised (JS.FileObj f)
| san_str s : sanitised (JS.Str (Middleware.sanitizeText purify s))
| san_obj props :
    (forall key x, props !! key = Some x -> sanitised x) ->
    sanitised (JS.Obj props)
| san_with proto props :
    sanitised proto ->
    (forall key x, props !! key = Some x -> sanitised x) ->
    sanitised (JS.ObjWith proto props).

End sanitised_values.

(* ================================================================== *)
(** * Part II: properties                                              *)
(* ================================================================== *)

(** ** Strings *)

Section string_facts.

Lemma toLowerCase_length s :
  String.length (JS.toLowerCase s) = String.length s.
Proof. induction s as [|c r IH]; simpl; congruence. Qed.

Lemma toLowerCase_drop n s :
  JS.toLowerCase (JS.drop n s) = JS.drop n (JS.toLowerCase s).
Proof.
  revert s; induction n as [|n IH]; intros [|c r]; simpl; auto.
Qed.

(** A suffix of a name is still one after both are put in lower case. *)
Lemma endsWith_toLowerCase s p :
  JS.endsWith s p = true ->
  JS.endsWith (JS.toLowerCase s) (JS.toLowerCase p) = true.
Proof.
  unfold JS.endsWith. rewrite !toLowerCase_length.
  intros [Hlen Heq]%andb_prop. rewrite Hlen; simpl.
  apply String.eqb_eq in Heq. apply String.eqb_eq.
  rewrite <- toLowerCase_drop. now rewrite Heq.
Qed.

Lemma dangerous_extensions_lower ext :
  In ext Middleware.dangerousExtensions -> JS.toLowerCase ext = ext.
Proof.
  unfold Middleware.dangerousExtensions; simpl.
  intros H; repeat (destruct H as [<- | H]; [reflexivity|]); destruct H.
Qed.

End string_facts.

(** ** The header generator *)

Section header_facts.

Import Middleware.




End header_facts.

(** ** [validateFileUpload] of the middleware *)

Section upload_facts.

Import Middleware.

Lemma size_error_text :
  "File size exceeds maximum limit of "
    +:+ JS.show_Z (maxSize / (1024 * 1024)) +:+ "MB" = size_error.
Proof. reflexivity. Qed.

Lemma nonempty_invalid (errs : list string) (e : string) :
  In e errs -> (length errs =? 0)%nat = false.
Proof. destruct errs; [intros [] | reflexivity]. Qed.

(** The extension test reads the name in lower case, so [.EXE] is
    caught as [.exe] is. *)
Lemma validateFileUpload_extension (file : JS.File) (ext : string) :
  In ext dangerousExtensions ->
  JS.endsWith (JS.toLowerCase (JS.file_name file)) ext = true ->
  In extension_error (errors (validateFileUpload file)).
Proof.
  intros Hin Hends.
  assert (Hsome : existsb
            (fun ext => JS.endsWith (JS.toLowerCase (JS.file_name file)) ext)
            dangerousExtensions = true)
    by (apply existsb_exists; eauto).
  unfold validateFileUpload; cbv zeta; cbn [errors]. rewrite Hsome.
  apply in_or_app; right; left; reflexivity.
Qed.

Lemma validateFileUpload_size (file : JS.File) :
  JS.file_size file > maxSize ->
  In size_error (errors (validateFileUpload file)).
Proof.
  intros Hsize.
  assert (Hbig : (JS.file_size file >? maxSize) = true)
    by (apply Z.gtb_lt; lia).
  unfold validateFileUpload; cbv zeta; cbn [errors].
  rewrite Hbig, size_error_text.
  destruct (existsb _ dangerousExtensions);
    repeat (apply in_or_app; first [right; left; reflexivity | left]).
Qed.

Lemma validateFileUpload_valid (file : JS.File) (e : string) :
  In e (errors (validateFileUpload file)) ->
  valid (validateFileUpload file) = false.
Proof. apply nonempty_invalid. Qed.

(** C5.  Whatever its declared type, a file whose name ends with one of
    the denylisted extensions is rejected with the extension error; a file
    larger than the ceiling of 10 MiB is rejected with the size error,
    which states the limit; a file with both defects gets both errors. *)
Theorem validateFileUpload_rejects (file : JS.File) :
  let r := validateFileUpload file in
  ((exists ext, In ext dangerousExtensions
                /\ JS.endsWith (JS.file_name file) ext = true) ->
     valid r = false /\ In extension_error (errors r)) /\
  (JS.file_size file > maxSize ->
     valid r = false /\ In size_error (errors r)) /\
  ((exists ext, In ext dangerousExtensions
                /\ JS.endsWith (JS.file_name file) ext = true) ->
   JS.file_size file > maxSize ->
     valid r = false /\ In extension_error (errors r)
     /\ In size_error (errors r)).
Proof.
  intros r.
  assert (Hext : (exists ext, In ext dangerousExtensions
                 /\ JS.endsWith (JS.file_name file) ext = true) ->
                 In extension_error (errors r)).
  { intros (ext & Hin & Hends).
    apply (validateFileUpload_extension file ext Hin).
    rewrite <- (dangerous_extensions_lower ext Hin).
    now apply endsWith_toLowerCase. }
  pose proof (validateFileUpload_size file) as Hsize.
  pose proof (validateFileUpload_valid file) as Hvalid.
  repeat split; eauto.
Qed.

Lemma validateFileUpload_rejects_witness :
  let r := validateFileUpload
             (JS.mkFile "invoice.pdf.exe" "application/pdf" (11 * 1024 * 1024)) in
  valid r = false /\ In extension_error (errors r) /\ In size_error (errors r).
Proof.
  apply (validateFileUpload_rejects
           (JS.mkFile "invoice.pdf.exe" "application/pdf" (11 * 1024 * 1024))).
  - exists ".exe". split; [simpl; tauto | reflexivity].
  - reflexivity.
Defined.

End upload_facts.

(** ** [validateFile] of [FileUploadSecurity] *)

Section content_scan_facts.

Import FileUpload.

(** The scan itself recognises the signature. *)
Lemma scan_finds_pe :
  scanFileContent [x4d; x5a] = [ "File contains executable code" ].
Proof. reflexivity. Qed.

(** The scan has no part in the result of [validateFile]. *)
Lemma validateFile_content_irrelevant fraction_text config file :
  validateFile fraction_text config file =
  validateFile fraction_text config
    (mkUpload (name file) (type file) (size file) None).
Proof. unfold validateFile; simpl. destruct (content file); reflexivity. Qed.

(** C3 at its failing input: the file passes the size, type and
    extension checks, its content starts with the PE magic number, and
    [validateFile] accepts it with no error. *)
Theorem validateFile_accepts_executable_content fraction_text :
  validateFile fraction_text Sanitizer.defaultSecurityConfig pe_as_pdf =
  {| valid := true; errors := []; sanitizedName := Some "report.pdf" |}.
Proof. reflexivity. Qed.

End content_scan_facts.

(** ** The session registry *)

Section session_facts.

Import Session.

(** C10.  Two calls of [validateSession] that differ only in the user
    agent return the same result and leave the same store. *)
Theorem validateSession_ignores_userAgent
    (now : Z) (sessionId ip agent1 agent2 : string) (s : sessions) :
  validateSession now sessionId ip agent1 s =
  validateSession now sessionId ip agent2 s.
Proof. reflexivity. Qed.

End session_facts.

Section session_outcomes.

Import Session.

Lemma validateSession_failure_deletes now sessionId ip agent s :
  valid (validateSession now sessionId ip agent s).1 = false ->
  (validateSession now sessionId ip agent s).2 !! sessionId = None.
Proof.
  unfold validateSession.
  destruct (s !! sessionId) as [sn|] eqn:Hget; simpl; [|done].
  repeat case_match; simpl; try discriminate; intros _;
    apply lookup_delete_eq.
Qed.

(** C6.  [validateSession] goes through its checks in this order.  With
    no record it fails with the reason of a session not found.  With a
    record it fails as expired when the age [now - created] exceeds 24
    hours; otherwise as idle when [now - lastActivity] exceeds 2 hours;
    otherwise with an IP mismatch when the supplied address differs from
    the stored one (the comparison is always made).  After each failure
    the store holds no record under the session id.  Otherwise the call
    succeeds: it returns the bound user id and the record's last activity
    becomes [now]. *)
Theorem validateSession_outcomes
    (now : Z) (sessionId ip agent : string) (s : sessions) :
  let out := validateSession now sessionId ip agent s in
  (s !! sessionId = None ->
     out = (refusal "Session not found", s)) /\
  (forall sn, s !! sessionId = Some sn ->
     (now - created sn > maxSessionAge ->
        out = (refusal "Session expired", delete sessionId s)) /\
     (now - created sn <= maxSessionAge ->
      now - lastActivity sn > maxIdleTime ->
        out = (refusal "Session idle timeout", delete sessionId s)) /\
     (now - created sn <= maxSessionAge ->
      now - lastActivity sn <= maxIdleTime ->
      ipAddress sn <> ip ->
        out = (refusal "IP address mismatch", delete sessionId s)) /\
     (now - created sn <= maxSessionAge ->
      now - lastActivity sn <= maxIdleTime ->
      ipAddress sn = ip ->
        out = (mkValidation true (Some (userId sn)) None,
               <[sessionId := touched now sn]> s))) /\
  (valid out.1 = false -> out.2 !! sessionId = None) /\
  (valid out.1 = true ->
     exists sn, s !! sessionId = Some sn
       /\ validUserId out.1 = Some (userId sn)
       /\ out.2 !! sessionId = Some (touched now sn)) /\
  (forall other, other <> sessionId -> out.2 !! other = s !! other).
Proof.
  intros out. split; [|split; [|split; [|split]]].
  - intros Hnone. subst out. unfold validateSession. now rewrite Hnone.
  - intros sn Hget. subst out. unfold validateSession. rewrite Hget.
    repeat split; intros.
    + replace (now - created sn >? maxSessionAge) with true
        by (symmetry; apply Z.gtb_lt; lia). reflexivity.
    + replace (now - created sn >? maxSessionAge) with false
        by (symmetry; rewrite Z.gtb_ltb; apply Z.ltb_ge; lia).
      replace (now - lastActivity sn >? maxIdleTime) with true
        by (symmetry; apply Z.gtb_lt; lia). reflexivity.
    + replace (now - created sn >? maxSessionAge) with false
        by (symmetry; rewrite Z.gtb_ltb; apply Z.ltb_ge; lia).
      replace (now - lastActivity sn >? maxIdleTime) with false
        by (symmetry; rewrite Z.gtb_ltb; apply Z.ltb_ge; lia).
      replace (String.eqb (ipAddress sn) ip) with false
        by (symmetry; now apply String.eqb_neq). reflexivity.
    + replace (now - created sn >? maxSessionAge) with false
        by (symmetry; rewrite Z.gtb_ltb; apply Z.ltb_ge; lia).
      replace (now - lastActivity sn >? maxIdleTime) with false
        by (symmetry; rewrite Z.gtb_ltb; apply Z.ltb_ge; lia).
      replace (String.eqb (ipAddress sn) ip) with true
        by (symmetry; now apply String.eqb_eq). reflexivity.
  - apply validateSession_failure_deletes.
  - subst out. unfold validateSession.
    destruct (s !! sessionId) as [sn|] eqn:Hget; simpl; [|discriminate].
    repeat case_match; simpl; try discriminate; intros _.
    exists sn. repeat split. apply lookup_insert_eq.
  - intros other Hother. subst out. unfold validateSession.
    destruct (s !! sessionId) as [sn|]; simpl; [|done].
    repeat case_match; simpl;
      first [ now apply lookup_delete_ne | now apply lookup_insert_ne ].
Qed.

(** A session created at 0 and last seen at one hour, validated at
    three hours and a second: it is idle, not expired. *)
Lemma validateSession_outcomes_witness :
  validateSession 10801000 "s1" "10.0.0.1" "agent"
    (<["s1" := mkSession "alice" 0 3600000 "10.0.0.1" "agent"]> ∅)
  = (refusal "Session idle timeout",
     delete "s1" (<["s1" := mkSession "alice" 0 3600000 "10.0.0.1" "agent"]> ∅)).
Proof.
  apply (validateSession_outcomes 10801000 "s1" "10.0.0.1" "agent"
           (<["s1" := mkSession "alice" 0 3600000 "10.0.0.1" "agent"]> ∅))
    with (sn := mkSession "alice" 0 3600000 "10.0.0.1" "agent").
  - reflexivity.
  - vm_compute; discriminate.
  - vm_compute; reflexivity.
Defined.

End session_outcomes.

(** ** The CSRF token manager *)

Section csrf_facts.

Import CSRF.

Lemma run_snoc (calls : list call) (c : call) :
  run (calls ++ [c]) = step (run calls) c.
Proof. unfold run. now rewrite fold_left_app. Qed.

Lemma issued_app (calls1 calls2 : list call) :
  issued (calls1 ++ calls2) = issued calls1 ++ issued calls2.
Proof.
  induction calls1 as [|[] rest IH]; simpl; auto. now rewrite IH.
Qed.

(** What [validateToken] leaves under each key: the record it found,
    possibly marked used, or nothing. *)
Lemma validateToken_lookup now sessionId providedToken (t : tokens) key td' :
  (validateToken now sessionId providedToken t).2 !! key = Some td' ->
  exists td, t !! key = Some td /\ token td = token td'
             /\ expires td = expires td'.
Proof.
  unfold validateToken.
  destruct (t !! sessionId) as [td|] eqn:Hget; simpl; [|eauto].
  repeat case_match; simpl; eauto.
  - intros [_ Hlook]%lookup_delete_Some; eauto.
  - rewrite lookup_insert_Some.
    intros [[<- <-] | [_ Hlook]]; simpl; eauto.
Qed.

Lemma validateToken_other now sessionId providedToken (t : tokens) key :
  key <> sessionId ->
  (validateToken now sessionId providedToken t).2 !! key = t !! key.
Proof.
  intros Hne. unfold validateToken.
  destruct (t !! sessionId) as [td|]; simpl; [|done].
  repeat case_match; simpl; try done.
  - now apply lookup_delete_ne.
  - now apply lookup_insert_ne.
Qed.

Lemma cleanup_lookup now (t : tokens) key td :
  cleanup now t !! key = Some td <->
  t !! key = Some td /\ used td = false /\ now <= expires td.
Proof.
  unfold cleanup. rewrite map_lookup_filter_Some. unfold stale; simpl.
  rewrite orb_false_iff, Z.gtb_ltb, Z.ltb_ge. tauto.
Qed.

(** Every record of a store reached from the empty one carries a token
    that was handed out. *)
Lemma stored_tokens_were_issued (calls : list call) key td :
  run calls !! key = Some td -> In (token td) (issued calls).
Proof.
  revert key td. induction calls as [|c calls IH] using rev_ind;
    intros key td.
  - unfold run; simpl. now rewrite lookup_empty.
  - rewrite run_snoc, issued_app, in_app_iff.
    destruct c as [random now sid | now sid tok | now]; simpl.
    + rewrite lookup_insert_Some. intros [[_ <-] | [_ Hget]].
      * right; left; reflexivity.
      * left; eauto.
    + intros (td0 & Hget & <- & _)%validateToken_lookup. left; eauto.
    + intros [Hget _]%cleanup_lookup. left; eauto.
Qed.

(** C7 fails after a successful validation: the record stays in the
    store, marked used. *)
Lemma used_record_stays_in_store :
  ~ no_used_record
      (run [ Generate [xab] 0 "sess-1"; Validate 1 "sess-1" "ab" ]).
Proof.
  intros Hinv.
  specialize (Hinv "sess-1" (mkTokenData "ab" 3600000 true) eq_refl).
  discriminate Hinv.
Qed.

(** C7, amended.  A session key holds one record, the one of the latest
    issuance, and an issuance touches no other key.  [validateToken]
    removes the record it finds expired.  After [cleanup] at [now] the
    store holds exactly the records that were neither used nor expired at
    [now].  A successful validation keeps the record, marked used. *)
Theorem csrf_store_discipline (t : tokens) (now : Z) (sessionId : string) :
  (forall random,
     let t' := (generateToken random now sessionId t).2 in
     t' !! sessionId
       = Some (mkTokenData (generateSecureToken random) (now + tokenExpiry) false)
     /\ forall other, other <> sessionId -> t' !! other = t !! other) /\
  (forall td providedToken,
     t !! sessionId = Some td -> used td = false -> now > expires td ->
     validateToken now sessionId providedToken t = (false, delete sessionId t)) /\
  (forall td,
     cleanup now t !! sessionId = Some td <->
     t !! sessionId = Some td /\ used td = false /\ now <= expires td) /\
  (forall td,
     t !! sessionId = Some td -> used td = false -> now <= expires td ->
     validateToken now sessionId (token td) t
       = (true, <[sessionId := mkTokenData (token td) (expires td) true]> t)).
Proof.
  split; [|split; [|split]].
  - intros random t'. subst t'. unfold generateToken; simpl. split.
    + apply lookup_insert_eq.
    + intros other Hne. now apply lookup_insert_ne.
  - intros td tok Hget Hfresh Hlate. unfold validateToken.
    rewrite Hget, Hfresh.
    replace (now >? expires td) with true
      by (symmetry; apply Z.gtb_lt; lia). reflexivity.
  - intros td. apply cleanup_lookup.
  - intros td Hget Hfresh Hlive. unfold validateToken.
    rewrite Hget, Hfresh.
    replace (now >? expires td) with false
      by (symmetry; rewrite Z.gtb_ltb; apply Z.ltb_ge; lia).
    now rewrite String.eqb_refl.
Qed.

(** An expired record met by [validateToken]: issued at 0, presented one
    millisecond after its hour. *)
Lemma csrf_store_discipline_witness :
  validateToken 3600001 "sess-1" "ab"
    (<["sess-1" := mkTokenData "ab" 3600000 false]> ∅)
  = (false, delete "sess-1" (<["sess-1" := mkTokenData "ab" 3600000 false]> ∅)).
Proof.
  apply (csrf_store_discipline
           (<["sess-1" := mkTokenData "ab" 3600000 false]> ∅)
           3600001 "sess-1")
    with (td := mkTokenData "ab" 3600000 false).
  - reflexivity.
  - reflexivity.
  - vm_compute; reflexivity.
Defined.

End csrf_facts.

(** ** CSRF tokens through the middleware *)

Section csrf_middleware_facts.

Import Middleware.

(** A token that the store does not hold under [sessionId], live and
    unused, is refused there. *)
Lemma foreign_token_refused now sessionId providedToken (t : CSRF.tokens) :
  (forall td, t !! sessionId = Some td -> CSRF.token td <> providedToken) ->
  (CSRF.validateToken now sessionId providedToken t).1 = false.
Proof.
  intros Hforeign. unfold CSRF.validateToken.
  destruct (t !! sessionId) as [td|] eqn:Hget; simpl; [|done].
  specialize (Hforeign td eq_refl).
  destruct (CSRF.used td); [done|].
  destruct (now >? CSRF.expires td); [done|].
  destruct (String.eqb_spec (CSRF.token td) providedToken); [done|].
  reflexivity.
Qed.

(** C1.  Let a store be reached by any sequence of calls, and let
    [generateCSRFToken], CSRF enabled, hand out [T] for the session [S],
    a token the generator has not handed out before.  Then a first
    [validateCSRFToken S T], made no later than the token's hour of
    validity, returns [true]; a repeated call on the resulting store
    returns [false], at whatever time; and for a session [S2] other than
    [S], [validateCSRFToken S2 T] returns [false] on each of the stores
    met on the way. *)
Theorem csrf_token_validates_once
    (config : SecurityMiddlewareConfig) (history : list CSRF.call)
    (random : list byte) (now0 now1 now2 now3 : Z)
    (S S2 T : string) (t1 : CSRF.tokens) :
  enableCSRF config = true ->
  generateCSRFToken config random now0 S (CSRF.run history) = (T, t1) ->
  ~ In T (CSRF.issued history) ->
  now1 <= now0 + CSRF.tokenExpiry ->
  S2 <> S ->
  exists t2 t3,
    validateCSRFToken config now1 S T t1 = (true, t2) /\
    validateCSRFToken config now2 S T t2 = (false, t3) /\
    (validateCSRFToken config now3 S2 T t1).1 = false /\
    (validateCSRFToken config now3 S2 T t2).1 = false /\
    (validateCSRFToken config now3 S2 T t3).1 = false.
Proof.
  intros Hon Hgen Hnew Hlive Hother.
  unfold generateCSRFToken, validateCSRFToken in *. rewrite Hon in *.
  simpl in *. unfold CSRF.generateToken in Hgen.
  injection Hgen as HT Ht1. rewrite HT in Ht1.
  set (t0 := CSRF.run history) in *.
  set (issuedRecord := CSRF.mkTokenData T (now0 + CSRF.tokenExpiry) false) in *.
  set (usedRecord := CSRF.mkTokenData T (now0 + CSRF.tokenExpiry) true).
  assert (Hfirst : CSRF.validateToken now1 S T t1 = (true, <[S := usedRecord]> t1)).
  { unfold CSRF.validateToken. subst t1. rewrite lookup_insert_eq. simpl.
    replace (now1 >? now0 + CSRF.tokenExpiry) with false
      by (symmetry; rewrite Z.gtb_ltb; apply Z.ltb_ge; lia).
    now rewrite String.eqb_refl. }
  assert (Hsecond : CSRF.validateToken now2 S T (<[S := usedRecord]> t1)
                    = (false, <[S := usedRecord]> t1)).
  { unfold CSRF.validateToken. now rewrite lookup_insert_eq. }
  assert (Hclean : forall td, t0 !! S2 = Some td -> CSRF.token td <> T).
  { intros td Hget Heq. apply Hnew. rewrite <- Heq.
    now apply (stored_tokens_were_issued history S2 td). }
  assert (H1 : t1 !! S2 = t0 !! S2)
    by (subst t1; apply lookup_insert_ne; congruence).
  assert (H2 : <[S := usedRecord]> t1 !! S2 = t0 !! S2)
    by (rewrite lookup_insert_ne by congruence; exact H1).
  exists (<[S := usedRecord]> t1), (<[S := usedRecord]> t1).
  repeat split; auto; apply foreign_token_refused; intros td;
    rewrite ?H1, ?H2; auto.
Qed.

(** The scenario of the specification: the session [sess-2] already
    holds a token of its own when [sess-1] is given its token. *)
Lemma csrf_token_validates_once_witness :
  exists t2 t3,
    validateCSRFToken securityMiddleware 5 "sess-1" "ab"
      (<["sess-1" := CSRF.mkTokenData "ab" 3600000 false]>
         (CSRF.run [ CSRF.Generate [x01] 0 "sess-2" ])) = (true, t2) /\
    validateCSRFToken securityMiddleware 6 "sess-1" "ab" t2 = (false, t3) /\
    (validateCSRFToken securityMiddleware 7 "sess-2" "ab"
       (<["sess-1" := CSRF.mkTokenData "ab" 3600000 false]>
          (CSRF.run [ CSRF.Generate [x01] 0 "sess-2" ]))).1 = false /\
    (validateCSRFToken securityMiddleware 7 "sess-2" "ab" t2).1 = false /\
    (validateCSRFToken securityMiddleware 7 "sess-2" "ab" t3).1 = false.
Proof.
  apply (csrf_token_validates_once securityMiddleware
           [ CSRF.Generate [x01] 0 "sess-2" ] [xab] 0 5 6 7
           "sess-1" "sess-2" "ab").
  - reflexivity.
  - reflexivity.
  - simpl. intros [H | []]. discriminate H.
  - vm_compute; discriminate.
  - discriminate.
Defined.

End csrf_middleware_facts.

(** ** [sanitizeFormData] *)

Section form_data_facts.

Import Middleware.

Variable purify : string -> string.

Lemma sanitized_object (props : gmap string JS.value) :
  sanitized purify (JS.Obj props) =
  map_fold (fun key value acc => assign acc key (visit purify value))
           (Some JS.literal) props.
Proof. reflexivity. Qed.

Lemma sanitized_array (items : list JS.value) :
  sanitized purify (JS.Arr items) =
  array_loop purify 0 items (Some JS.literal).
Proof. reflexivity. Qed.

(** *** Assignments and the prototype chain *)

Lemma object_prototype_plain (k : string) :
  k <> "__proto__" -> JS.object_prototype k = JS.Plain.
Proof.
  intros Hk. unfold JS.object_prototype.
  now apply String.eqb_neq in Hk as ->.
Qed.

Lemma object_prototype_harmless (k : string) :
  JS.object_prototype k <> JS.ReadOnly.
Proof. unfold JS.object_prototype. now destruct (String.eqb k "__proto__"). Qed.

(** The setter is found under its own name only. *)
Lemma inherited_setter (k : string) (p : JS.value) :
  JS.inherited k p = JS.Setter -> k = "__proto__".
Proof.
  assert (Hobj : JS.object_prototype k = JS.Setter -> k = "__proto__").
  { unfold JS.object_prototype.
    destruct (String.eqb_spec k "__proto__"); [done | discriminate]. }
  induction p as [| | | | | | props | f | | above IH props];
    cbn [JS.inherited]; try discriminate; try exact Hobj.
  - destruct (props !! k); [discriminate | exact Hobj].
  - destruct (JS.array_includes JS.file_attributes k);
      [discriminate | exact Hobj].
  - destruct (props !! k); [discriminate | exact IH].
Qed.

Lemma harmless_to_value (o : JS.object) : sound o -> harmless (JS.to_value o).
Proof.
  intros Hsound k. unfold JS.to_value.
  destruct (JS.proto o) as [p|] eqn:Hp; simpl.
  - destruct (JS.own o !! k); [discriminate|]. now apply Hsound.
  - destruct (JS.own o !! k); [discriminate|].
    apply object_prototype_harmless.
Qed.

Lemma sound_standard (m : gmap string JS.value) : sound (JS.mkObject None m).
Proof. intros p [=]. Qed.

(** A name other than [__proto__], on a chain that is harmless: the
    property is created or overwritten. *)
Lemma set_prop_plain (k : string) (v : JS.value) (o : JS.object) :
  k <> "__proto__" -> sound o ->
  JS.set_prop k v o = Some (JS.mkObject (JS.proto o) (<[k := v]> (JS.own o))).
Proof.
  intros Hk Hsound. unfold JS.set_prop.
  destruct (JS.own o !! k); [reflexivity|].
  destruct (JS.proto o) as [p|] eqn:Hp.
  - destruct (JS.inherited k p) eqn:Hfound; [reflexivity | |].
    + now destruct (Hsound p Hp k).
    + now apply inherited_setter in Hfound.
  - now rewrite object_prototype_plain.
Qed.

(** The name [__proto__], on an object that still has
    [Object.prototype]: the setter replaces the prototype, or ignores the
    value. *)
Lemma set_prop_proto (v : JS.value) (o : JS.object) :
  JS.proto o = None -> JS.own o !! "__proto__" = None ->
  JS.set_prop "__proto__" v o =
  Some (if JS.is_prototype v then JS.mkObject (Some v) (JS.own o) else o).
Proof.
  intros Hstd Hown. unfold JS.set_prop. rewrite Hown, Hstd. simpl.
  now destruct (JS.is_prototype v).
Qed.

(** *** The loop over a plain object *)

(** The object built from a plain object whose values are visited
    without an exception, each result harmless as a prototype: its own
    properties are the entries but one named [__proto__], their values
    visited. *)
Lemma sanitized_object_spec (props : gmap string JS.value) :
  (forall key x, props !! key = Some x ->
     exists v, visit purify x = Some v /\ harmless v) ->
  exists o,
    sanitized purify (JS.Obj props) = Some o
    /\ sound o
    /\ JS.own o !! "__proto__" = None
    /\ (forall key, key <> "__proto__" ->
          JS.own o !! key = props !! key ≫= visit purify)
    /\ JS.proto o
       = match props !! "__proto__" ≫= visit purify with
         | Some w => if JS.is_prototype w then Some w else None
         | None => None
         end.
Proof.
  rewrite sanitized_object.
  apply (map_fold_weak_ind
    (fun r (m : gmap string JS.value) =>
       (forall key x, m !! key = Some x ->
          exists v, visit purify x = Some v /\ harmless v) ->
       exists o,
         r = Some o
         /\ sound o
         /\ JS.own o !! "__proto__" = None
         /\ (forall key, key <> "__proto__" ->
               JS.own o !! key = m !! key ≫= visit purify)
         /\ JS.proto o
            = match m !! "__proto__" ≫= visit purify with
              | Some w => if JS.is_prototype w then Some w else None
              | None => None
              end)).
  - intros _. exists JS.literal. split; [reflexivity|].
    split; [apply sound_standard|]. split; [apply lookup_empty|].
    split; [|now rewrite lookup_empty].
    intros key _. simpl. now rewrite !lookup_empty.
  - intros i x m r Hfresh IH Hgood.
    destruct IH as (o & -> & Hsound & Hown & Hlook & Hstd).
    { intros key y Hget. apply (Hgood key y).
      rewrite lookup_insert_ne; [exact Hget | congruence]. }
    destruct (Hgood i x) as (v & Hv & Hharmless);
      [apply lookup_insert_eq|].
    rewrite Hv. simpl.
    destruct (decide (i = "__proto__")) as [->|Hi].
    + rewrite Hfresh in Hstd. simpl in Hstd.
      rewrite (set_prop_proto v o Hstd Hown).
      eexists. split; [reflexivity|].
      split; [|split; [|split]].
      * destruct (JS.is_prototype v); [|exact Hsound].
        intros p [= <-]. exact Hharmless.
      * now destruct (JS.is_prototype v).
      * intros key Hkey. rewrite lookup_insert_ne by congruence.
        rewrite <- (Hlook key Hkey). now destruct (JS.is_prototype v).
      * rewrite lookup_insert_eq. simpl. rewrite Hv.
        now destruct (JS.is_prototype v).
    + rewrite (set_prop_plain i v o Hi Hsound).
      eexists. split; [reflexivity|].
      split; [exact Hsound|]. split; [|split].
      * simpl. rewrite lookup_insert_ne by congruence. exact Hown.
      * intros key Hkey. simpl.
        destruct (decide (i = key)) as [->|Hne].
        -- now rewrite !lookup_insert_eq.
        -- rewrite !lookup_insert_ne by exact Hne. now apply Hlook.
      * rewrite lookup_insert_ne by exact Hi. exact Hstd.
Qed.

(** *** The loop over an array *)

(** The keys of an array are decimal numerals: distinct indices have
    distinct keys, and none is [__proto__]. *)
Lemma show_nat_parse (n : nat) :
  NilZero.uint_of_string (JS.show_nat n) = Some (Nat.to_uint n).
Proof.
  unfold JS.show_nat. apply NilZero.usu.
  rewrite <- (DecimalNat.Unsigned.of_to n), DecimalNat.Unsigned.to_of.
  apply DecimalFacts.unorm_nonnil.
Qed.

Lemma show_nat_inj (i j : nat) : JS.show_nat i = JS.show_nat j -> i = j.
Proof.
  intros Heq. apply DecimalNat.Unsigned.to_uint_inj.
  pose proof (show_nat_parse i) as Hi. rewrite Heq, show_nat_parse in Hi.
  congruence.
Qed.

Lemma show_nat_not_proto (n : nat) : JS.show_nat n <> "__proto__".
Proof.
  intros Heq.
  pose proof (show_nat_parse n) as Hn. rewrite Heq in Hn. discriminate Hn.
Qed.

(** The loop from index [i] on, over elements that are visited without
    an exception, on an object that has [Object.prototype]. *)
Lemma array_loop_spec (rest : list JS.value) (i : nat)
    (acc : gmap string JS.value) :
  (forall x, In x rest -> is_Some (visit purify x)) ->
  exists m,
    array_loop purify i rest (Some (JS.mkObject None acc))
      = Some (JS.mkObject None m)
    /\ (forall key,
          (forall j, (j < length rest)%nat -> key <> JS.show_nat (i + j)) ->
          m !! key = acc !! key)
    /\ (forall j x, rest !! j = Some x ->
          m !! JS.show_nat (i + j) = visit purify x).
Proof.
  revert i acc. induction rest as [|y rest IH]; intros i acc Hvisit.
  - exists acc. split; [reflexivity|]. split; [done|]. intros j x [=].
  - destruct (Hvisit y) as [v Hv]; [now left|].
    simpl. rewrite Hv. simpl.
    rewrite (set_prop_plain (JS.show_nat i) v (JS.mkObject None acc)
               (show_nat_not_proto i) (sound_standard acc)).
    simpl.
    destruct (IH (S i) (<[JS.show_nat i := v]> acc)) as (m & -> & Hskip & Hget).
    { intros x Hx. apply Hvisit. now right. }
    exists m. split; [reflexivity|]. split.
    + intros key Hkey. rewrite Hskip.
      * apply lookup_insert_ne. intros Heq. apply (Hkey 0%nat); [simpl; lia|].
        now rewrite Nat.add_0_r.
      * intros j Hj. replace (S i + j)%nat with (i + S j)%nat by lia.
        apply Hkey. simpl; lia.
    + intros [|j] x; simpl.
      * intros [= <-]. rewrite Nat.add_0_r, Hskip.
        -- rewrite lookup_insert_eq. now symmetry.
        -- intros j _ Heq%show_nat_inj. lia.
      * intros Hx. replace (i + S j)%nat with (S i + j)%nat by lia.
        now apply Hget.
Qed.

(** The object built from an array: a plain object that has its
    elements, visited, under their indices. *)
Lemma sanitized_array_spec (items : list JS.value) :
  (forall x, In x items -> is_Some (visit purify x)) ->
  exists m,
    sanitized purify (JS.Arr items) = Some (JS.mkObject None m)
    /\ (forall key, is_Some (m !! key) <->
          exists i, (i < length items)%nat /\ key = JS.show_nat i)
    /\ (forall i x, items !! i = Some x ->
          m !! JS.show_nat i = visit purify x).
Proof.
  intros Hvisit. rewrite sanitized_array. unfold JS.literal.
  destruct (array_loop_spec items 0 ∅ Hvisit) as (m & -> & Hskip & Hget).
  assert (Hget' : forall i x, items !! i = Some x ->
                           m !! JS.show_nat i = visit purify x)
    by exact Hget.
  exists m. split; [reflexivity|]. split; [|exact Hget'].
  intros key. split.
  - intros Hsome.
    destruct (NilZero.uint_of_string key) as [d|] eqn:Hparse.
    + destruct (String.eqb_spec (JS.show_nat (Nat.of_uint d)) key) as [<-|Hne].
      * exists (Nat.of_uint d). split; [|reflexivity].
        destruct (decide (Nat.of_uint d < length items)%nat) as [|Hge];
          [assumption|].
        rewrite Hskip, lookup_empty in Hsome; [now destruct Hsome|].
        intros j Hj Heq%show_nat_inj. simpl in Heq. lia.
      * rewrite Hskip, lookup_empty in Hsome; [now destruct Hsome|].
        intros j _ ->. apply Hne. simpl in Hparse.
        rewrite show_nat_parse in Hparse. injection Hparse as <-.
        now rewrite DecimalNat.Unsigned.of_to.
    + rewrite Hskip, lookup_empty in Hsome; [now destruct Hsome|].
      intros j _ ->. rewrite show_nat_parse in Hparse. discriminate Hparse.
  - intros (i & Hi & ->).
    destruct (lookup_lt_is_Some_2 items i Hi) as [x Hx].
    rewrite (Hget' i x Hx). apply Hvisit.
    now apply list_elem_of_lookup_2, list_elem_of_In in Hx.
Qed.

(** *** The loop over the entries of a [FormData] or of a string *)

Lemma fold_assign_None {A} (f : A -> string * option JS.value) (xs : list A) :
  fold_left (fun acc x => assign acc (f x).1 (f x).2) xs None = None.
Proof. induction xs as [|x xs IH]; [reflexivity | exact IH]. Qed.

(** As long as nothing but strings is given under the name [__proto__],
    the object keeps [Object.prototype] and the loop ends; under any
    other name the object has the value given last, sanitized. *)
Lemma form_fold_standard (entries : list (string * JS.value))
    (acc : gmap string JS.value) :
  acc !! "__proto__" = None ->
  (forall v, In ("__proto__", v) entries -> exists s, v = JS.Str s) ->
  exists m,
    fold_left (fun acc entry =>
                 assign acc entry.1 (Some (sanitize_field purify entry.2)))
              entries (Some (JS.mkObject None acc))
      = Some (JS.mkObject None m)
    /\ m !! "__proto__" = None
    /\ (forall key, key <> "__proto__" ->
          m !! key
          = fold_left (fun found entry =>
                         if String.eqb entry.1 key
                         then Some (sanitize_field purify entry.2) else found)
                      entries (acc !! key)).
Proof.
  revert acc. induction entries as [|[k v] rest IH]; intros acc Hacc Hproto.
  - exists acc. split; [reflexivity|]. split; [exact Hacc|]. reflexivity.
  - cbn [fold_left assign fst snd].
    destruct (decide (k = "__proto__")) as [->|Hk].
    + destruct (Hproto v) as [s ->]; [now left|].
      rewrite (set_prop_proto _ (JS.mkObject None acc) eq_refl Hacc).
      cbn [sanitize_field JS.is_prototype].
      destruct (IH acc Hacc) as (m & -> & Hm & Hlook).
      { intros w Hw. apply Hproto. now right. }
      exists m. split; [reflexivity|]. split; [exact Hm|].
      intros key Hkey. rewrite (Hlook key Hkey).
      assert (Hne : String.eqb "__proto__" key = false)
        by (apply String.eqb_neq; congruence).
      now rewrite Hne.
    + rewrite (set_prop_plain k _ (JS.mkObject None acc) Hk
                 (sound_standard acc)).
      cbn [JS.proto JS.own].
      destruct (IH (<[k := sanitize_field purify v]> acc))
        as (m & -> & Hm & Hlook).
      { rewrite lookup_insert_ne by exact Hk. exact Hacc. }
      { intros w Hw. apply Hproto. now right. }
      exists m. split; [reflexivity|]. split; [exact Hm|].
      intros key Hkey. rewrite (Hlook key Hkey). f_equal.
      destruct (String.eqb_spec k key) as [->|Hne].
      * apply lookup_insert_eq.
      * now apply lookup_insert_ne.
Qed.

Lemma last_value_fmap (f : JS.value -> JS.value) (key : string)
    (entries : list (string * JS.value)) (found : option JS.value) :
  fold_left (fun found entry =>
               if String.eqb entry.1 key then Some (f entry.2) else found)
            entries (f <$> found)
  = f <$> fold_left (fun found entry =>
                       if String.eqb entry.1 key then Some entry.2 else found)
                    entries found.
Proof.
  revert found. induction entries as [|[k v] rest IH]; intros found;
    [reflexivity|].
  simpl. destruct (String.eqb k key); [apply (IH (Some v)) | apply IH].
Qed.

Lemma string_entries_keys (i : nat) (s : string) key x :
  In (key, x) (string_entries i s) ->
  (exists j, key = JS.show_nat j) /\ exists t, x = JS.Str t.
Proof.
  revert i. induction s as [|c r IH]; intros i; [intros []|].
  simpl. intros [[= <- <-] | Hin]; eauto.
Qed.

(** *** Plain data *)

Lemma visit_of_sanitized (x : JS.value) :
  plain_data x ->
  (exists o, sanitized purify x = Some o /\ sound o) ->
  exists v, visit purify x = Some v /\ harmless v.
Proof.
  intros Hx (o & Ho & Hsound).
  destruct x; try (now inversion Hx);
    try (eexists; split; [reflexivity | intros k; simpl; discriminate]);
    unfold visit; rewrite Ho; (eexists; split; [reflexivity|]);
    now apply harmless_to_value.
Qed.

(** On plain data nothing is thrown, and what is built is harmless as a
    prototype. *)
Lemma sanitized_plain (v : JS.value) :
  plain_data v -> exists o, sanitized purify v = Some o /\ sound o.
Proof.
  induction 1 as [| | | | s | | items Hpd IH | props Hpd IH];
    try (exists JS.literal; split; [reflexivity | apply sound_standard]).
  - destruct (form_fold_standard (string_entries 0 s) ∅) as (m & Hm & _).
    + apply lookup_empty.
    + intros x [[j Hj] _]%string_entries_keys.
      symmetry in Hj. now apply show_nat_not_proto in Hj.
    + exists (JS.mkObject None m). split; [exact Hm | apply sound_standard].
  - destruct (sanitized_array_spec items) as (m & Hm & _).
    + intros x Hx.
      destruct (visit_of_sanitized x (Hpd x Hx) (IH x Hx)) as (w & -> & _).
      now eexists.
    + exists (JS.mkObject None m). split; [exact Hm | apply sound_standard].
  - destruct (sanitized_object_spec props) as (o & Ho & Hsound & _).
    + intros key x Hx.
      exact (visit_of_sanitized x (Hpd key x Hx) (IH key x Hx)).
    + now exists o.
Qed.

Lemma visit_plain (x : JS.value) :
  plain_data x -> exists v, visit purify x = Some v /\ harmless v.
Proof.
  intros Hx. apply (visit_of_sanitized x Hx). now apply sanitized_plain.
Qed.

End form_data_facts.

Section form_data_claims.

Import Middleware.

Variable purify : string -> string.

(** The claim of C9 fails on the keys.  A member named [__proto__], as
    [JSON.parse] creates it, is an own property of the input; in the
    loop the assignment [sanitized[key] = ...] finds the setter of
    [Object.prototype] under that name, so the output has no such key and
    has the sanitized value as its prototype. *)
Lemma proto_key_is_not_copied :
  sanitizeFormData id securityMiddleware (JS.Obj polluted_form)
    = Some (JS.ObjWith (JS.Obj (<["role" := JS.Str "admin"]> ∅))
                       (<["comment" := JS.Str "nice event"]> ∅))
  /\ is_Some (polluted_form !! "__proto__")
  /\ (<["comment" := JS.Str "nice event"]> ∅ : gmap string JS.value)
       !! "__proto__" = None.
Proof. split; [reflexivity|]. split; [now eexists | reflexivity]. Qed.

(** C9, amended.  Input sanitization enabled, [sanitizeFormData] maps a
    plain object made of JSON values, [undefined] and files to an object
    whose keys are those of the input other than [__proto__]; when the
    input has no key [__proto__] the output is a plain object with
    exactly the same keys.  Under each key a string is replaced by the
    text sanitizer's output, [null], a number and a boolean are kept, and
    a nested object or array is replaced by what [sanitizeFormData]
    returns on it.  The value under a key [__proto__] is treated alike
    and then becomes the prototype of the output if it is an object or
    [null], and is dropped otherwise.  On an array the function returns a
    plain object whose keys are the decimal indices of the array, each
    element treated as the value of a property is. *)
Theorem sanitizeFormData_shape
    (config : SecurityMiddlewareConfig) (props : gmap string JS.value) :
  enableInputSanitization config = true ->
  plain_data (JS.Obj props) ->
  exists o : JS.object,
    sanitizeFormData purify config (JS.Obj props) = Some (JS.to_value o) /\
    dom (JS.own o) = dom props ∖ {[ "__proto__" ]} /\
    (props !! "__proto__" = None ->
       JS.to_value o = JS.Obj (JS.own o) /\ dom (JS.own o) = dom props) /\
    (forall key s, key <> "__proto__" -> props !! key = Some (JS.Str s) ->
       JS.own o !! key = Some (JS.Str (sanitizeText purify s))) /\
    (forall key v, key <> "__proto__" -> props !! key = Some v ->
       v = JS.Null \/ (exists n, v = JS.Num n) \/ (exists b, v = JS.Bool b) ->
       JS.own o !! key = Some v) /\
    (forall key v, key <> "__proto__" -> props !! key = Some v ->
       (exists p, v = JS.Obj p) \/ (exists items, v = JS.Arr items) ->
       JS.own o !! key = sanitizeFormData purify config v) /\
    (forall v, props !! "__proto__" = Some v ->
       JS.proto o = if JS.is_prototype v then visit purify v else None) /\
    (forall items, plain_data (JS.Arr items) ->
       exists m,
         sanitizeFormData purify config (JS.Arr items) = Some (JS.Obj m) /\
         (forall k, is_Some (m !! k) <->
                    exists i, (i < length items)%nat /\ k = JS.show_nat i) /\
         (forall i v, items !! i = Some v ->
                      m !! JS.show_nat i = visit purify v)).
Proof.
  intros Hon Hplain. unfold sanitizeFormData. rewrite Hon. cbn [negb].
  assert (Hvalues : forall key x, props !! key = Some x -> plain_data x)
    by (now inversion Hplain).
  destruct (sanitized_object_spec purify props)
    as (o & -> & Hsound & Hown & Hlook & Hproto).
  { intros key x Hx. apply visit_plain. now apply (Hvalues key). }
  assert (Hdom : dom (JS.own o) = dom props ∖ {[ "__proto__" ]}).
  { apply set_eq; intros key.
    rewrite elem_of_difference, elem_of_singleton, !elem_of_dom.
    destruct (decide (key = "__proto__")) as [->|Hkey].
    - rewrite Hown. split; [intros [? [=]] | intros [_ []]; reflexivity].
    - rewrite (Hlook key Hkey). split.
      + intros Hsome. split; [|exact Hkey].
        destruct (props !! key); [now eexists | now destruct Hsome].
      + intros [[x Hx] _]. rewrite Hx. simpl.
        destruct (visit_plain purify x (Hvalues key x Hx)) as (w & -> & _).
        now eexists. }
  exists o. split; [reflexivity|]. split; [exact Hdom|].
  split; [|split; [|split; [|split; [|split]]]].
  - intros Hnone. split.
    + unfold JS.to_value. rewrite Hproto, Hnone. reflexivity.
    + rewrite Hdom. apply set_eq; intros key.
      rewrite elem_of_difference, elem_of_singleton, elem_of_dom.
      split; [now intros [] | intros Hin; split; [exact Hin|]].
      intros ->. rewrite Hnone in Hin. now destruct Hin.
  - intros key s Hkey Hget. now rewrite (Hlook key Hkey), Hget.
  - intros key v Hkey Hget Hkind. rewrite (Hlook key Hkey), Hget.
    destruct Hkind as [-> | [[n ->] | [b ->]]]; reflexivity.
  - intros key v Hkey Hget Hkind. rewrite (Hlook key Hkey), Hget.
    destruct Hkind as [[p ->] | [items ->]]; reflexivity.
  - intros v Hget. rewrite Hproto, Hget. cbn [mbind option_bind].
    pose proof (Hvalues _ v Hget) as Hv. unfold visit.
    destruct v; try (now inversion Hv); cbn [JS.is_prototype];
      try reflexivity;
      (destruct (sanitized purify _) as [built|]; [|reflexivity]);
      unfold JS.to_value; now destruct (JS.proto built).
  - intros items Hitems.
    destruct (sanitized_array_spec purify items) as (m & -> & Hkeys & Hget).
    { intros x Hx. inversion Hitems as [| | | | | | ? Hall |]; subst.
      destruct (visit_plain purify x (Hall x Hx)) as (w & -> & _).
      now eexists. }
    exists m. split; [reflexivity|]. split; [exact Hkeys | exact Hget].
Qed.

(** C8.  A feature switched off in the configuration is a no-op: with
    input sanitization disabled [sanitizeFormData] returns its input, with
    CSRF disabled [generateCSRFToken] returns the empty string and
    [validateCSRFToken] returns [true], both leaving the store as it is,
    and with security headers disabled [applySecurityHeaders] returns the
    empty mapping. *)
Theorem disabled_features_are_noops (config : SecurityMiddlewareConfig) :
  (enableInputSanitization config = false ->
     forall formData, sanitizeFormData purify config formData = Some formData) /\
  (enableCSRF config = false ->
     forall random now sessionId token (t : CSRF.tokens),
       generateCSRFToken config random now sessionId t = (EmptyString, t) /\
       validateCSRFToken config now sessionId token t = (true, t)) /\
  (enableSecurityHeaders config = false -> applySecurityHeaders config = ∅).
Proof.
  unfold sanitizeFormData, generateCSRFToken, validateCSRFToken,
    applySecurityHeaders.
  split; [|split]; intros Hoff; intros; rewrite Hoff; simpl;
    try split; reflexivity.
Qed.

End form_data_claims.

Section form_data_witnesses.

Import Middleware.

Lemma sanitizeFormData_shape_witness :
  exists o,
    sanitizeFormData id securityMiddleware (JS.Obj comment_form)
      = Some (JS.to_value o) /\
    JS.to_value o = JS.Obj (JS.own o) /\
    dom (JS.own o) = dom comment_form.
Proof.
  destruct (sanitizeFormData_shape id securityMiddleware comment_form)
    as (o & Hout & _ & Hsame & _).
  - reflexivity.
  - constructor. intros key x Hget.
    destruct (decide (key = "comment")) as [->|];
      [injection Hget as <-; constructor|].
    destruct (decide (key = "stars")) as [->|];
      [injection Hget as <-; constructor|].
    destruct (decide (key = "tags")) as [->|].
    + injection Hget as <-. constructor.
      intros y [<- | [<- | []]]; constructor.
    + unfold comment_form in Hget.
      rewrite !lookup_insert_ne, lookup_empty in Hget by done. discriminate.
  - exists o. split; [exact Hout|]. exact (Hsame eq_refl).
Defined.

Lemma disabled_features_are_noops_witness :
  sanitizeFormData id all_off (JS.Obj comment_form) = Some (JS.Obj comment_form)
  /\ generateCSRFToken all_off [xab] 0 "sess-1" ∅ = (EmptyString, ∅)
  /\ validateCSRFToken all_off 0 "sess-1" "anything" ∅ = (true, ∅)
  /\ applySecurityHeaders all_off = ∅.
Proof.
  destruct (disabled_features_are_noops id all_off) as (Hform & Hcsrf & Hhead).
  destruct (Hcsrf eq_refl [xab] 0 "sess-1" "anything" ∅) as [Hgen Hval].
  split; [exact (Hform eq_refl (JS.Obj comment_form))|].
  split; [exact Hgen|].
  split; [exact Hval|].
  exact (Hhead eq_refl).
Defined.

End form_data_witnesses.
(** ** [sanitizeSQLParameter] *)

Section sql_facts.

Import Sanitizer.

(** C4 fails on the keywords: a semicolon inside a keyword hides it from
    the first pattern and is removed by the second, which leaves the
    keyword in the output.  The input is a string the test suite's own
    payloads are made of. *)
Lemma sql_keyword_survives :
  sanitizeSQLParameter defaultSecurityConfig (JS.Str "1; DR;OP TABLE users")
    = JS.Str "1 DROP TABLE users"
  /\ JS.includes "1 DROP TABLE users" "DROP" = true
  /\ keyword_word_in false "1 DROP TABLE users" = true.
Proof. repeat split; reflexivity. Qed.

#[local] Arguments Ascii.eqb : simpl never.

Lemma in_all_ascii (c : ascii) : In c all_ascii.
Proof.
  unfold all_ascii. rewrite <- (ascii_nat_embedding c).
  apply in_map, in_seq. pose proof (nat_ascii_bounded c). lia.
Qed.

(** A property of one or of two code units is settled by running it on
    all of them. *)
Lemma ascii_check (f : ascii -> bool) :
  forallb f all_ascii = true -> forall c, f c = true.
Proof.
  intros Hall c. rewrite forallb_forall in Hall. apply Hall, in_all_ascii.
Qed.

Lemma ascii_check2 (f : ascii -> ascii -> bool) :
  forallb (fun a => forallb (f a) all_ascii) all_ascii = true ->
  forall a c, f a c = true.
Proof.
  intros Hall a c. apply ascii_check. revert a. now apply ascii_check.
Qed.

Lemma eqb_ci_word (a c : ascii) :
  JS.eqb_ci a c = true -> JS.is_word a = true -> JS.is_word c = true.
Proof.
  intros Heq Hword.
  pose proof (ascii_check2
    (fun a c => implb (JS.eqb_ci a c && JS.is_word a) (JS.is_word c))
    ltac:(vm_compute; reflexivity) a c) as Hcheck.
  simpl in Hcheck. now rewrite Heq, Hword in Hcheck.
Qed.

Lemma star_is_metachar (c : ascii) :
  is_star c = true -> sql_metachar c = true.
Proof.
  intros Hstar.
  pose proof (ascii_check (fun c => implb (is_star c) (sql_metachar c))
    ltac:(vm_compute; reflexivity) c) as Hcheck.
  simpl in Hcheck. now rewrite Hstar in Hcheck.
Qed.

Lemma marker_without_star (a b : ascii) :
  is_star a = false -> is_star b = false ->
  comment_marker a b = is_dash a && is_dash b.
Proof.
  intros Ha Hb.
  pose proof (ascii_check2
    (fun a b => implb (negb (is_star a) && negb (is_star b))
                  (Bool.eqb (comment_marker a b) (is_dash a && is_dash b)))
    ltac:(vm_compute; reflexivity) a b) as Hcheck.
  simpl in Hcheck. rewrite Ha, Hb in Hcheck. simpl in Hcheck.
  now apply Bool.eqb_prop.
Qed.

(** *** The second and third patterns *)

Lemma free_of_weaken (p q : ascii -> bool) (s : string) :
  (forall c, q c = true -> p c = true) ->
  free_of p s = true -> free_of q s = true.
Proof.
  intros Hqp. induction s as [|c r IH]; simpl; [done|].
  intros [Hc Hr]%andb_prop. rewrite (IH Hr), andb_true_r.
  destruct (q c) eqn:Hq; [|done]. now rewrite (Hqp c Hq) in Hc.
Qed.

Lemma free_of_includes (p : ascii -> bool) (s : string) (c : ascii) :
  free_of p s = true -> p c = true ->
  JS.includes s (String c EmptyString) = false.
Proof.
  intros Hfree Hc. induction s as [|b r IH]; [reflexivity|].
  simpl in *. apply andb_prop in Hfree as [Hb Hr]. rewrite (IH Hr).
  destruct (Ascii.eqb_spec c b) as [->|]; [|reflexivity].
  now rewrite Hc in Hb.
Qed.

Lemma strip_metachars_free (s : string) :
  free_of sql_metachar (strip_metachars s) = true.
Proof.
  induction s as [|c r IH]; simpl; [done|].
  destruct (sql_metachar c) eqn:Hc; simpl; [done|]. now rewrite Hc.
Qed.

(** Induction on a string two code units at a time, as
    [strip_comment_markers] recurses. *)
Lemma string_pair_ind (P : string -> Prop) :
  P EmptyString ->
  (forall a, P (String a EmptyString)) ->
  (forall a b r, P r -> P (String b r) -> P (String a (String b r))) ->
  forall s, P s.
Proof.
  intros Hnil Hone Hstep s.
  assert (Hboth : P s /\ forall a, P (String a s)).
  { induction s as [|b r [IHr IHbr]]; [auto|]. split; auto. }
  apply Hboth.
Qed.

(** The third pattern only removes code units. *)
Lemma strip_comment_markers_free (p : ascii -> bool) (s : string) :
  free_of p s = true -> free_of p (strip_comment_markers s) = true.
Proof.
  induction s as [| a | a b r IHr IHbr] using string_pair_ind; [done..|].
  intros Hfree. change (strip_comment_markers (String a (String b r)))
    with (if comment_marker a b then strip_comment_markers r
          else String a (strip_comment_markers (String b r))).
  simpl in Hfree. apply andb_prop in Hfree as [Ha Hrest].
  destruct (comment_marker a b).
  - apply IHr. now apply andb_prop in Hrest as [_ Hr].
  - change (negb (p a) && free_of p (strip_comment_markers (String b r))
            = true).
    now rewrite Ha, (IHbr Hrest).
Qed.

(** Once the stars are gone, the third pattern leaves no two dashes
    side by side: it removes the dashes of a run in pairs, and what is
    left of the run is one dash at most, next to the code units that
    bounded it. *)
Lemma strip_comment_markers_dashes (s : string) :
  free_of is_star s = true ->
  JS.includes (strip_comment_markers s) "--" = false
  /\ (starts_with_dash (strip_comment_markers s) = true ->
      starts_with_dash s = true).
Proof.
  induction s as [| a | a b r IHr IHbr] using string_pair_ind.
  - done.
  - intros _. split; [|done]. simpl. now rewrite andb_false_r.
  - intros Hfree. simpl in Hfree.
    apply andb_prop in Hfree as [Ha [Hb Hr]%andb_prop].
    apply negb_true_iff in Ha, Hb.
    change (strip_comment_markers (String a (String b r)))
      with (if comment_marker a b then strip_comment_markers r
            else String a (strip_comment_markers (String b r))).
    rewrite (marker_without_star a b Ha Hb).
    destruct (IHr Hr) as [IHr1 IHr2].
    destruct IHbr as [IHbr1 IHbr2];
      [simpl; now rewrite Hb, Hr|].
    destruct (is_dash a && is_dash b) eqn:Hpair.
    + split; [exact IHr1|]. intros _. simpl.
      now apply andb_prop in Hpair as [-> _].
    + split; [|done].
      change (JS.includes (String a ?x) "--")
        with (JS.startsWith (String a x) "--" || JS.includes x "--").
      rewrite IHbr1, orb_false_r.
      change (JS.startsWith (String a ?x) "--")
        with (is_dash a && JS.startsWith x "-").
      destruct (is_dash a) eqn:Hda; [|done]. simpl in Hpair.
      rewrite andb_true_l.
      destruct (strip_comment_markers (String b r)) as [|c x] eqn:Hout;
        [done|].
      change (JS.startsWith (String c x) "-")
        with (is_dash c && JS.startsWith x EmptyString).
      destruct (is_dash c) eqn:Hc; [|done].
      specialize (IHbr2 Hc). simpl in IHbr2. congruence.
Qed.

(** *** The first pattern *)

(** A keyword is a letter followed by word characters. *)
Lemma keywords_shape (k : string) :
  In k sql_keywords ->
  exists a w, k = String a w /\ JS.is_word a = true
              /\ free_of (fun c => negb (JS.is_word c)) w = true.
Proof.
  unfold sql_keywords; simpl. intros H.
  repeat (destruct H as [<- | H];
          [eexists _, _; repeat split; reflexivity|]).
  destruct H.
Qed.

Lemma keyword_at_Some (prev_word : bool) (s : string) (n : nat) :
  keyword_at prev_word s = Some n ->
  prev_word = false /\
  exists k, In k sql_keywords /\ n = String.length k
            /\ startsWith_ci s k = true
            /\ boundary_after (JS.drop n s) = true.
Proof.
  unfold keyword_at. destruct prev_word; [discriminate|].
  destruct (find _ sql_keywords) as [k|] eqn:Hfind; simpl; [|discriminate].
  intros [= <-]. apply find_some in Hfind as [Hin [Hs Hb]%andb_prop].
  split; [reflexivity|]. exists k. auto.
Qed.

Lemma keyword_at_None (s k : string) :
  keyword_at false s = None -> In k sql_keywords ->
  startsWith_ci s k = true ->
  boundary_after (JS.drop (String.length k) s) = false.
Proof.
  unfold keyword_at.
  destruct (find _ sql_keywords) as [|] eqn:Hfind; simpl; [discriminate|].
  intros _ Hin Hs. pose proof (find_none _ _ Hfind k Hin) as Hk.
  simpl in Hk. now rewrite Hs in Hk.
Qed.

(** No keyword starts at a code unit outside the word characters. *)
Lemma keyword_at_nonword (prev_word : bool) (c : ascii) (r : string) :
  JS.is_word c = false -> keyword_at prev_word (String c r) = None.
Proof.
  intros Hc. destruct (keyword_at prev_word (String c r)) eqn:Hat; [|done].
  apply keyword_at_Some in Hat as (_ & k & Hin & _ & Hs & _).
  destruct (keywords_shape k Hin) as (a & w & -> & Ha & _).
  simpl in Hs. apply andb_prop in Hs as [Heq _].
  rewrite (eqb_ci_word a c Heq Ha) in Hc. discriminate.
Qed.

(** After a word character the scan keeps a run of word characters, and
    the boundary that follows it, as they are. *)
Lemma word_prefix_kept (w r : string) :
  free_of (fun c => negb (JS.is_word c)) w = true ->
  startsWith_ci (strip_keywords_from true 0 r) w = true ->
  boundary_after (JS.drop (String.length w) (strip_keywords_from true 0 r))
    = true ->
  startsWith_ci r w = true
  /\ boundary_after (JS.drop (String.length w) r) = true.
Proof.
  revert r. induction w as [|a w IH]; intros r Hw Hs Hb.
  - split; [done|]. destruct r as [|c r]; [done|]. exact Hb.
  - destruct r as [|c r]; [discriminate Hs|].
    simpl in Hw. apply andb_prop in Hw as [Ha Hw].
    apply negb_true_iff, negb_false_iff in Ha.
    change (strip_keywords_from true 0 (String c r))
      with (String c (strip_keywords_from (JS.is_word c) 0 r)) in Hs, Hb.
    simpl in Hs, Hb. apply andb_prop in Hs as [Heq Hs].
    rewrite (eqb_ci_word a c Heq Ha) in Hs, Hb.
    destruct (IH r Hw Hs Hb) as [Hs' Hb'].
    simpl. now rewrite Heq, Hs'.
Qed.

(** What the first pattern returns holds no keyword as a whole word;
    the second half of the statement is the scan in the middle of a
    match, with [skip] code units of the keyword still to drop. *)
Lemma strip_keywords_from_clean (s : string) :
  (forall prev_word,
     keyword_word_in prev_word (strip_keywords_from prev_word 0 s) = false)
  /\ (forall skip prev_in,
        boundary_after (JS.drop skip s) = true ->
        keyword_word_in false (strip_keywords_from prev_in skip s) = false).
Proof.
  induction s as [|c r [IHscan IHskip]];
    [split; [done | now intros [|skip]] |].
  split.
  - intros prev_word.
    change (strip_keywords_from prev_word 0 (String c r))
      with (match keyword_at prev_word (String c r) with
            | Some n => strip_keywords_from (JS.is_word c) (Nat.pred n) r
            | None => String c (strip_keywords_from (JS.is_word c) 0 r)
            end).
    destruct (keyword_at prev_word (String c r)) as [n|] eqn:Hat.
    + apply keyword_at_Some in Hat as (-> & k & Hin & -> & _ & Hb).
      destruct (keywords_shape k Hin) as (a & w & -> & _).
      apply IHskip. exact Hb.
    + cbn [keyword_word_in]. rewrite IHscan.
      destruct (keyword_at prev_word
                  (String c (strip_keywords_from (JS.is_word c) 0 r)))
        as [n|] eqn:Hout; [|done].
      exfalso.
      apply keyword_at_Some in Hout as (-> & k & Hin & -> & Hs & Hb).
      destruct (keywords_shape k Hin) as (a & w & -> & Ha & Hw).
      simpl in Hs, Hb. apply andb_prop in Hs as [Heq Hs].
      rewrite (eqb_ci_word a c Heq Ha) in Hs, Hb.
      destruct (word_prefix_kept w r Hw Hs Hb) as [Hs' Hb'].
      pose proof (keyword_at_None (String c r) (String a w) Hat Hin) as Hno.
      simpl in Hno. rewrite Heq, Hs' in Hno. specialize (Hno eq_refl).
      congruence.
  - intros [|skip] prev_in Hb.
    + simpl in Hb. apply negb_true_iff in Hb.
      change (strip_keywords_from prev_in 0 (String c r))
        with (match keyword_at prev_in (String c r) with
              | Some n => strip_keywords_from (JS.is_word c) (Nat.pred n) r
              | None => String c (strip_keywords_from (JS.is_word c) 0 r)
              end).
      rewrite (keyword_at_nonword prev_in c r Hb).
      cbn [keyword_word_in].
      rewrite (keyword_at_nonword false c _ Hb). apply IHscan.
    + apply IHskip. exact Hb.
Qed.

(** C4, amended.  With SQL-injection protection enabled, the output of
    [sanitizeSQLParameter] on a string contains no semicolon and no
    other code unit of the second pattern, and no two dashes side by
    side.  The first pattern removes every keyword that stands as a whole
    word: what it returns holds none.  The output itself can hold a
    keyword, put together when the code units between its letters are
    removed afterwards. *)
Theorem sanitizeSQLParameter_output
    (config : SecurityConfig) (input : string) :
  enableSQLInjectionProtection config = true ->
  exists out,
    sanitizeSQLParameter config (JS.Str input) = JS.Str out /\
    JS.includes out ";" = false /\
    JS.includes out "--" = false /\
    free_of sql_metachar out = true /\
    keyword_word_in false (strip_keywords input) = false.
Proof.
  intros Hon. unfold sanitizeSQLParameter. rewrite Hon; simpl.
  eexists; split; [reflexivity|].
  unfold sanitizeSQLString; simpl.
  set (cleaned := strip_metachars (strip_keywords input)).
  assert (Hfree : free_of sql_metachar (strip_comment_markers cleaned) = true)
    by apply strip_comment_markers_free, strip_metachars_free.
  split; [|split; [|split]].
  - now apply (free_of_includes sql_metachar).
  - apply strip_comment_markers_dashes.
    apply (free_of_weaken sql_metachar); [apply star_is_metachar|].
    apply strip_metachars_free.
  - exact Hfree.
  - apply (proj1 (strip_keywords_from_clean input)).
Qed.

Lemma sanitizeSQLParameter_output_witness :
  exists out,
    sanitizeSQLParameter defaultSecurityConfig
      (JS.Str "'; DROP TABLE users; --") = JS.Str out /\
    JS.includes out ";" = false /\
    JS.includes out "--" = false.
Proof.
  destruct (sanitizeSQLParameter_output defaultSecurityConfig
              "'; DROP TABLE users; --")
    as (out & Hout & Hsemi & Hdash & _).
  - reflexivity.
  - exists out. repeat split; assumption.
Defined.

End sql_facts.

(* ================================================================== *)
(** * Part III: further properties of the code                         *)
(* ================================================================== *)

(** ** Shapes of strings *)

Section shape_facts.

#[local] Arguments Ascii.eqb : simpl never.

Lemma is_dot_eqb (c : ascii) : Sanitizer.is_dot c = Ascii.eqb "." c.
Proof.
  apply Bool.eqb_prop.
  exact (ascii_check
           (fun c => Bool.eqb (Sanitizer.is_dot c) (Ascii.eqb "." c))
           ltac:(vm_compute; reflexivity) c).
Qed.

Lemma is_dot_char (c : ascii) : Sanitizer.is_dot c = true -> c = "."%char.
Proof. rewrite is_dot_eqb. intros H%Ascii.eqb_eq. congruence. Qed.

Lemma includes_pair (s : string) (c : ascii) :
  JS.includes s (String c (String c EmptyString)) = has_pair (Ascii.eqb c) s.
Proof.
  induction s as [|a r IH]; [reflexivity|].
  change (JS.includes (String a r) (String c (String c EmptyString)))
    with ((Ascii.eqb c a && JS.startsWith r (String c EmptyString))
          || JS.includes r (String c (String c EmptyString))).
  rewrite IH. simpl. f_equal. f_equal.
  destruct r as [|b r']; [reflexivity|]. simpl. apply andb_true_r.
Qed.

Lemma startsWith_char (s : string) (c : ascii) :
  JS.startsWith s (String c EmptyString) = head_is (Ascii.eqb c) s.
Proof. destruct s; simpl; [reflexivity | apply andb_true_r]. Qed.

Lemma drop_all_but_one (a : ascii) (r : string) :
  r <> EmptyString ->
  JS.drop (String.length (String a r) - 1) (String a r)
  = JS.drop (String.length r - 1) r.
Proof.
  destruct r as [|b r']; [congruence|]. intros _. simpl.
  now rewrite Nat.sub_0_r.
Qed.

Lemma endsWith_char (s : string) (c : ascii) :
  JS.endsWith s (String c EmptyString) = last_is (Ascii.eqb c) s.
Proof.
  unfold JS.endsWith. induction s as [|a r IH]; [reflexivity|].
  destruct r as [|b r'].
  - simpl. destruct (Ascii.eqb_spec a c) as [->|Hne].
    + now rewrite Ascii.eqb_refl.
    + destruct (Ascii.eqb_spec c a); congruence.
  - rewrite drop_all_but_one by discriminate.
    change (last_is (Ascii.eqb c) (String a (String b r')))
      with (last_is (Ascii.eqb c) (String b r')).
    rewrite <- IH. reflexivity.
Qed.

Lemma has_pair_ext (p q : ascii -> bool) (s : string) :
  (forall c, p c = q c) -> has_pair p s = has_pair q s.
Proof.
  intros Hpq. induction s as [|a r IH]; simpl; [reflexivity|].
  rewrite IH, Hpq. now destruct r; simpl; rewrite ?Hpq.
Qed.

Lemma head_is_ext (p q : ascii -> bool) (s : string) :
  (forall c, p c = q c) -> head_is p s = head_is q s.
Proof. intros Hpq. destruct s; simpl; auto. Qed.

Lemma last_is_ext (p q : ascii -> bool) (s : string) :
  (forall c, p c = q c) -> last_is p s = last_is q s.
Proof.
  intros Hpq. induction s as [|a r IH]; [reflexivity|].
  destruct r; simpl in *; auto.
Qed.

End shape_facts.

(** ** [sanitizeFilename] *)

Section filename_facts.

Import Sanitizer.

#[local] Open Scope nat_scope.

#[local] Arguments Ascii.eqb : simpl never.

Lemma free_of_take (p : ascii -> bool) (n : nat) (s : string) :
  free_of p s = true -> free_of p (JS.take n s) = true.
Proof.
  revert s. induction n as [|n IH]; intros [|c r]; simpl; try done.
  intros [Hc Hr]%andb_prop. now rewrite Hc, IH.
Qed.

Lemma free_of_strip_leading (p : ascii -> bool) (s : string) :
  free_of p s = true -> free_of p (strip_leading_dots s) = true.
Proof.
  induction s as [|c r IH]; [done|]. simpl.
  intros [Hc Hr]%andb_prop. destruct (is_dot c); [auto|].
  simpl. now rewrite Hc, Hr.
Qed.

Lemma free_of_strip_trailing (p : ascii -> bool) (s : string) :
  free_of p s = true -> free_of p (strip_trailing_dots s) = true.
Proof.
  induction s as [|c r IH]; [done|]. simpl.
  intros [Hc Hr]%andb_prop. specialize (IH Hr).
  destruct (strip_trailing_dots r) as [|b r'].
  - destruct (is_dot c); simpl; [done | now rewrite Hc].
  - change (negb (p c) && free_of p (String b r') = true).
    now rewrite Hc, IH.
Qed.

Lemma free_of_collapse (p : ascii -> bool) (in_run : bool) (s : string) :
  free_of p s = true -> free_of p (collapse_dots in_run s) = true.
Proof.
  revert in_run. induction s as [|c r IH]; intros in_run; [done|]. simpl.
  intros [Hc Hr]%andb_prop.
  destruct (is_dot c) eqn:Hdot.
  - apply is_dot_char in Hdot as ->.
    destruct in_run; [now apply IH|].
    change (negb (p ".") && free_of p (collapse_dots true r) = true)%char.
    rewrite Hc. now apply IH.
  - change (negb (p c) && free_of p (collapse_dots false r) = true).
    rewrite Hc. now apply IH.
Qed.

Lemma only_replace_unsafe (s : string) :
  only filename_char (replace_unsafe s) = true.
Proof.
  unfold only. induction s as [|c r IH]; [done|]. simpl. rewrite IH.
  now destruct (filename_char c) eqn:Hc; rewrite ?Hc.
Qed.

Lemma filename_only (filename : string) :
  only filename_char (sanitizeFilename filename) = true.
Proof.
  unfold sanitizeFilename, trim_dots, only.
  apply free_of_take, free_of_strip_trailing, free_of_strip_leading,
    free_of_collapse, only_replace_unsafe.
Qed.

(** X1.  Whatever the name, what [sanitizeFilename] returns is made of
    letters, digits, dash, underscore and dot only; so it holds no
    slash, no backslash and no space. *)
Theorem sanitizeFilename_alphabet (filename : string) :
  only filename_char (sanitizeFilename filename) = true
  /\ JS.includes (sanitizeFilename filename) "/" = false
  /\ JS.includes (sanitizeFilename filename) "\" = false
  /\ JS.includes (sanitizeFilename filename) " " = false.
Proof.
  pose proof (filename_only filename) as Honly.
  split; [exact Honly|].
  repeat split;
    apply (free_of_includes (fun c => negb (filename_char c)));
    solve [exact Honly | reflexivity].
Qed.

(** *** Dots *)

Lemma has_pair_tail (p : ascii -> bool) (a : ascii) (r : string) :
  has_pair p (String a r) = false -> has_pair p r = false.
Proof. simpl. now intros [_ H]%orb_false_elim. Qed.

Lemma collapse_dots_shape (in_run : bool) (s : string) :
  has_pair is_dot (collapse_dots in_run s) = false
  /\ (in_run = true -> head_is is_dot (collapse_dots in_run s) = false).
Proof.
  revert in_run. induction s as [|c r IH]; intros in_run; [done|]. simpl.
  destruct (is_dot c) eqn:Hdot.
  - destruct (IH true) as [Hpair Hhead]. destruct in_run.
    + auto.
    + split; [|discriminate].
      change (is_dot "." && head_is is_dot (collapse_dots true r)
              || has_pair is_dot (collapse_dots true r) = false)%char.
      now rewrite Hpair, (Hhead eq_refl), andb_false_r.
  - destruct (IH false) as [Hpair _]. split; [|simpl; auto].
    change (is_dot c && head_is is_dot (collapse_dots false r)
            || has_pair is_dot (collapse_dots false r) = false).
    now rewrite Hdot, Hpair.
Qed.

Lemma strip_leading_dots_shape (s : string) :
  head_is is_dot (strip_leading_dots s) = false
  /\ (has_pair is_dot s = false ->
      has_pair is_dot (strip_leading_dots s) = false)
  /\ String.length (strip_leading_dots s) <= String.length s.
Proof.
  induction s as [|c r (IHhead & IHpair & IHlen)]; [done|]. simpl.
  destruct (is_dot c) eqn:Hdot.
  - split; [exact IHhead|]. split; [|lia].
    intros [_ H]%orb_false_elim. auto.
  - split; [exact Hdot|]. split; [|simpl; lia].
    simpl. now rewrite Hdot.
Qed.

Lemma strip_trailing_dots_head (p : ascii -> bool) (s : string) :
  head_is p (strip_trailing_dots s) = true -> head_is p s = true.
Proof.
  destruct s as [|c r]; [done|]. simpl.
  destruct (strip_trailing_dots r); [destruct (is_dot c)|]; simpl; auto.
  discriminate.
Qed.

Lemma strip_trailing_dots_shape (s : string) :
  last_is is_dot (strip_trailing_dots s) = false
  /\ (has_pair is_dot s = false ->
      has_pair is_dot (strip_trailing_dots s) = false)
  /\ String.length (strip_trailing_dots s) <= String.length s.
Proof.
  induction s as [|c r (IHlast & IHpair & IHlen)]; [done|].
  pose proof (strip_trailing_dots_head is_dot r) as Hhead.
  simpl. destruct (strip_trailing_dots r) as [|b r'] eqn:Hr.
  - destruct (is_dot c) eqn:Hdot; simpl; rewrite ?Hdot;
      (split; [reflexivity|]; split; [reflexivity | lia]).
  - split; [exact IHlast|]. split; [|simpl in *; lia].
    intros [Hc Hrest]%orb_false_elim.
    change (is_dot c && head_is is_dot (String b r')
            || has_pair is_dot (String b r') = false).
    rewrite (IHpair Hrest), orb_false_r.
    destruct (is_dot c); [|done]. simpl in Hc |- *.
    destruct (is_dot b) eqn:Hb; [|done].
    now rewrite (Hhead Hb) in Hc.
Qed.

Lemma take_shape (p : ascii -> bool) (n : nat) (s : string) :
  (head_is p (JS.take n s) = true -> head_is p s = true)
  /\ (has_pair p s = false -> has_pair p (JS.take n s) = false)
  /\ String.length (JS.take n s) <= n
  /\ (String.length s <= n -> JS.take n s = s).
Proof.
  revert s. induction n as [|n IH]; intros s.
  { destruct s; simpl;
      (split; [done|]; split; [done|]; split; [lia|]; intros; simpl in *;
       solve [done | lia]). }
  destruct s as [|c r]; simpl.
  { split; [done|]; split; [done|]; split; [lia|]; done. }
  destruct (IH r) as (IHhead & IHpair & IHlen & IHid).
  split; [auto|]. split; [|split; [lia|]].
  - intros [Hc Hrest]%orb_false_elim. rewrite (IHpair Hrest), orb_false_r.
    destruct (p c); [|done]. simpl in *.
    destruct (head_is p (JS.take n r)) eqn:Hh; [|done].
    now rewrite (IHhead eq_refl) in Hc.
  - intros Hlen. f_equal. apply IHid. lia.
Qed.

Lemma replace_unsafe_length (s : string) :
  String.length (replace_unsafe s) = String.length s.
Proof. induction s; simpl; congruence. Qed.

Lemma collapse_dots_length (in_run : bool) (s : string) :
  String.length (collapse_dots in_run s) <= String.length s.
Proof.
  revert in_run. induction s as [|c r IH]; intros in_run; [done|]. simpl.
  pose proof (IH true). pose proof (IH false).
  destruct (is_dot c); [destruct in_run|]; simpl; lia.
Qed.

Lemma filename_shape (filename : string) :
  String.length (sanitizeFilename filename) <= 255
  /\ head_is is_dot (sanitizeFilename filename) = false
  /\ has_pair is_dot (sanitizeFilename filename) = false.
Proof.
  unfold sanitizeFilename, trim_dots.
  set (replaced := replace_unsafe filename).
  set (collapsed := collapse_dots false replaced).
  set (headless := strip_leading_dots collapsed).
  set (trimmed := strip_trailing_dots headless).
  destruct (collapse_dots_shape false replaced) as [Hc _].
  destruct (strip_leading_dots_shape collapsed) as (Hl1 & Hl2 & _).
  destruct (strip_trailing_dots_shape headless) as (_ & Ht2 & _).
  destruct (take_shape is_dot 255 trimmed) as (Hk1 & Hk2 & Hk3 & _).
  split; [exact Hk3|]. split; [|auto].
  destruct (head_is is_dot (JS.take 255 trimmed)) eqn:Hh; [|done].
  specialize (Hk1 eq_refl).
  apply (strip_trailing_dots_head is_dot) in Hk1.
  assert (Hhead : head_is is_dot headless = false) by exact Hl1.
  congruence.
Qed.

Lemma filename_last (filename : string) :
  String.length filename <= 255 ->
  last_is is_dot (sanitizeFilename filename) = false.
Proof.
  intros Hlen. unfold sanitizeFilename, trim_dots.
  set (replaced := replace_unsafe filename).
  set (collapsed := collapse_dots false replaced).
  set (headless := strip_leading_dots collapsed).
  set (trimmed := strip_trailing_dots headless).
  destruct (strip_leading_dots_shape collapsed) as (_ & _ & Hl).
  destruct (strip_trailing_dots_shape headless) as (Hlast & _ & Ht).
  pose proof (collapse_dots_length false replaced) as Hc.
  pose proof (replace_unsafe_length filename) as Hr.
  destruct (take_shape is_dot 255 trimmed) as (_ & _ & _ & Hid).
  rewrite Hid by (subst trimmed headless collapsed replaced; lia).
  exact Hlast.
Qed.

Lemma replace_unsafe_id (s : string) :
  only filename_char s = true -> replace_unsafe s = s.
Proof.
  unfold only. induction s as [|c r IH]; [done|]. simpl.
  intros [Hc Hr]%andb_prop. apply negb_true_iff, negb_false_iff in Hc.
  now rewrite Hc, IH.
Qed.

Lemma collapse_dots_id (in_run : bool) (s : string) :
  has_pair is_dot s = false ->
  (in_run = true -> head_is is_dot s = false) ->
  collapse_dots in_run s = s.
Proof.
  revert in_run. induction s as [|c r IH]; intros in_run; [done|]. simpl.
  intros [Hc Hr]%orb_false_elim Hrun.
  destruct (is_dot c) eqn:Hdot.
  - destruct in_run; [now specialize (Hrun eq_refl)|].
    apply is_dot_char in Hdot as ->. f_equal. now apply IH.
  - f_equal. apply IH; [exact Hr | discriminate].
Qed.

Lemma strip_leading_dots_id (s : string) :
  head_is is_dot s = false -> strip_leading_dots s = s.
Proof. destruct s as [|c r]; [done|]. simpl. now intros ->. Qed.

Lemma strip_trailing_dots_id (s : string) :
  last_is is_dot s = false -> strip_trailing_dots s = s.
Proof.
  induction s as [|c r IH]; [done|]. destruct r as [|b r'].
  - simpl. now intros ->.
  - intros Hlast.
    change (strip_trailing_dots (String c (String b r')))
      with (match strip_trailing_dots (String b r') with
            | EmptyString => if is_dot c then EmptyString
                             else String c EmptyString
            | r0 => String c r0
            end).
    now rewrite (IH Hlast).
Qed.

Lemma clean_is_fixed (filename : string) :
  only filename_char filename = true ->
  has_pair is_dot filename = false ->
  head_is is_dot filename = false ->
  last_is is_dot filename = false ->
  String.length filename <= 255 ->
  sanitizeFilename filename = filename.
Proof.
  intros Honly Hpair Hhead Hlast Hlen. unfold sanitizeFilename, trim_dots.
  rewrite (replace_unsafe_id _ Honly).
  rewrite (collapse_dots_id false _ Hpair) by discriminate.
  rewrite (strip_leading_dots_id _ Hhead), (strip_trailing_dots_id _ Hlast).
  now apply (take_shape is_dot 255 filename).
Qed.

(** X2.  Whatever the name, the result is at most 255 code units long,
    does not start with a dot and holds no two dots in a row: no hidden
    file, no [..] path step. *)
Theorem sanitizeFilename_dots (filename : string) :
  String.length (sanitizeFilename filename) <= 255
  /\ JS.startsWith (sanitizeFilename filename) "." = false
  /\ JS.includes (sanitizeFilename filename) ".." = false.
Proof.
  destruct (filename_shape filename) as (Hlen & Hhead & Hpair).
  rewrite startsWith_char, includes_pair.
  rewrite <- (head_is_ext _ _ _ is_dot_eqb), <- (has_pair_ext _ _ _ is_dot_eqb).
  auto.
Qed.

(** X3.  For a name of at most 255 code units the result does not end
    with a dot either.  (A longer name is cut after the dots are trimmed,
    and the cut can fall just after a dot.) *)
Theorem sanitizeFilename_no_trailing_dot (filename : string) :
  String.length filename <= 255 ->
  JS.endsWith (sanitizeFilename filename) "." = false.
Proof.
  intros Hlen. rewrite endsWith_char, <- (last_is_ext _ _ _ is_dot_eqb).
  now apply filename_last.
Qed.

Lemma sanitizeFilename_no_trailing_dot_witness :
  JS.endsWith (sanitizeFilename "..my report (final)..pdf..") "." = false.
Proof.
  apply (sanitizeFilename_no_trailing_dot "..my report (final)..pdf..").
  simpl. lia.
Defined.

(** X4.  A name that is already clean comes back as it is: made of the
    allowed code units, no two dots in a row, no dot at either end, at
    most 255 code units long. *)
Theorem sanitizeFilename_keeps_clean (filename : string) :
  only filename_char filename = true ->
  JS.includes filename ".." = false ->
  JS.startsWith filename "." = false ->
  JS.endsWith filename "." = false ->
  String.length filename <= 255 ->
  sanitizeFilename filename = filename.
Proof.
  rewrite includes_pair, startsWith_char, endsWith_char.
  rewrite <- (has_pair_ext _ _ _ is_dot_eqb),
    <- (head_is_ext _ _ _ is_dot_eqb), <- (last_is_ext _ _ _ is_dot_eqb).
  intros. now apply clean_is_fixed.
Qed.

Lemma sanitizeFilename_keeps_clean_witness :
  sanitizeFilename "annual-report_2024.v2.pdf" = "annual-report_2024.v2.pdf".
Proof.
  apply (sanitizeFilename_keeps_clean "annual-report_2024.v2.pdf");
    try reflexivity.
  simpl. lia.
Defined.

(** X5.  On a name of at most 255 code units a second pass changes
    nothing. *)
Theorem sanitizeFilename_idempotent (filename : string) :
  String.length filename <= 255 ->
  sanitizeFilename (sanitizeFilename filename) = sanitizeFilename filename.
Proof.
  intros Hlen.
  destruct (filename_shape filename) as (Hshort & Hhead & Hpair).
  apply clean_is_fixed; auto using filename_only, filename_last.
Qed.

Lemma sanitizeFilename_idempotent_witness :
  sanitizeFilename (sanitizeFilename "..my report (final)..pdf..")
  = sanitizeFilename "..my report (final)..pdf..".
Proof.
  apply (sanitizeFilename_idempotent "..my report (final)..pdf..").
  simpl. lia.
Defined.

End filename_facts.

(** ** Random identifiers *)

Section hex_facts.

Import Random.

#[local] Open Scope nat_scope.

Lemma in_all_bytes (b : byte) : In b all_bytes.
Proof.
  unfold all_bytes. apply in_map_iff. exists (N.to_nat (Byte.to_N b)).
  split.
  - now rewrite N2Nat.id, Byte.of_to_N.
  - apply in_seq. pose proof (Byte.to_N_bounded b). lia.
Qed.

Lemma byte_check2 (f : byte -> byte -> bool) :
  forallb (fun a => forallb (f a) all_bytes) all_bytes = true ->
  forall a b, f a b = true.
Proof.
  intros Hall a b. rewrite forallb_forall in Hall.
  specialize (Hall a (in_all_bytes a)). rewrite forallb_forall in Hall.
  apply Hall, in_all_bytes.
Qed.

Lemma byte_check (f : byte -> bool) :
  forallb f all_bytes = true -> forall b, f b = true.
Proof.
  intros Hall b. rewrite forallb_forall in Hall. apply Hall, in_all_bytes.
Qed.

Lemma hex_string_cons (b : byte) (rest : list byte) :
  hex_string (b :: rest) = (hex_byte b +:+ hex_string rest)%string.
Proof.
  unfold hex_string. rewrite fmap_cons.
  generalize (hex_byte <$> rest) as texts, (hex_byte b) as text.
  intros [|t texts] text; simpl; [|reflexivity].
  induction text as [|c text IH]; [reflexivity|].
  change (String c text = String c (text +:+ "")). now f_equal.
Qed.

Lemma hex_byte_inj (a b : byte) : hex_byte a = hex_byte b -> a = b.
Proof.
  intros Heq.
  pose proof (byte_check2
    (fun a b => implb (String.eqb (hex_byte a) (hex_byte b)) (Byte.eqb a b))
    ltac:(vm_compute; reflexivity) a b) as Hcheck.
  cbv beta in Hcheck. rewrite Heq, String.eqb_refl in Hcheck.
  now apply Byte.byte_dec_bl.
Qed.

Lemma hex_byte_shape (b : byte) :
  exists h l, hex_byte b = String h (String l EmptyString)
              /\ is_hex_lower h = true /\ is_hex_lower l = true.
Proof.
  eexists _, _. split; [reflexivity|].
  pose proof (byte_check
    (fun b => match hex_byte b with
              | String h (String l EmptyString) =>
                  is_hex_lower h && is_hex_lower l
              | _ => false
              end) ltac:(vm_compute; reflexivity) b) as Hcheck.
  cbv beta in Hcheck. now apply andb_prop in Hcheck.
Qed.

(** X6.  The identifier made from the random bytes has two lower-case
    hexadecimal digits per byte: 64 of them for the 32 bytes drawn by
    [generateSecureToken] and [generateSecureSessionId]. *)
Theorem hex_string_shape (random : list byte) :
  String.length (hex_string random) = 2 * length random
  /\ only is_hex_lower (hex_string random) = true.
Proof.
  induction random as [|b rest [IHlen IHhex]]; [done|].
  rewrite hex_string_cons.
  destruct (hex_byte_shape b) as (h & l & -> & Hh & Hl).
  change (String h (String l EmptyString) +:+ hex_string rest)%string
    with (String h (String l (hex_string rest))).
  split.
  - cbn [String.length length]. rewrite IHlen. lia.
  - unfold only in *. cbn [free_of]. now rewrite Hh, Hl, IHhex.
Qed.

(** X7.  Different random bytes give different identifiers: the
    encoding loses nothing of what was drawn. *)
Theorem hex_string_inj (random1 random2 : list byte) :
  hex_string random1 = hex_string random2 -> random1 = random2.
Proof.
  revert random2. induction random1 as [|a rest1 IH]; intros [|b rest2].
  - done.
  - rewrite hex_string_cons.
    destruct (hex_byte_shape b) as (h & l & -> & _). discriminate.
  - rewrite hex_string_cons.
    destruct (hex_byte_shape a) as (h & l & -> & _). discriminate.
  - rewrite !hex_string_cons.
    destruct (hex_byte_shape a) as (h & l & Ha & _).
    destruct (hex_byte_shape b) as (h' & l' & Hb & _).
    rewrite Ha, Hb.
    change (String h (String l (hex_string rest1))
            = String h' (String l' (hex_string rest2)) -> a :: rest1 = b :: rest2).
    intros [= -> -> Hrest].
    f_equal; [|now apply IH].
    apply hex_byte_inj. congruence.
Qed.

Lemma hex_string_inj_witness :
  [xab; x01] = [xab; x01].
Proof. apply (hex_string_inj [xab; x01] [xab; x01]). reflexivity. Defined.

End hex_facts.

(** ** The CSRF token manager over histories *)

Section csrf_history_facts.

Import CSRF.

(** What a successful validation found in the store. *)
Lemma validateToken_true now sessionId providedToken (t : tokens) :
  (validateToken now sessionId providedToken t).1 = true ->
  exists td, t !! sessionId = Some td /\ used td = false
             /\ now <= expires td /\ token td = providedToken.
Proof.
  unfold validateToken.
  destruct (t !! sessionId) as [td|]; simpl; [|discriminate].
  destruct (used td) eqn:Hused; [discriminate|].
  destruct (now >? expires td) eqn:Hlate; [discriminate|].
  destruct (String.eqb_spec (token td) providedToken); [|discriminate].
  intros _. exists td. rewrite Z.gtb_ltb, Z.ltb_ge in Hlate.
  split; [reflexivity|]. split; [assumption|]. split; assumption.
Qed.

(** Every record of a store reached from the empty one was written by
    an issuance for its own session, and still carries the token and the
    expiry of that issuance. *)
Lemma stored_records_were_issued (calls : list call) key td :
  run calls !! key = Some td ->
  exists random now0,
    In (Generate random now0 key) calls
    /\ token td = generateSecureToken random
    /\ expires td = now0 + tokenExpiry.
Proof.
  revert key td. induction calls as [|c calls IH] using rev_ind;
    intros key td.
  - unfold run; simpl. now rewrite lookup_empty.
  - rewrite run_snoc.
    assert (Hold : forall td0, run calls !! key = Some td0 ->
              token td0 = token td -> expires td0 = expires td ->
              exists random now0,
                In (Generate random now0 key) (calls ++ [c])
                /\ token td = generateSecureToken random
                /\ expires td = now0 + tokenExpiry).
    { intros td0 Hget Htok Hexp.
      destruct (IH key td0 Hget) as (random & now0 & Hin & Ht & He).
      exists random, now0. rewrite in_app_iff. split; [auto | split; congruence]. }
    destruct c as [random now sid | now sid tok | now]; simpl.
    + rewrite lookup_insert_Some. intros [[<- <-] | [_ Hget]]; [|eauto].
      exists random, now. rewrite in_app_iff. simpl. auto.
    + intros (td0 & Hget & Htok & Hexp)%validateToken_lookup. eauto.
    + intros [Hget _]%cleanup_lookup. eauto.
Qed.

(** X8.  On a store reached by any sequence of calls, [validateToken]
    accepts a token only if an earlier [generateToken] handed out that
    very token for that very session, and no more than the hour of
    validity has passed since. *)
Theorem csrf_accepts_only_issued_tokens
    (calls : list call) (now : Z) (sessionId providedToken : string) :
  (validateToken now sessionId providedToken (run calls)).1 = true ->
  exists random now0,
    In (Generate random now0 sessionId) calls
    /\ providedToken = generateSecureToken random
    /\ now <= now0 + tokenExpiry.
Proof.
  intros (td & Hget & _ & Hlive & Htok)%validateToken_true.
  destruct (stored_records_were_issued calls sessionId td Hget)
    as (random & now0 & Hin & Ht & He).
  exists random, now0. split; [exact Hin|]. split; [congruence | lia].
Qed.

Lemma csrf_accepts_only_issued_tokens_witness :
  exists random now0,
    In (Generate random now0 "sess-1")
       [ Generate [xab] 0 "sess-1"; Cleanup 10 ]
    /\ "ab" = generateSecureToken random
    /\ 20 <= now0 + tokenExpiry.
Proof.
  apply (csrf_accepts_only_issued_tokens
           [ Generate [xab] 0 "sess-1"; Cleanup 10 ] 20 "sess-1" "ab").
  reflexivity.
Defined.

(** *** One validation per issuance *)

Lemma validateToken_keeps_used now sid tok (t : tokens) key td' :
  (validateToken now sid tok t).2 !! key = Some td' ->
  exists td, t !! key = Some td /\ (used td = true -> used td' = true).
Proof.
  unfold validateToken.
  destruct (t !! sid) as [td|] eqn:Hget; simpl; [|eauto].
  repeat case_match; simpl; eauto.
  - intros [_ Hlook]%lookup_delete_Some; eauto.
  - rewrite lookup_insert_Some.
    intros [[<- <-] | [_ Hlook]]; simpl; eauto.
Qed.

Lemma spent_in_step (sessionId : string) (t : tokens) (c : call) :
  reissues sessionId c = false ->
  spent_in sessionId t -> spent_in sessionId (step t c).
Proof.
  intros Hc Hspent td'. destruct c as [random now sid | now sid tok | now];
    simpl in *.
  - apply String.eqb_neq in Hc. rewrite lookup_insert_ne by done.
    apply Hspent.
  - intros (td & Hget & Hused)%validateToken_keeps_used. auto.
  - intros [Hget _]%cleanup_lookup. auto.
Qed.

Lemma spent_in_refused now sessionId tok (t : tokens) :
  spent_in sessionId t -> (validateToken now sessionId tok t).1 = false.
Proof.
  intros Hspent. unfold validateToken.
  destruct (t !! sessionId) as [td|] eqn:Hget; [|done].
  now rewrite (Hspent td Hget).
Qed.

Lemma spent_in_later (sessionId : string) (later : list call) (t : tokens) :
  existsb (reissues sessionId) later = false ->
  spent_in sessionId t -> spent_in sessionId (fold_left step later t).
Proof.
  revert t. induction later as [|c later IH]; intros t; [done|]. simpl.
  intros [Hc Hlater]%orb_false_elim Hspent.
  apply IH; [exact Hlater|]. now apply spent_in_step.
Qed.

(** X9.  A token validates once per issuance.  After a successful
    [validateToken] for a session, whatever calls follow, at whatever
    times and with whatever tokens, no validation for that session
    succeeds until [generateToken] is called for it again. *)
Theorem csrf_one_validation_per_issuance
    (t t1 : tokens) (now now' : Z) (sessionId tok tok' : string)
    (later : list call) :
  validateToken now sessionId tok t = (true, t1) ->
  existsb (reissues sessionId) later = false ->
  (validateToken now' sessionId tok' (fold_left step later t1)).1 = false.
Proof.
  intros Hfirst Hlater. apply spent_in_refused, spent_in_later; [done|].
  assert (Htrue : (validateToken now sessionId tok t).1 = true)
    by now rewrite Hfirst.
  apply validateToken_true in Htrue as (td & Hget & Hfresh & Hlive & Htok).
  unfold validateToken in Hfirst. rewrite Hget, Hfresh in Hfirst.
  replace (now >? expires td) with false in Hfirst
    by (symmetry; rewrite Z.gtb_ltb; apply Z.ltb_ge; lia).
  rewrite Htok, String.eqb_refl in Hfirst. simpl in Hfirst.
  injection Hfirst as <-. intros td'. rewrite lookup_insert_eq.
  now intros [= <-].
Qed.

Lemma csrf_one_validation_per_issuance_witness :
  (validateToken 30 "sess-1" "ab"
     (fold_left step
        [ Validate 5 "sess-1" "ab"; Generate [xcd] 6 "sess-2"; Cleanup 7;
          Validate 8 "sess-2" "cd" ]
        (<["sess-1" := mkTokenData "ab" 3600000 true]> ∅))).1 = false.
Proof.
  apply (csrf_one_validation_per_issuance
           (<["sess-1" := mkTokenData "ab" 3600000 false]> ∅)
           (<["sess-1" := mkTokenData "ab" 3600000 true]> ∅)
           1 30 "sess-1" "ab" "ab").
  - reflexivity.
  - reflexivity.
Defined.

(** X10.  The sweep is invisible to validation: for a call made at the
    time of the sweep or later, [validateToken] answers on the swept
    store as on the store before the sweep.  Sweeping twice is sweeping
    once. *)
Theorem csrf_cleanup_is_transparent
    (t : tokens) (now now' : Z) (sessionId tok : string) :
  (now <= now' ->
     (validateToken now' sessionId tok (cleanup now t)).1
     = (validateToken now' sessionId tok t).1)
  /\ cleanup now (cleanup now t) = cleanup now t.
Proof.
  split.
  - intros Hlater. unfold validateToken.
    destruct (cleanup now t !! sessionId) as [td|] eqn:Hswept.
    + apply cleanup_lookup in Hswept as (-> & _ & _).
      now repeat case_match.
    + destruct (t !! sessionId) as [td|] eqn:Hget; [|reflexivity].
      destruct (used td) eqn:Hused; [reflexivity|].
      destruct (now' >? expires td) eqn:Hlate; [reflexivity|].
      rewrite Z.gtb_ltb, Z.ltb_ge in Hlate.
      assert (Hkept : cleanup now t !! sessionId = Some td)
        by (apply cleanup_lookup; repeat split; auto; lia).
      congruence.
  - apply map_eq. intros key. apply option_eq. intros td.
    rewrite !cleanup_lookup. tauto.
Qed.

Lemma csrf_cleanup_is_transparent_witness :
  (validateToken 3600005 "sess-1" "ab"
     (cleanup 3600001 (<["sess-1" := mkTokenData "ab" 3600000 false]> ∅))).1
  = (validateToken 3600005 "sess-1" "ab"
       (<["sess-1" := mkTokenData "ab" 3600000 false]> ∅)).1.
Proof.
  apply (csrf_cleanup_is_transparent
           (<["sess-1" := mkTokenData "ab" 3600000 false]> ∅)
           3600001 3600005 "sess-1" "ab").
  vm_compute. discriminate.
Defined.

(** X11.  A wrong guess costs the session nothing: presented with a
    token other than the one on record, [validateToken] refuses and
    leaves the store as it is, so that the right token still validates
    afterwards. *)
Theorem csrf_wrong_token_keeps_record
    (t : tokens) (now now' : Z) (sessionId guess : string) (td : tokenData) :
  t !! sessionId = Some td -> used td = false ->
  now <= expires td -> now' <= expires td ->
  guess <> token td ->
  validateToken now sessionId guess t = (false, t)
  /\ (validateToken now' sessionId (token td)
        (validateToken now sessionId guess t).2).1 = true.
Proof.
  intros Hget Hfresh Hlive Hlive' Hguess.
  assert (Hwrong : validateToken now sessionId guess t = (false, t)).
  { unfold validateToken. rewrite Hget, Hfresh.
    replace (now >? expires td) with false
      by (symmetry; rewrite Z.gtb_ltb; apply Z.ltb_ge; lia).
    replace (String.eqb (token td) guess) with false
      by (symmetry; apply String.eqb_neq; congruence).
    reflexivity. }
  split; [exact Hwrong|]. rewrite Hwrong. simpl.
  unfold validateToken. rewrite Hget, Hfresh.
  replace (now' >? expires td) with false
    by (symmetry; rewrite Z.gtb_ltb; apply Z.ltb_ge; lia).
  now rewrite String.eqb_refl.
Qed.

Lemma csrf_wrong_token_keeps_record_witness :
  validateToken 5 "sess-1" "00"
    (<["sess-1" := mkTokenData "ab" 3600000 false]> ∅)
  = (false, <["sess-1" := mkTokenData "ab" 3600000 false]> ∅).
Proof.
  apply (csrf_wrong_token_keeps_record
           (<["sess-1" := mkTokenData "ab" 3600000 false]> ∅)
           5 6 "sess-1" "00" (mkTokenData "ab" 3600000 false));
    try reflexivity; try (vm_compute; discriminate).
Defined.

End csrf_history_facts.

(** ** The session registry over histories *)

Section session_history_facts.

Import Session.

Lemma gtb_false (a b : Z) : (a >? b) = false <-> a <= b.
Proof. rewrite Z.gtb_ltb, Z.ltb_ge. tauto. Qed.

Lemma session_cleanup_lookup now (s : sessions) key sn :
  cleanup now s !! key = Some sn <->
  s !! key = Some sn /\ now - created sn <= maxSessionAge
  /\ now - lastActivity sn <= maxIdleTime.
Proof.
  unfold cleanup. rewrite map_lookup_filter_Some. simpl.
  rewrite orb_false_iff, !gtb_false. tauto.
Qed.

(** What a successful validation found in the registry. *)
Lemma validateSession_true now sessionId ip agent (s : sessions) :
  valid (validateSession now sessionId ip agent s).1 = true ->
  exists sn, s !! sessionId = Some sn
    /\ now - created sn <= maxSessionAge
    /\ now - lastActivity sn <= maxIdleTime
    /\ ipAddress sn = ip
    /\ validateSession now sessionId ip agent s
       = (mkValidation true (Some (userId sn)) None,
          <[sessionId := touched now sn]> s).
Proof.
  unfold validateSession.
  destruct (s !! sessionId) as [sn|]; simpl; [|discriminate].
  destruct (now - created sn >? maxSessionAge) eqn:Hage; [discriminate|].
  destruct (now - lastActivity sn >? maxIdleTime) eqn:Hidle; [discriminate|].
  destruct (String.eqb_spec (ipAddress sn) ip) as [Hip|]; [|discriminate].
  intros _. exists sn. apply gtb_false in Hage, Hidle.
  split; [reflexivity|]. split; [assumption|]. split; [assumption|].
  split; [assumption | reflexivity].
Qed.

(** What [validateSession] leaves under each key: the record it found,
    as it was or with its last activity moved to [now]. *)
Lemma validateSession_lookup now sessionId ip agent (s : sessions) key sn' :
  (validateSession now sessionId ip agent s).2 !! key = Some sn' ->
  exists sn, s !! key = Some sn
    /\ (sn' = sn
        \/ sn' = touched now sn /\ key = sessionId
           /\ now - created sn <= maxSessionAge).
Proof.
  unfold validateSession.
  destruct (s !! sessionId) as [sn|] eqn:Hget; simpl; [|eauto].
  destruct (now - created sn >? maxSessionAge) eqn:Hage; simpl.
  { intros [_ Hlook]%lookup_delete_Some; eauto. }
  destruct (now - lastActivity sn >? maxIdleTime); simpl.
  { intros [_ Hlook]%lookup_delete_Some; eauto. }
  destruct (negb (String.eqb (ipAddress sn) ip)); simpl.
  { intros [_ Hlook]%lookup_delete_Some; eauto. }
  apply gtb_false in Hage. rewrite lookup_insert_Some.
  intros [[<- <-] | [_ Hlook]]; eauto 10.
Qed.

(** X12.  A session just created validates: from the address it was
    created with, within two hours of its creation, [validateSession]
    succeeds with the user id given at creation, whatever the user agent
    presented. *)
Theorem session_create_then_validate
    (random : list byte) (now now' : Z) (userId ip agent agent' : string)
    (s : sessions) :
  now' - now <= maxIdleTime ->
  let created := createSession random now userId ip agent s in
  (validateSession now' created.1 ip agent' created.2).1
  = mkValidation true (Some userId) None.
Proof.
  intros Hsoon. unfold createSession, validateSession; simpl.
  rewrite lookup_insert_eq; simpl.
  replace (now' - now >? maxSessionAge) with false
    by (symmetry; apply gtb_false; unfold maxIdleTime, maxSessionAge in *; lia).
  replace (now' - now >? maxIdleTime) with false
    by (symmetry; now apply gtb_false).
  now rewrite String.eqb_refl.
Qed.

Lemma session_create_then_validate_witness :
  (validateSession 60000 (generateSecureSessionId [xab]) "10.0.0.1" "other"
     (createSession [xab] 0 "alice" "10.0.0.1" "agent" ∅).2).1
  = mkValidation true (Some "alice") None.
Proof.
  apply (session_create_then_validate [xab] 0 60000 "alice" "10.0.0.1"
           "agent" "other" ∅).
  vm_compute. discriminate.
Defined.

(** *** Time stamps *)

Lemma session_step_stamps (t0 : Z) (s : sessions) (c : session_call) :
  chronological t0 [c] = true ->
  (forall key sn, s !! key = Some sn ->
     created sn <= lastActivity sn /\ lastActivity sn <= t0) ->
  exists t1, t0 <= t1
    /\ chronological t0 [c] = true
    /\ (call_time c = Some t1 \/ call_time c = None /\ t1 = t0)
    /\ forall key sn, session_step s c !! key = Some sn ->
         created sn <= lastActivity sn /\ lastActivity sn <= t1.
Proof.
  intros Hc Hinv.
  destruct c as [random now uid ip agent | now sid ip agent | sid | now];
    simpl in Hc |- *.
  - apply andb_prop in Hc as [Hle%Z.leb_le _]. exists now.
    split; [lia|]. split; [now rewrite (proj2 (Z.leb_le _ _) Hle)|].
    split; [auto|]. intros key sn. rewrite lookup_insert_Some.
    intros [[_ <-] | [_ Hget]]; simpl; [lia|].
    specialize (Hinv key sn Hget). lia.
  - apply andb_prop in Hc as [Hle%Z.leb_le _]. exists now.
    split; [lia|]. split; [now rewrite (proj2 (Z.leb_le _ _) Hle)|].
    split; [auto|]. intros key sn'.
    intros (sn & Hget & [-> | (-> & _ & _)])%validateSession_lookup;
      specialize (Hinv key sn Hget); simpl; lia.
  - exists t0. split; [lia|]. split; [reflexivity|]. split; [auto|].
    unfold destroySession. intros key sn [_ Hget]%lookup_delete_Some.
    exact (Hinv key sn Hget).
  - apply andb_prop in Hc as [Hle%Z.leb_le _]. exists now.
    split; [lia|]. split; [now rewrite (proj2 (Z.leb_le _ _) Hle)|].
    split; [auto|]. intros key sn (Hget & _)%session_cleanup_lookup.
    specialize (Hinv key sn Hget). lia.
Qed.

Lemma session_stamps_from (calls : list session_call) (t0 : Z) (s : sessions) :
  chronological t0 calls = true ->
  (forall key sn, s !! key = Some sn ->
     created sn <= lastActivity sn /\ lastActivity sn <= t0) ->
  forall key sn, fold_left session_step calls s !! key = Some sn ->
    created sn <= lastActivity sn.
Proof.
  revert t0 s. induction calls as [|c calls IH]; intros t0 s Hchrono Hinv.
  - intros key sn Hget. now apply (Hinv key sn).
  - simpl.
    assert (Hc : chronological t0 [c] = true).
    { simpl in *. destruct (call_time c); [|reflexivity].
      apply andb_prop in Hchrono as [-> _]. reflexivity. }
    destruct (session_step_stamps t0 s c Hc Hinv)
      as (t1 & Hle & _ & Htime & Hinv').
    apply (IH t1); [|exact Hinv'].
    simpl in Hchrono. destruct Htime as [Ht | [Ht ->]]; rewrite Ht in Hchrono.
    + now apply andb_prop in Hchrono as [_ ?].
    + exact Hchrono.
Qed.

(** X13.  As long as the clock never runs backwards from one call to
    the next, every session of the registry has its last activity at or
    after its creation. *)
Theorem session_activity_follows_creation
    (calls : list session_call) (t0 : Z) (sessionId : string) (sn : session) :
  chronological t0 calls = true ->
  session_run calls !! sessionId = Some sn ->
  created sn <= lastActivity sn.
Proof.
  intros Hchrono. apply (session_stamps_from calls t0 ∅ Hchrono).
  intros key sn0. now rewrite lookup_empty.
Qed.

Lemma session_activity_follows_creation_witness :
  created (mkSession "alice" 5 900 "10.0.0.1" "agent")
  <= lastActivity (mkSession "alice" 5 900 "10.0.0.1" "agent").
Proof.
  apply (session_activity_follows_creation
           [ Create [xab] 5 "alice" "10.0.0.1" "agent";
             Verify 900 "ab" "10.0.0.1" "agent"; Sweep 1000 ]
           0 "ab").
  - reflexivity.
  - reflexivity.
Defined.

(** X14.  The sweep and [validateSession] agree on what is too old: a
    session is kept by [cleanup] at [now] exactly when it passes the two
    time checks at [now], and a session that is kept validates at [now]
    from its own address. *)
Theorem session_cleanup_keeps_the_valid
    (s : sessions) (now : Z) (sessionId agent : string) (sn : session) :
  (cleanup now s !! sessionId = Some sn <->
     s !! sessionId = Some sn
     /\ now - created sn <= maxSessionAge
     /\ now - lastActivity sn <= maxIdleTime)
  /\ (cleanup now s !! sessionId = Some sn ->
      (validateSession now sessionId (ipAddress sn) agent (cleanup now s)).1
      = mkValidation true (Some (userId sn)) None).
Proof.
  split; [apply session_cleanup_lookup|].
  intros Hkept. unfold validateSession. rewrite Hkept.
  apply session_cleanup_lookup in Hkept as (_ & Hage & Hidle).
  apply gtb_false in Hage, Hidle. rewrite Hage, Hidle.
  now rewrite String.eqb_refl.
Qed.

Lemma session_cleanup_keeps_the_valid_witness :
  (validateSession 7200000 "ab" "10.0.0.1" "agent"
     (cleanup 7200000
        (<["ab" := mkSession "alice" 0 3600000 "10.0.0.1" "agent"]> ∅))).1
  = mkValidation true (Some "alice") None.
Proof.
  apply (session_cleanup_keeps_the_valid
           (<["ab" := mkSession "alice" 0 3600000 "10.0.0.1" "agent"]> ∅)
           7200000 "ab" "agent"
           (mkSession "alice" 0 3600000 "10.0.0.1" "agent")).
  reflexivity.
Defined.

(** X15.  One request from another address ends the session for
    everybody: after [validateSession] has refused a live session for an
    IP mismatch, the session is gone, and the next call from the address
    the session was created with finds no session. *)
Theorem session_ip_mismatch_ends_session
    (s : sessions) (now now' : Z) (sessionId ip agent agent' : string)
    (sn : session) :
  s !! sessionId = Some sn ->
  now - created sn <= maxSessionAge ->
  now - lastActivity sn <= maxIdleTime ->
  ip <> ipAddress sn ->
  let after := validateSession now sessionId ip agent s in
  after = (refusal "IP address mismatch", delete sessionId s)
  /\ validateSession now' sessionId (ipAddress sn) agent' after.2
     = (refusal "Session not found", delete sessionId s).
Proof.
  intros Hget Hage%gtb_false Hidle%gtb_false Hip after.
  assert (Hfirst : after = (refusal "IP address mismatch", delete sessionId s)).
  { subst after. unfold validateSession. rewrite Hget, Hage, Hidle.
    replace (String.eqb (ipAddress sn) ip) with false
      by (symmetry; apply String.eqb_neq; congruence).
    reflexivity. }
  split; [exact Hfirst|]. rewrite Hfirst. simpl.
  unfold validateSession. now rewrite lookup_delete_eq.
Qed.

Lemma session_ip_mismatch_ends_session_witness :
  validateSession 60000 "ab" "203.0.113.9" "agent"
    (<["ab" := mkSession "alice" 0 0 "10.0.0.1" "agent"]> ∅)
  = (refusal "IP address mismatch",
     delete "ab" (<["ab" := mkSession "alice" 0 0 "10.0.0.1" "agent"]> ∅)).
Proof.
  apply (session_ip_mismatch_ends_session
           (<["ab" := mkSession "alice" 0 0 "10.0.0.1" "agent"]> ∅)
           60000 60001 "ab" "203.0.113.9" "agent" "agent"
           (mkSession "alice" 0 0 "10.0.0.1" "agent"));
    try reflexivity; vm_compute; discriminate.
Defined.

(** Every session of a registry reached from the empty one was written
    by a [createSession], and still carries the user, the address and the
    creation time of that call. *)
Lemma stored_sessions_were_created (calls : list session_call) key sn :
  session_run calls !! key = Some sn ->
  exists random agent,
    In (Create random (created sn) (userId sn) (ipAddress sn) agent) calls
    /\ key = generateSecureSessionId random.
Proof.
  revert key sn. induction calls as [|c calls IH] using rev_ind;
    intros key sn.
  - unfold session_run; simpl. now rewrite lookup_empty.
  - unfold session_run. rewrite fold_left_app. simpl.
    fold (session_run calls).
    assert (Hold : forall sn0, session_run calls !! key = Some sn0 ->
              created sn0 = created sn -> userId sn0 = userId sn ->
              ipAddress sn0 = ipAddress sn ->
              exists random agent,
                In (Create random (created sn) (userId sn) (ipAddress sn) agent)
                   (calls ++ [c])
                /\ key = generateSecureSessionId random).
    { intros sn0 Hget Hc Hu Hi.
      destruct (IH key sn0 Hget) as (random & agent & Hin & Hkey).
      exists random, agent. rewrite in_app_iff, <- Hc, <- Hu, <- Hi. auto. }
    destruct c as [random now uid ip agent | now sid ip agent | sid | now];
      simpl.
    + rewrite lookup_insert_Some. intros [[<- <-] | [_ Hget]]; [|eauto].
      exists random, agent. rewrite in_app_iff. simpl. auto.
    + intros (sn0 & Hget & [-> | (-> & _ & _)])%validateSession_lookup;
        eauto.
    + unfold destroySession. intros [_ Hget]%lookup_delete_Some. eauto.
    + intros (Hget & _)%session_cleanup_lookup. eauto.
Qed.

(** X16.  On a registry reached by any sequence of calls,
    [validateSession] succeeds only for an identifier that an earlier
    [createSession] returned, only from the address given to that call,
    only within 24 hours of it, however often the session was used in
    between; and the user id it returns is the one given to that call. *)
Theorem session_accepts_only_created
    (calls : list session_call) (now : Z) (sessionId ip agent : string) :
  let out := (validateSession now sessionId ip agent (session_run calls)).1 in
  valid out = true ->
  exists random now0 userId agent0,
    In (Create random now0 userId ip agent0) calls
    /\ sessionId = generateSecureSessionId random
    /\ now - now0 <= maxSessionAge
    /\ validUserId out = Some userId.
Proof.
  intros out Hvalid. subst out.
  destruct (validateSession_true _ _ _ _ _ Hvalid)
    as (sn & Hget & Hage & _ & Hip & ->).
  destruct (stored_sessions_were_created calls sessionId sn Hget)
    as (random & agent0 & Hin & Hkey).
  exists random, (created sn), (userId sn), agent0.
  rewrite <- Hip. auto.
Qed.

Lemma session_accepts_only_created_witness :
  exists random now0 userId agent0,
    In (Create random now0 userId "10.0.0.1" agent0)
       [ Create [xab] 5 "alice" "10.0.0.1" "agent"; Sweep 1000 ]
    /\ "ab" = generateSecureSessionId random
    /\ 2000 - now0 <= maxSessionAge
    /\ validUserId
         (validateSession 2000 "ab" "10.0.0.1" "other"
            (session_run
               [ Create [xab] 5 "alice" "10.0.0.1" "agent"; Sweep 1000 ])).1
       = Some userId.
Proof.
  apply (session_accepts_only_created
           [ Create [xab] 5 "alice" "10.0.0.1" "agent"; Sweep 1000 ]
           2000 "ab" "10.0.0.1" "other").
  reflexivity.
Defined.

End session_history_facts.

(** ** The content scan and [validateFile] *)

Section file_facts.

Import Sanitizer FileUpload.

#[local] Open Scope nat_scope.

Lemma matches_from_spec (bytes : list byte) (signature : list N) (i k : nat) :
  matches_from bytes signature i k = true <->
  forall j, i <= j < i + k ->
    exists b, bytes !! j = Some b /\ signature !! j = Some (Byte.to_N b).
Proof.
  revert i. induction k as [|k IH]; intros i; simpl.
  - split; [intros _ j Hj; lia | done].
  - destruct (bytes !! i) as [b|] eqn:Hb.
    2:{ split; [discriminate|]. intros Hall.
        destruct (Hall i ltac:(lia)) as (b & Hb' & _). congruence. }
    destruct (signature !! i) as [x|] eqn:Hx.
    2:{ split; [discriminate|]. intros Hall.
        destruct (Hall i ltac:(lia)) as (b' & _ & Hx'). congruence. }
    destruct (N.eqb_spec (Byte.to_N b) x) as [<-|Hne]; simpl.
    + rewrite IH. split.
      * intros Hall j Hj. destruct (decide (j = i)) as [->|]; [eauto|].
        apply Hall. lia.
      * intros Hall j Hj. apply Hall. lia.
    + split; [discriminate|]. intros Hall.
      destruct (Hall i ltac:(lia)) as (b' & Hb' & Hx'). congruence.
Qed.

(** [matchesSignature] tells whether the signature is a prefix of the
    content. *)
Lemma matchesSignature_prefix (bytes : list byte) (signature : list N) :
  matchesSignature bytes signature = true <->
  signature `prefix_of` (Byte.to_N <$> bytes).
Proof.
  unfold matchesSignature.
  destruct (Nat.ltb_spec (length bytes) (length signature)) as [Hshort|Hlong].
  - split; [discriminate|]. intros [rest Hrest].
    apply (f_equal length) in Hrest.
    rewrite length_fmap, length_app in Hrest. lia.
  - rewrite matches_from_spec. split.
    + intros Hall. exists (drop (length signature) (Byte.to_N <$> bytes)).
      rewrite <- (take_drop (length signature) (Byte.to_N <$> bytes)) at 1.
      f_equal. apply list_eq. intros j.
      destruct (decide (j < length signature)) as [Hj|Hj].
      * rewrite lookup_take_lt by done.
        destruct (Hall j ltac:(lia)) as (b & Hb & ->).
        now rewrite list_lookup_fmap, Hb.
      * rewrite lookup_take_ge by lia. symmetry.
        apply lookup_ge_None. lia.
    + intros [rest Hrest] j Hj.
      destruct (lookup_lt_is_Some_2 signature j ltac:(lia)) as [x Hx].
      assert (Hlook : (Byte.to_N <$> bytes) !! j = Some x)
        by (rewrite Hrest, lookup_app_l by lia; exact Hx).
      apply list_lookup_fmap_Some in Hlook as (b & -> & Hb). eauto.
Qed.

(** X17.  [matchesSignature] answers [true] exactly when the signature
    is a prefix of the content; a content shorter than the signature
    never matches. *)
Theorem matchesSignature_is_prefix (bytes : list byte) (signature : list N) :
  (matchesSignature bytes signature = true <->
     signature `prefix_of` (Byte.to_N <$> bytes))
  /\ (length bytes < length signature ->
      matchesSignature bytes signature = false).
Proof.
  split; [apply matchesSignature_prefix|].
  intros Hshort. unfold matchesSignature.
  now destruct (Nat.ltb_spec (length bytes) (length signature)); [|lia].
Qed.

Lemma matchesSignature_is_prefix_witness :
  matchesSignature [x7f] [0x7F; 0x45; 0x4C; 0x46]%N = false.
Proof.
  apply (matchesSignature_is_prefix [x7f] [0x7F; 0x45; 0x4C; 0x46]%N).
  simpl. lia.
Defined.

(** X18.  [scanFileContent] returns its one message when the content
    starts with one of the four magic numbers of the table, and no
    message otherwise; an empty content gets none. *)
Theorem scanFileContent_reports_magic_numbers (content : list byte) :
  ((exists signature, In signature signatures
      /\ signature `prefix_of` (Byte.to_N <$> content)) ->
   scanFileContent content = [ "File contains executable code" ])
  /\ ((forall signature, In signature signatures ->
         ~ signature `prefix_of` (Byte.to_N <$> content)) ->
      scanFileContent content = [])
  /\ scanFileContent [] = [].
Proof.
  unfold scanFileContent. split; [|split; [|reflexivity]].
  - intros (signature & Hin & Hpre%matchesSignature_prefix).
    replace (existsb (matchesSignature content) signatures) with true;
      [reflexivity|].
    symmetry. apply existsb_exists. eauto.
  - intros Hnone.
    destruct (existsb (matchesSignature content) signatures) eqn:Hsome;
      [|reflexivity].
    apply existsb_exists in Hsome as (signature & Hin & Hm).
    apply matchesSignature_prefix in Hm. now destruct (Hnone signature Hin).
Qed.

Lemma scanFileContent_reports_magic_numbers_witness :
  scanFileContent [x7f; x45; x4c; x46; x02; x01]
  = [ "File contains executable code" ].
Proof.
  apply (scanFileContent_reports_magic_numbers
           [x7f; x45; x4c; x46; x02; x01]).
  exists [0x7F; 0x45; 0x4C; 0x46]%N. split.
  - simpl. tauto.
  - exists [2; 1]%N. reflexivity.
Defined.

Lemma array_includes_In (xs : list string) (x : string) :
  JS.array_includes xs x = true <-> In x xs.
Proof.
  unfold JS.array_includes. rewrite existsb_exists. split.
  - intros (y & Hin & Heq%String.eqb_eq). congruence.
  - intros Hin. exists x. split; [exact Hin | apply String.eqb_refl].
Qed.

Lemma no_extension_spec (extensions : list string) (name0 : string) :
  existsb (fun ext => JS.endsWith (JS.toLowerCase name0) ext) extensions
    = false <->
  forall ext, In ext extensions ->
    JS.endsWith (JS.toLowerCase name0) ext = false.
Proof.
  split.
  - intros Hnone ext Hin.
    destruct (JS.endsWith (JS.toLowerCase name0) ext) eqn:Hends; [|done].
    assert (existsb (fun ext => JS.endsWith (JS.toLowerCase name0) ext)
              extensions = true) by (apply existsb_exists; eauto).
    congruence.
  - intros Hall.
    destruct (existsb _ extensions) eqn:Hsome; [|done].
    apply existsb_exists in Hsome as (ext & Hin & Hends).
    rewrite (Hall ext Hin) in Hends. discriminate.
Qed.

(** The three checks of [validateFile] that reach the result. *)
Lemma validateFile_valid fraction_text config file :
  valid (validateFile fraction_text config file) =
  negb (size file >? maxFileSize config)%Z
  && JS.array_includes (allowedFileTypes config) (type file)
  && negb (existsb
             (fun ext => JS.endsWith
                           (JS.toLowerCase (sanitizeFilename (name file))) ext)
             dangerousExtensions).
Proof.
  unfold validateFile; cbv zeta; cbn [valid].
  destruct (size file >? maxFileSize config)%Z,
    (JS.array_includes (allowedFileTypes config) (type file)),
    (existsb _ dangerousExtensions), (content file); reflexivity.
Qed.

Lemma validateFile_name fraction_text config file :
  sanitizedName (validateFile fraction_text config file) =
  if valid (validateFile fraction_text config file)
  then Some (sanitizeFilename (name file)) else None.
Proof. reflexivity. Qed.



(** X20.  The name that [validateFile] hands back for an accepted file
    is safe to store: it is the sanitized name, made of letters, digits,
    dash, underscore and dot, at most 255 code units long, with no dot in
    front, no two dots in a row, and no denylisted extension in any
    letter case. *)
Theorem validateFile_returns_safe_name
    (fraction_text : Z -> Z -> string) (config : SecurityConfig)
    (file : upload) (stored : string) :
  sanitizedName (validateFile fraction_text config file) = Some stored ->
  stored = sanitizeFilename (name file)
  /\ only filename_char stored = true
  /\ String.length stored <= 255
  /\ JS.startsWith stored "." = false
  /\ JS.includes stored ".." = false
  /\ forall ext, In ext dangerousExtensions ->
       JS.endsWith (JS.toLowerCase stored) ext = false.
Proof.
  rewrite validateFile_name.
  destruct (valid (validateFile fraction_text config file)) eqn:Hvalid;
    [|discriminate].
  intros [= <-]. rewrite validateFile_valid in Hvalid.
  apply andb_prop in Hvalid as [_ Hext%negb_true_iff].
  destruct (filename_shape (name file)) as (Hlen & Hhead & Hpair).
  split; [reflexivity|]. split; [apply filename_only|].
  split; [exact Hlen|].
  rewrite startsWith_char, includes_pair.
  rewrite <- (head_is_ext _ _ _ is_dot_eqb), <- (has_pair_ext _ _ _ is_dot_eqb).
  split; [exact Hhead|]. split; [exact Hpair|].
  now apply no_extension_spec.
Qed.

Lemma validateFile_returns_safe_name_witness :
  "holiday_photo.JPG" = sanitizeFilename "holiday photo.JPG".
Proof.
  apply (validateFile_returns_safe_name (fun _ _ => EmptyString)
           defaultSecurityConfig
           (mkUpload "holiday photo.JPG" "image/jpeg" 2048 None)
           "holiday_photo.JPG").
  reflexivity.
Defined.

End file_facts.

(** ** [validateFileUpload] of the middleware, again *)

Section upload_criterion.

Import Middleware.

(** X21.  [validateFileUpload] accepts a file exactly when its declared
    type is on the allow list, its size is at most 10 MiB and its name,
    in lower case, ends with none of the denylisted extensions; it
    reports at most three errors. *)
Theorem validateFileUpload_accepts_iff (file : JS.File) :
  let r := validateFileUpload file in
  (valid r = true <->
     In (JS.file_type file) allowedTypes
     /\ JS.file_size file <= maxSize
     /\ forall ext, In ext dangerousExtensions ->
          JS.endsWith (JS.toLowerCase (JS.file_name file)) ext = false)
  /\ (length (errors r) <= 3)%nat.
Proof.
  intros r. subst r.
  rewrite <- array_includes_In, <- gtb_false, <- no_extension_spec.
  unfold validateFileUpload; cbv zeta; cbn [valid errors].
  destruct (JS.array_includes allowedTypes (JS.file_type file)),
    (JS.file_size file >? maxSize), (existsb _ dangerousExtensions);
    simpl; (split; [|lia]); split; (intros H; try discriminate H);
    repeat split; try reflexivity;
    try (destruct H as (H1 & H2 & H3); discriminate).
Qed.

Lemma validateFileUpload_accepts_iff_witness :
  valid (validateFileUpload (JS.mkFile "minutes.pdf" "application/pdf" 4096))
  = true.
Proof.
  apply (validateFileUpload_accepts_iff
           (JS.mkFile "minutes.pdf" "application/pdf" 4096)).
  split; [simpl; tauto|]. split; [vm_compute; discriminate|].
  intros ext Hin. simpl in Hin.
  repeat (destruct Hin as [<- | Hin]; [reflexivity|]). destruct Hin.
Defined.

End upload_criterion.

(** ** [sanitizeFormData], again *)

Section form_data_edges.

Import Middleware.

Variable purify : string -> string.

(** X22.  With input sanitization enabled and an input made of JSON
    values, [undefined] and files, [sanitizeFormData] throws on [null]
    and on [undefined] and on nothing else; whatever else it is given, it
    returns an object, the empty plain object for a number, a boolean or
    a [File].  It does throw on a [FormData] that gives a [File] under
    the name [__proto__] and next a field named as an attribute of a
    [File]: the second assignment finds an accessor without a setter. *)
Theorem sanitizeFormData_errors
    (config : SecurityMiddlewareConfig) (formData : JS.value) :
  (plain_data formData ->
     (sanitizeFormData purify config formData = None <->
        enableInputSanitization config = true
        /\ (formData = JS.Null \/ formData = JS.Undefined))
     /\ (enableInputSanitization config = true ->
         forall out, sanitizeFormData purify config formData = Some out ->
           JS.typeof out = "object" /\ out <> JS.Null))
  /\ (enableInputSanitization config = true ->
      (exists n, formData = JS.Num n) \/ (exists b, formData = JS.Bool b)
      \/ (exists f, formData = JS.FileObj f) ->
      sanitizeFormData purify config formData = Some (JS.Obj ∅))
  /\ (enableInputSanitization config = true ->
      forall f key v rest,
        In key JS.file_attributes ->
        formData
        = JS.FormData (("__proto__", JS.FileObj f) :: (key, v) :: rest) ->
        sanitizeFormData purify config formData = None).
Proof.
  unfold sanitizeFormData.
  destruct (enableInputSanitization config); cbn [negb].
  - split; [|split].
    + intros Hplain.
      destruct (sanitized_plain purify formData Hplain) as (o & Ho & _).
      rewrite Ho. split.
      * destruct formData; split; try discriminate; try tauto;
          intros [_ [H | H]]; discriminate H.
      * intros _ out Hout.
        assert (Hobj : out = JS.to_value o)
          by (destruct formData; congruence).
        rewrite Hobj. unfold JS.to_value.
        destruct (JS.proto o); split; (reflexivity || discriminate).
    + intros _ [[n ->] | [[b ->] | [f ->]]]; reflexivity.
    + intros _ f key v rest Hkey ->.
      assert (Hfold : sanitized purify
                (JS.FormData (("__proto__", JS.FileObj f) :: (key, v) :: rest))
              = None).
      { cbn [sanitized fold_left assign fst snd sanitize_field].
        rewrite (set_prop_proto (JS.FileObj f) JS.literal eq_refl
                   (lookup_empty _)).
        cbn [JS.is_prototype assign]. unfold JS.set_prop, JS.literal.
        cbn [JS.own JS.proto JS.inherited].
        assert (Hattr : JS.array_includes JS.file_attributes key = true).
        { unfold JS.array_includes. apply existsb_exists. exists key.
          split; [exact Hkey | apply String.eqb_refl]. }
        rewrite lookup_empty, Hattr.
        apply (fold_assign_None
                 (fun entry => (entry.1, Some (sanitize_field purify entry.2)))). }
      now rewrite Hfold.
  - split; [|split]; try discriminate.
    intros _. split; [|discriminate].
    split; [discriminate | intros [H _]; discriminate H].
Qed.

(** X23.  From a [FormData] that gives no [File] under the name
    [__proto__], [sanitizeFormData] builds a plain object with one
    property per field name (the name [__proto__] apart): under a name
    given several times it keeps the value given last; a string is
    replaced by the text sanitizer's output, a [File] is kept as it
    is. *)
Theorem sanitizeFormData_of_FormData
    (config : SecurityMiddlewareConfig)
    (entries : list (string * JS.value)) :
  enableInputSanitization config = true ->
  (forall v, In ("__proto__", v) entries -> exists s, v = JS.Str s) ->
  exists out,
    sanitizeFormData purify config (JS.FormData entries) = Some (JS.Obj out)
    /\ out !! "__proto__" = None
    /\ (forall key, key <> "__proto__" ->
          out !! key = sanitize_field purify <$> last_value key entries)
    /\ (forall key s, key <> "__proto__" ->
          last_value key entries = Some (JS.Str s) ->
          out !! key = Some (JS.Str (sanitizeText purify s)))
    /\ (forall key f, key <> "__proto__" ->
          last_value key entries = Some (JS.FileObj f) ->
          out !! key = Some (JS.FileObj f)).
Proof.
  intros Hon Hproto. unfold sanitizeFormData. rewrite Hon. cbn [negb].
  destruct (form_fold_standard purify entries ∅ (lookup_empty _) Hproto)
    as (out & Hout & Hnone & Hfold).
  change (sanitized purify (JS.FormData entries) = Some (JS.mkObject None out))
    in Hout.
  rewrite Hout. exists out. split; [reflexivity|]. split; [exact Hnone|].
  assert (Hlook : forall key, key <> "__proto__" ->
            out !! key = sanitize_field purify <$> last_value key entries).
  { intros key Hkey. rewrite (Hfold key Hkey), lookup_empty.
    apply (last_value_fmap _ key entries None). }
  split; [exact Hlook|]. split.
  - intros key s Hkey Hlast. now rewrite (Hlook key Hkey), Hlast.
  - intros key f Hkey Hlast. now rewrite (Hlook key Hkey), Hlast.
Qed.

End form_data_edges.

Section form_data_edges_witness.

Import Middleware.

Lemma sanitizeFormData_errors_witness :
  sanitizeFormData id securityMiddleware
    (JS.FormData [ ("__proto__", JS.FileObj (JS.mkFile "a.png" "image/png" 3));
                   ("name", JS.Str "bob") ])
  = None
  /\ sanitizeFormData id securityMiddleware (JS.Num 7) = Some (JS.Obj ∅)
  /\ sanitizeFormData id securityMiddleware JS.Null = None.
Proof.
  split; [|split].
  - destruct (sanitizeFormData_errors id securityMiddleware
                (JS.FormData
                   [ ("__proto__",
                      JS.FileObj (JS.mkFile "a.png" "image/png" 3));
                     ("name", JS.Str "bob") ])) as (_ & _ & Hthrow).
    apply (Hthrow eq_refl (JS.mkFile "a.png" "image/png" 3) "name"
             (JS.Str "bob") []).
    + right; right; left; reflexivity.
    + reflexivity.
  - destruct (sanitizeFormData_errors id securityMiddleware (JS.Num 7))
      as (_ & Hempty & _).
    apply (Hempty eq_refl). left. now exists 7.
  - destruct (sanitizeFormData_errors id securityMiddleware JS.Null)
      as (Hplain & _ & _).
    destruct (Hplain pd_null) as [Hthrows _].
    apply Hthrows. split; [reflexivity | now left].
Defined.

Lemma sanitizeFormData_of_FormData_witness :
  exists out,
    sanitizeFormData id securityMiddleware
      (JS.FormData [ ("tag", JS.Str "a"); ("tag", JS.Str "b") ])
    = Some (JS.Obj out)
    /\ out !! "tag" = Some (JS.Str "b").
Proof.
  destruct (sanitizeFormData_of_FormData id securityMiddleware
              [ ("tag", JS.Str "a"); ("tag", JS.Str "b") ] eq_refl)
    as (out & Hout & _ & Hlook & _).
  - intros v [[=] | [[=] | []]].
  - exists out. split; [exact Hout|].
    rewrite (Hlook "tag") by discriminate. reflexivity.
Defined.

End form_data_edges_witness.

(** ** [getSessionId] *)

Section session_id_facts.

Import Middleware.

(** X24.  In a browser [getSessionId] settles on one identifier: the
    first call returns a non-empty identifier and stores it, and any call
    after it returns the same identifier and leaves the storage alone,
    whatever [crypto.randomUUID] would have returned.  Outside a browser
    it returns the empty string and touches nothing. *)
Theorem getSessionId_is_stable
    (uuid uuid' : string) (localStorage : gmap string string) :
  uuid <> EmptyString ->
  let first := getSessionId true uuid localStorage in
  first.1 <> EmptyString
  /\ first.2 !! "session-id" = Some first.1
  /\ getSessionId true uuid' first.2 = first
  /\ getSessionId false uuid localStorage = (EmptyString, localStorage).
Proof.
  intros Huuid first. subst first. unfold getSessionId. simpl.
  destruct (localStorage !! "session-id") as [[|c r]|] eqn:Hget; simpl.
  - rewrite lookup_insert_eq. destruct uuid as [|c r]; [done|].
    repeat split; done.
  - rewrite Hget. repeat split; done.
  - rewrite lookup_insert_eq. destruct uuid as [|c r]; [done|].
    repeat split; done.
Qed.

Lemma getSessionId_is_stable_witness :
  getSessionId true "another"
    (getSessionId true "3f2c8a4e-0000-4000-8000-000000000001" ∅).2
  = getSessionId true "3f2c8a4e-0000-4000-8000-000000000001" ∅.
Proof.
  apply (getSessionId_is_stable "3f2c8a4e-0000-4000-8000-000000000001"
           "another" ∅).
  discriminate.
Defined.

End session_id_facts.

(** ** [processRequest] *)

Section pipeline_facts.

Import Pipeline.

(** X25.  [processRequest] hands out a CSRF token exactly for a
    request that is neither GET nor HEAD, whose body parsed, that carries
    a non-empty session id, CSRF enabled; the token is the one made of the
    bytes drawn, it is then on record for that session and validates
    within its hour.  When it hands out no token it leaves the token
    store as it is. *)
Theorem processRequest_token
    (config : Sanitizer.SecurityConfig) (random : list byte) (now : Z)
    (request : request) (t : CSRF.tokens) :
  let out := processRequest config random now request t in
  (forall token, csrfToken out.1 = Some token <->
     (exists sessionId,
        sessionHeader request = Some sessionId /\ sessionId <> EmptyString)
     /\ Sanitizer.enableCSRF config = true
     /\ method request <> "GET" /\ method request <> "HEAD"
     /\ is_Some (json request)
     /\ token = CSRF.generateSecureToken random)
  /\ (forall token sessionId,
        csrfToken out.1 = Some token ->
        sessionHeader request = Some sessionId ->
        forall now', now' <= now + CSRF.tokenExpiry ->
          (CSRF.validateToken now' sessionId token out.2).1 = true)
  /\ (csrfToken out.1 = None -> out.2 = t).
Proof.
  intros out. subst out. unfold processRequest.
  assert (Hno : forall (o : outcome) (P : string -> Prop),
            csrfToken o = None ->
            (forall token, csrfToken o = Some token <-> P token) <->
            (forall token, ~ P token)).
  { intros o P Hnone. rewrite Hnone. split; intros H token.
    - intros HP. now apply H in HP.
    - split; [discriminate | intros HP; now apply H in HP]. }
  destruct (String.eqb_spec (method request) "GET") as [Hget|Hget];
    cbn [negb andb].
  { split; [|split; [discriminate | reflexivity]].
    apply Hno; [reflexivity|]. intros token (_ & _ & Hm & _). now apply Hm. }
  destruct (String.eqb_spec (method request) "HEAD") as [Hhead|Hhead];
    cbn [negb andb].
  { split; [|split; [discriminate | reflexivity]].
    apply Hno; [reflexivity|].
    intros token (_ & _ & _ & Hm & _). now apply Hm. }
  destruct (json request) as [body|].
  2:{ split; [|split; [discriminate | reflexivity]].
      apply Hno; [reflexivity|].
      intros token (_ & _ & _ & _ & [? [=]] & _). }
  destruct (sessionHeader request) as [[|c r]|].
  1:{ split; [|split; [discriminate | reflexivity]].
      apply Hno; [reflexivity|].
      intros token ((sid & [= <-] & Hsid) & _). now apply Hsid. }
  2:{ split; [|split; [discriminate | reflexivity]].
      apply Hno; [reflexivity|]. intros token ((sid & [=] & _) & _). }
  destruct (Sanitizer.enableCSRF config).
  2:{ split; [|split; [discriminate | reflexivity]].
      apply Hno; [reflexivity|]. intros token (_ & [=] & _). }
  cbn [csrfToken fst snd]. split; [|split; [|discriminate]].
  - intros token. split.
    + intros [= <-]. split; [exists (String c r); split; [reflexivity | discriminate]|].
      split; [reflexivity|]. split; [exact Hget|]. split; [exact Hhead|].
      split; [now eexists | reflexivity].
    + intros (_ & _ & _ & _ & _ & ->). reflexivity.
  - intros token sessionId [= <-] [= <-] now' Hlive.
    unfold CSRF.generateToken, CSRF.validateToken. cbn [fst snd].
    rewrite lookup_insert_eq. simpl.
    replace (now' >? now + CSRF.tokenExpiry) with false
      by (symmetry; now apply gtb_false).
    now rewrite String.eqb_refl.
Qed.

Lemma processRequest_token_witness :
  csrfToken
    (processRequest Sanitizer.defaultSecurityConfig [xab] 0
       (mkRequest "POST" (Some JS.Null) (Some "sess-1")) ∅).1
  = Some "ab"
  /\ (CSRF.validateToken 5 "sess-1" "ab"
        (processRequest Sanitizer.defaultSecurityConfig [xab] 0
           (mkRequest "POST" (Some JS.Null) (Some "sess-1")) ∅).2).1
     = true.
Proof.
  destruct (processRequest_token Sanitizer.defaultSecurityConfig [xab] 0
              (mkRequest "POST" (Some JS.Null) (Some "sess-1")) ∅)
    as (Hissued & Hvalid & _).
  assert (Htoken : csrfToken
            (processRequest Sanitizer.defaultSecurityConfig [xab] 0
               (mkRequest "POST" (Some JS.Null) (Some "sess-1")) ∅).1
          = Some "ab").
  { apply (Hissued "ab").
    split; [exists "sess-1"; split; [reflexivity | discriminate]|].
    split; [reflexivity|]. split; [discriminate|]. split; [discriminate|].
    split; [now eexists | reflexivity]. }
  split; [exact Htoken|].
  apply (Hvalid "ab" "sess-1" Htoken eq_refl). unfold CSRF.tokenExpiry. lia.
Defined.

(** X26.  [processRequest] runs the SQL stripper on the parsed body as
    a whole: a body that is a string is stripped, a body of any other
    kind (an object, an array, a number) comes back as it was, the
    strings inside it untouched.  A body that does not parse gives the
    one error, no body and no token, and leaves the token store as it
    is; a GET or HEAD request is not read at all. *)
Theorem processRequest_body
    (config : Sanitizer.SecurityConfig) (random : list byte) (now : Z)
    (request : request) (t : CSRF.tokens) :
  let out := processRequest config random now request t in
  (method request <> "GET" -> method request <> "HEAD" ->
     (forall body, json request = Some body ->
        (forall s, body <> JS.Str s) ->
        sanitizedBody out.1 = Some body /\ errors out.1 = [])
     /\ (forall s, json request = Some (JS.Str s) ->
           Sanitizer.enableSQLInjectionProtection config = true ->
           sanitizedBody out.1 = Some (JS.Str (Sanitizer.sanitizeSQLString s)))
     /\ (json request = None ->
           out = (mkOutcome None Headers.getHeaders None
                    [ "Invalid request body" ], t)))
  /\ (method request = "GET" \/ method request = "HEAD" ->
      out = (mkOutcome None Headers.getHeaders None [], t)).
Proof.
  intros out. subst out. unfold processRequest. split.
  - intros Hget%String.eqb_neq Hhead%String.eqb_neq. rewrite Hget, Hhead.
    simpl. split; [|split].
    + intros body -> Hkind.
      assert (Hsame : Sanitizer.sanitizeSQLParameter config body = body).
      { unfold Sanitizer.sanitizeSQLParameter.
        destruct (Sanitizer.enableSQLInjectionProtection config); simpl;
          [|reflexivity].
        destruct body; try reflexivity. now destruct (Hkind s). }
      rewrite Hsame.
      destruct (sessionHeader request) as [[|c r]|]; simpl; auto.
      destruct (Sanitizer.enableCSRF config); simpl; auto.
    + intros s -> Hon. unfold Sanitizer.sanitizeSQLParameter. rewrite Hon.
      simpl. destruct (sessionHeader request) as [[|c r]|]; simpl; auto.
      destruct (Sanitizer.enableCSRF config); simpl; auto.
    + intros ->. reflexivity.
  - intros [-> | ->]; reflexivity.
Qed.

Lemma processRequest_body_witness :
  sanitizedBody
    (processRequest Sanitizer.defaultSecurityConfig [xab] 0
       (mkRequest "POST"
          (Some (JS.Obj (<["q" := JS.Str "1; DROP TABLE users"]> ∅))) None)
       ∅).1
  = Some (JS.Obj (<["q" := JS.Str "1; DROP TABLE users"]> ∅)).
Proof.
  destruct (processRequest_body Sanitizer.defaultSecurityConfig [xab] 0
              (mkRequest "POST"
                 (Some (JS.Obj (<["q" := JS.Str "1; DROP TABLE users"]> ∅)))
                 None) ∅) as [Hread _].
  destruct Hread as (Hother & _ & _); [discriminate | discriminate |].
  apply (Hother (JS.Obj (<["q" := JS.Str "1; DROP TABLE users"]> ∅))
                eq_refl).
  discriminate.
Defined.

End pipeline_facts.

(** ** Anchored patterns and [sanitizeEmail] *)

Section pattern_facts.

Import Regex.

Lemma append_nil_r (s : string) : (s +:+ EmptyString)%string = s.
Proof.
  induction s as [|c s IH]; [reflexivity|].
  change (String c (s +:+ EmptyString) = String c s). now f_equal.
Qed.

Lemma nullable_sound (r : re) : nullable r = true -> lang r EmptyString.
Proof.
  induction r as [| | p | r1 IH1 r2 IH2 | r1 IH1 r2 IH2 | r IH]; simpl;
    try discriminate.
  - intros _. constructor.
  - intros [H1 H2]%andb_prop.
    exact (lang_seq r1 r2 EmptyString EmptyString (IH1 H1) (IH2 H2)).
  - intros [H | H]%orb_prop; [apply lang_or_l | apply lang_or_r]; auto.
  - intros _. constructor.
Qed.

Lemma deriv_sound (c : ascii) (r : re) (s : string) :
  lang (deriv c r) s -> lang r (String c s).
Proof.
  revert s.
  induction r as [| | p | r1 IH1 r2 IH2 | r1 IH1 r2 IH2 | r IH];
    intros s; simpl.
  - inversion 1.
  - inversion 1.
  - destruct (p c) eqn:Hp; inversion 1; subst. now constructor.
  - assert (Hleft : lang (Seq (deriv c r1) r2) s -> lang (Seq r1 r2) (String c s)).
    { inversion 1 as [| |? ? s1 s2 H1 H2| | | |]; subst.
      exact (lang_seq r1 r2 (String c s1) s2 (IH1 _ H1) H2). }
    destruct (nullable r1) eqn:Hnull; [|exact Hleft].
    inversion 1 as [| | |? ? ? Hl|? ? ? Hr| |]; subst; [auto|].
    exact (lang_seq r1 r2 EmptyString (String c s)
             (nullable_sound r1 Hnull) (IH2 _ Hr)).
  - inversion 1; subst; [apply lang_or_l | apply lang_or_r]; auto.
  - inversion 1 as [| |? ? s1 s2 H1 H2| | | |]; subst.
    exact (lang_star_cons r (String c s1) s2 (IH _ H1) H2).
Qed.

(** A string that the test accepts is in the language of the pattern. *)
Lemma test_sound (r : re) (s : string) : test r s = true -> lang r s.
Proof.
  revert r. induction s as [|c s IH]; intros r; simpl.
  - apply nullable_sound.
  - intros H. apply deriv_sound, IH, H.
Qed.

Lemma only_app (p : ascii -> bool) (s1 s2 : string) :
  only p (s1 +:+ s2) = only p s1 && only p s2.
Proof.
  unfold only. induction s1 as [|c s1 IH]; [reflexivity|].
  change (negb (negb (p c)) && free_of (fun c => negb (p c)) (s1 +:+ s2)
          = negb (negb (p c)) && free_of (fun c => negb (p c)) s1
            && free_of (fun c => negb (p c)) s2).
  now rewrite IH, andb_assoc.
Qed.

Lemma lang_star_class (p : ascii -> bool) (r : re) (s : string) :
  lang r s -> r = Star (Class p) -> only p s = true.
Proof.
  induction 1 as [| | | | | |r0 s1 s2 H1 _ H2 IH2]; try discriminate.
  - reflexivity.
  - intros [= ->]. rewrite only_app, (IH2 eq_refl), andb_true_r.
    inversion H1; subst. unfold only; simpl.
    now rewrite H0.
Qed.

Lemma lang_plus_class (p : ascii -> bool) (s : string) :
  lang (Plus (Class p)) s -> s <> EmptyString /\ only p s = true.
Proof.
  unfold Plus. inversion 1 as [| |? ? s1 s2 H1 H2| | | |]; subst.
  inversion H1; subst. split; [discriminate|].
  rewrite only_app, (lang_star_class p _ _ H2 eq_refl), andb_true_r.
  unfold only; simpl. now rewrite H3.
Qed.

End pattern_facts.

Section email_facts.

Import Sanitizer.

Variable purify : string -> string.

Lemma is_at_char (c : ascii) : is_at c = true -> c = "@"%char.
Proof.
  intros Hc.
  pose proof (ascii_check (fun c => implb (is_at c) (Ascii.eqb c "@"))
    ltac:(vm_compute; reflexivity) c) as Hcheck.
  cbv beta in Hcheck. rewrite Hc in Hcheck. now apply Ascii.eqb_eq.
Qed.

(** The shape of an address that the pattern accepts. *)
Lemma emailRegex_shape (e : string) :
  Regex.test emailRegex e = true ->
  exists user host tail,
    e = (user +:+ "@" +:+ host +:+ "." +:+ tail)%string
    /\ user <> EmptyString /\ host <> EmptyString /\ tail <> EmptyString
    /\ only email_char user = true /\ only email_char host = true
    /\ only email_char tail = true.
Proof.
  intros Hlang%test_sound. unfold emailRegex in Hlang.
  inversion Hlang as [| |? ? user s1 Huser H1| | | |]; subst.
  inversion H1 as [| |? ? at_ s2 Hat H2| | | |]; subst.
  inversion H2 as [| |? ? host s3 Hhost H3| | | |]; subst.
  inversion H3 as [| |? ? dot tail Hdot Htail| | | |]; subst.
  inversion Hat as [|? c Hc| | | | |]; subst. apply is_at_char in Hc as ->.
  inversion Hdot as [|? d Hd| | | | |]; subst.
  apply (is_dot_char d) in Hd as ->.
  apply lang_plus_class in Huser as [? ?], Hhost as [? ?], Htail as [? ?].
  exists user, host, tail. auto 10.
Qed.

(** X27.  Whenever [sanitizeEmail] returns, what it returns reads
    [user@host.tail] with the three parts non-empty and free of white
    space and of at signs: one at sign in all, and a dot after it with
    text on both sides.  Anything else is refused with the error. *)
Theorem sanitizeEmail_returns_an_address
    (config : SecurityConfig) (input e : string) :
  sanitizeEmail purify config input = Some e ->
  exists user host tail,
    e = (user +:+ "@" +:+ host +:+ "." +:+ tail)%string
    /\ user <> EmptyString /\ host <> EmptyString /\ tail <> EmptyString
    /\ only email_char user = true /\ only email_char host = true
    /\ only email_char tail = true.
Proof.
  unfold sanitizeEmail. cbv zeta.
  destruct (Regex.test emailRegex _) eqn:Htest; simpl; [|discriminate].
  intros [= <-]. now apply emailRegex_shape.
Qed.

(** *** Lower case and trimming *)

Lemma free_of_app (p : ascii -> bool) (s1 s2 : string) :
  free_of p (s1 +:+ s2) = free_of p s1 && free_of p s2.
Proof.
  induction s1 as [|c s1 IH]; [reflexivity|].
  change (negb (p c) && free_of p (s1 +:+ s2)
          = negb (p c) && free_of p s1 && free_of p s2).
  now rewrite IH, andb_assoc.
Qed.

Lemma email_char_no_space (s : string) :
  only email_char s = true -> free_of is_space s = true.
Proof.
  unfold only. apply free_of_weaken. intros c Hc. unfold email_char.
  now rewrite Hc.
Qed.

Lemma trimStart_id (s : string) : free_of is_space s = true -> trimStart s = s.
Proof.
  destruct s as [|c r]; [done|]. simpl.
  now intros [->%negb_true_iff _]%andb_prop.
Qed.

Lemma trimEnd_id (s : string) : free_of is_space s = true -> trimEnd s = s.
Proof.
  induction s as [|c r IH]; [done|]. simpl.
  intros [Hc%negb_true_iff Hr]%andb_prop. rewrite (IH Hr), Hc.
  now destruct r.
Qed.

Lemma lower_char_idem (c : ascii) :
  JS.lower_char (JS.lower_char c) = JS.lower_char c.
Proof.
  apply Ascii.eqb_eq.
  exact (ascii_check
           (fun c => Ascii.eqb (JS.lower_char (JS.lower_char c)) (JS.lower_char c))
           ltac:(vm_compute; reflexivity) c).
Qed.

Lemma lower_char_space (c : ascii) : is_space (JS.lower_char c) = is_space c.
Proof.
  apply Bool.eqb_prop.
  exact (ascii_check
           (fun c => Bool.eqb (is_space (JS.lower_char c)) (is_space c))
           ltac:(vm_compute; reflexivity) c).
Qed.

Lemma toLowerCase_idem (s : string) :
  JS.toLowerCase (JS.toLowerCase s) = JS.toLowerCase s.
Proof.
  induction s as [|c r IH]; [done|]. simpl. now rewrite lower_char_idem, IH.
Qed.

Lemma toLowerCase_trimStart (s : string) :
  JS.toLowerCase (trimStart s) = trimStart (JS.toLowerCase s).
Proof.
  induction s as [|c r IH]; [done|]. simpl. rewrite lower_char_space.
  now destruct (is_space c).
Qed.

Lemma toLowerCase_trimEnd (s : string) :
  JS.toLowerCase (trimEnd s) = trimEnd (JS.toLowerCase s).
Proof.
  induction s as [|c r IH]; [done|]. simpl. rewrite <- IH, lower_char_space.
  destruct (trimEnd r); [now destruct (is_space c) | reflexivity].
Qed.

(** X28.  With XSS protection switched off nothing stands between the
    input and the pattern: an accepted address comes back trimmed and in
    lower case, and sanitizing it again returns it unchanged. *)
Theorem sanitizeEmail_normalises
    (config : SecurityConfig) (input e : string) :
  enableXSSProtection config = false ->
  sanitizeEmail purify config input = Some e ->
  e = trim (JS.toLowerCase input)
  /\ sanitizeEmail purify config e = Some e.
Proof.
  intros Hoff. unfold sanitizeEmail, sanitizeText. rewrite Hoff. simpl.
  destruct (Regex.test emailRegex (trim (JS.toLowerCase input))) eqn:Htest;
    simpl; [|discriminate].
  intros [= <-]. split; [reflexivity|].
  set (e := trim (JS.toLowerCase input)) in *.
  assert (Hlower : JS.toLowerCase e = e).
  { subst e. unfold trim.
    now rewrite toLowerCase_trimEnd, toLowerCase_trimStart, toLowerCase_idem. }
  assert (Hclean : free_of is_space e = true).
  { destruct (emailRegex_shape e Htest)
      as (user & host & tail & Heq & _ & _ & _ & Hu & Hh & Ht).
    rewrite Heq, !free_of_app.
    rewrite (email_char_no_space user Hu), (email_char_no_space host Hh),
      (email_char_no_space tail Ht).
    reflexivity. }
  rewrite Hlower. unfold trim.
  rewrite (trimStart_id e Hclean), (trimEnd_id e Hclean), Htest.
  reflexivity.
Qed.

End email_facts.

Section email_witnesses.

Import Sanitizer.

Lemma sanitizeEmail_returns_an_address_witness :
  exists user host tail,
    "alice@example.com" = (user +:+ "@" +:+ host +:+ "." +:+ tail)%string
    /\ user <> EmptyString /\ host <> EmptyString /\ tail <> EmptyString
    /\ only email_char user = true /\ only email_char host = true
    /\ only email_char tail = true.
Proof.
  apply (sanitizeEmail_returns_an_address id defaultSecurityConfig
           "  Alice@Example.COM " "alice@example.com").
  reflexivity.
Defined.

Lemma sanitizeEmail_normalises_witness :
  "alice@example.com" = trim (JS.toLowerCase "  Alice@Example.COM ")
  /\ sanitizeEmail id xss_off "alice@example.com" = Some "alice@example.com".
Proof.
  apply (sanitizeEmail_normalises id xss_off "  Alice@Example.COM "
           "alice@example.com"); reflexivity.
Defined.

End email_witnesses.

(** ** [sanitizeSQLParameter], again *)

Section sql_clean_facts.

Import Sanitizer.

#[local] Arguments Ascii.eqb : simpl never.

Lemma strip_keywords_from_id (prev_word : bool) (s : string) :
  keyword_word_in prev_word s = false ->
  strip_keywords_from prev_word 0 s = s.
Proof.
  revert prev_word. induction s as [|c r IH]; intros prev_word; [done|].
  cbn [keyword_word_in].
  change (strip_keywords_from prev_word 0 (String c r))
    with (match keyword_at prev_word (String c r) with
          | Some n => strip_keywords_from (JS.is_word c) (Nat.pred n) r
          | None => String c (strip_keywords_from (JS.is_word c) 0 r)
          end).
  destruct (keyword_at prev_word (String c r)); [discriminate|].
  intros Hrest. now rewrite (IH _ Hrest).
Qed.

Lemma strip_metachars_id (s : string) :
  free_of sql_metachar s = true -> strip_metachars s = s.
Proof.
  induction s as [|c r IH]; [done|]. simpl.
  intros [Hc%negb_true_iff Hr]%andb_prop. now rewrite Hc, (IH Hr).
Qed.

Lemma strip_comment_markers_id (s : string) :
  free_of is_star s = true -> has_pair is_dash s = false ->
  strip_comment_markers s = s.
Proof.
  induction s as [|a r IH]; [done|]. destruct r as [|b r']; [done|].
  intros Hstar Hpair.
  change (strip_comment_markers (String a (String b r')))
    with (if comment_marker a b then strip_comment_markers r'
          else String a (strip_comment_markers (String b r'))).
  assert (Hstar' : free_of is_star (String b r') = true)
    by (simpl in Hstar; now apply andb_prop in Hstar as [_ ?]).
  assert (Ha : is_star a = false)
    by (simpl in Hstar; now apply andb_prop in Hstar as [?%negb_true_iff _]).
  assert (Hb : is_star b = false)
    by (simpl in Hstar'; now apply andb_prop in Hstar' as [?%negb_true_iff _]).
  rewrite (marker_without_star a b Ha Hb).
  change (has_pair is_dash (String a (String b r')))
    with (is_dash a && is_dash b || has_pair is_dash (String b r')) in Hpair.
  apply orb_false_elim in Hpair as [-> Hrest].
  now rewrite (IH Hstar' Hrest).
Qed.

(** X29.  A string that holds no keyword as a whole word, none of the
    stripped code units and no two dashes in a row goes through
    [sanitizeSQLParameter] unchanged. *)
Theorem sanitizeSQLParameter_keeps_clean
    (config : SecurityConfig) (input : string) :
  keyword_word_in false input = false ->
  free_of sql_metachar input = true ->
  JS.includes input "--" = false ->
  sanitizeSQLParameter config (JS.Str input) = JS.Str input.
Proof.
  intros Hkw Hmeta Hdash. unfold sanitizeSQLParameter.
  destruct (enableSQLInjectionProtection config); simpl; [|reflexivity].
  f_equal. unfold sanitizeSQLString, dangerous, strip_keywords. simpl.
  rewrite (strip_keywords_from_id false input Hkw).
  rewrite (strip_metachars_id input Hmeta).
  apply strip_comment_markers_id.
  - apply (free_of_weaken sql_metachar); [apply star_is_metachar | exact Hmeta].
  - now rewrite includes_pair in Hdash.
Qed.

Lemma sanitizeSQLParameter_keeps_clean_witness :
  sanitizeSQLParameter defaultSecurityConfig (JS.Str "jazz night - 2 sets")
  = JS.Str "jazz night - 2 sets".
Proof.
  apply (sanitizeSQLParameter_keeps_clean defaultSecurityConfig
           "jazz night - 2 sets"); reflexivity.
Defined.

End sql_clean_facts.

(** ** [sanitizeFormData] at every depth *)

Section deep_facts.

Import Middleware.

Variable purify : string -> string.

(** An object under construction as a value: its prototype, if it was
    replaced, and its own properties. *)
Lemma sanitised_to_value (o : JS.object) :
  sanitised purify (JS.to_value o) <->
  (forall p, JS.proto o = Some p -> sanitised purify p)
  /\ (forall key x, JS.own o !! key = Some x -> sanitised purify x).
Proof.
  unfold JS.to_value. destruct (JS.proto o) as [p|]; split.
  - intros Hall. inversion Hall; subst. split; [|assumption].
    now intros ? [= <-].
  - intros [Hp Hown]. constructor; [now apply Hp | exact Hown].
  - intros Hall. inversion Hall; subst. split; [discriminate | assumption].
  - intros [_ Hown]. now constructor.
Qed.

(** An assignment of a sanitised value keeps the object sanitised,
    whichever way it goes. *)
Lemma set_prop_sanitised (k : string) (v : JS.value) (o o' : JS.object) :
  sanitised purify v ->
  sanitised purify (JS.to_value o) ->
  JS.set_prop k v o = Some o' ->
  sanitised purify (JS.to_value o').
Proof.
  intros Hv [Hp Hown]%sanitised_to_value Hset.
  assert (Hput : sanitised purify
            (JS.to_value (JS.mkObject (JS.proto o) (<[k := v]> (JS.own o))))).
  { apply sanitised_to_value. split; [exact Hp|]. simpl.
    intros key x [[_ <-] | [_ Hget]]%lookup_insert_Some;
      [exact Hv | now apply (Hown key)]. }
  unfold JS.set_prop in Hset.
  destruct (JS.own o !! k); [now injection Hset as <-|].
  destruct (match JS.proto o with
            | Some p => JS.inherited k p
            | None => JS.object_prototype k
            end); [now injection Hset as <- | discriminate |].
  destruct (JS.is_prototype v); injection Hset as <-.
  - apply sanitised_to_value. split; [|exact Hown].
    simpl. now intros ? [= <-].
  - now apply sanitised_to_value.
Qed.

Lemma assign_sanitised (acc : option JS.object) (k : string)
    (value : option JS.value) (o' : JS.object) :
  (forall o, acc = Some o -> sanitised purify (JS.to_value o)) ->
  (forall v, value = Some v -> sanitised purify v) ->
  assign acc k value = Some o' ->
  sanitised purify (JS.to_value o').
Proof.
  intros Hacc Hvalue. destruct acc as [o|], value as [v|]; try discriminate.
  simpl. apply set_prop_sanitised; auto.
Qed.

Lemma literal_sanitised : sanitised purify (JS.to_value JS.literal).
Proof. constructor. intros key x. simpl. now rewrite lookup_empty. Qed.

Lemma form_fold_sanitised (entries : list (string * JS.value))
    (acc : option JS.object) (o' : JS.object) :
  (forall key y, In (key, y) entries ->
     sanitised purify (sanitize_field purify y)) ->
  (forall o, acc = Some o -> sanitised purify (JS.to_value o)) ->
  fold_left (fun acc entry =>
               assign acc entry.1 (Some (sanitize_field purify entry.2)))
            entries acc = Some o' ->
  sanitised purify (JS.to_value o').
Proof.
  revert acc. induction entries as [|[k y] rest IH]; intros acc Hfields Hacc.
  - simpl. apply Hacc.
  - simpl. apply IH.
    + intros key z Hin. apply (Hfields key). now right.
    + intros o Ho. apply (assign_sanitised _ _ _ _ Hacc) in Ho; [exact Ho|].
      intros v [= <-]. apply (Hfields k). now left.
Qed.

Lemma array_loop_sanitised (rest : list JS.value) (i : nat)
    (acc : option JS.object) (o' : JS.object) :
  (forall x v, In x rest -> visit purify x = Some v -> sanitised purify v) ->
  (forall o, acc = Some o -> sanitised purify (JS.to_value o)) ->
  array_loop purify i rest acc = Some o' ->
  sanitised purify (JS.to_value o').
Proof.
  revert i acc. induction rest as [|x rest IH]; intros i acc Hitems Hacc.
  - simpl. apply Hacc.
  - simpl. apply IH.
    + intros y v Hin. apply Hitems. now right.
    + intros o Ho. apply (assign_sanitised _ _ _ _ Hacc) in Ho; [exact Ho|].
      intros v. apply Hitems. now left.
Qed.

Lemma object_loop_sanitised (props : gmap string JS.value) (o' : JS.object) :
  (forall key x v, props !! key = Some x -> visit purify x = Some v ->
     sanitised purify v) ->
  map_fold (fun key value acc => assign acc key (visit purify value))
           (Some JS.literal) props = Some o' ->
  sanitised purify (JS.to_value o').
Proof.
  intros Hvalues. revert o'.
  cut ((forall key x v, props !! key = Some x -> visit purify x = Some v ->
          sanitised purify v) ->
       forall o',
         map_fold (fun key value acc => assign acc key (visit purify value))
                  (Some JS.literal) props = Some o' ->
         sanitised purify (JS.to_value o')); [now auto|].
  apply (map_fold_weak_ind
    (fun r (m : gmap string JS.value) =>
       (forall key x v, m !! key = Some x -> visit purify x = Some v ->
          sanitised purify v) ->
       forall o', r = Some o' -> sanitised purify (JS.to_value o'))).
  - intros _ o' [= <-]. apply literal_sanitised.
  - intros i x m r Hfresh IH Hm o' Hassign.
    apply (assign_sanitised r i (visit purify x) o'); [|  |exact Hassign].
    + apply IH. intros key y v Hget. apply (Hm key).
      rewrite lookup_insert_ne; [exact Hget | congruence].
    + intros v. apply (Hm i). apply lookup_insert_eq.
Qed.

(** What the right-hand side of the loop gives, once the recursive
    call is known to give a sanitised object. *)
Lemma sanitised_visit (y v : JS.value) :
  (forall o, sanitized purify y = Some o -> sanitised purify (JS.to_value o)) ->
  visit purify y = Some v ->
  sanitised purify v.
Proof.
  intros Hrec. unfold visit.
  destruct y;
    first [ destruct (sanitized purify _) as [o|];
            [intros [= <-]; now apply Hrec | discriminate]
          | intros [= <-]; constructor ].
Qed.

Lemma sanitized_is_sanitised (v : JS.value) :
  well_formed v ->
  forall o, sanitized purify v = Some o -> sanitised purify (JS.to_value o).
Proof.
  induction 1 as [| | | | s | | items Hwf IH | props Hwf IH | entries Hform];
    intros o;
    try (intros [= <-]; apply literal_sanitised).
  - apply form_fold_sanitised.
    + intros key y [_ [t ->]]%string_entries_keys. constructor.
    + intros ? [= <-]. apply literal_sanitised.
  - rewrite sanitized_array. apply array_loop_sanitised.
    + intros x w Hx. apply sanitised_visit. now apply IH.
    + intros ? [= <-]. apply literal_sanitised.
  - rewrite sanitized_object. apply object_loop_sanitised.
    intros key x w Hx. apply sanitised_visit. now apply (IH key).
  - apply form_fold_sanitised.
    + intros key y Hin.
      destruct (Hform key y Hin) as [[s ->] | [f ->]]; constructor.
    + intros ? [= <-]. apply literal_sanitised.
Qed.

(** X30.  Input sanitization enabled, whatever [sanitizeFormData]
    returns holds no raw string: at every depth, a string of the result
    is an output of the text sanitizer.  The result holds no array
    either: every array of the input has become a plain object. *)
Theorem sanitizeFormData_reaches_every_string
    (config : SecurityMiddlewareConfig) (formData out : JS.value) :
  enableInputSanitization config = true ->
  well_formed formData ->
  sanitizeFormData purify config formData = Some out ->
  sanitised purify out.
Proof.
  intros Hon Hwf. unfold sanitizeFormData. rewrite Hon. cbn [negb].
  pose proof (sanitized_is_sanitised formData Hwf) as Hrec.
  destruct formData;
    first [ destruct (sanitized purify _) as [o|];
            [intros [= <-]; now apply Hrec | discriminate]
          | discriminate ].
Qed.

End deep_facts.

Section deep_witness.

Import Middleware.

Lemma sanitizeFormData_reaches_every_string_witness :
  sanitised id
    (JS.Obj (<["comment" := JS.Str "nice event"]>
               (<["stars" := JS.Num 5]>
                  (<["tags" := JS.Obj (<["0" := JS.Str "music"]>
                                         (<["1" := JS.Null]> ∅))]> ∅)))).
Proof.
  apply (sanitizeFormData_reaches_every_string id securityMiddleware
           (JS.Obj comment_form)).
  - reflexivity.
  - constructor. intros key x Hget.
    destruct (decide (key = "comment")) as [->|]; [injection Hget as <-; constructor|].
    destruct (decide (key = "stars")) as [->|]; [injection Hget as <-; constructor|].
    destruct (decide (key = "tags")) as [->|].
    + injection Hget as <-. constructor.
      intros y [<- | [<- | []]]; constructor.
    + unfold comment_form in Hget.
      rewrite !lookup_insert_ne, lookup_empty in Hget by done. discriminate.
  - reflexivity.
Defined.

End deep_witness.
